(** * Schedule engine and drag reconciliation of [script.js]

    A shallow embedding of the scheduling core of the project-schedule
    calculator: the business-day calendar, the anchor based date chaining of
    [calculateSchedule], and the commit logic of [applyGanttChange]; with
    them the handlers that edit a timeline, the drag gesture, the rows of
    the phase list and the geometry of the Gantt chart.

    Modelling conventions.
    - A JS [Date] is either a calendar day, given by its day number (days
      since 1970-01-01, a Thursday), or [Invalid Date].  Every valid date the
      program handles is created from a date-only string and moved by whole
      days, so its time value is [day * 86400000]; the local time zone is
      taken to have a non-negative offset and no daylight saving, so that the
      local calendar day of [new Date("YYYY-MM-DD")] is the day written.
    - A date string field is absent ([undefined] or the empty string, both
      falsy), a well formed date-only string, or the text "NaN-NaN-NaN" that
      formatting an [Invalid Date] produces.
    - JS numbers are integers ([Z]) or [NaN].
    - Loops run on fuel; each loop comes with a lemma that the fuel given
      to it is enough. *)

From Stdlib Require Import ZArith Lia Bool.
From stdpp Require Import base list strings.

Open Scope Z_scope.

(** ** JS values *)

Inductive JsDate : Type :=
  | Day (d : Z)
  | InvalidDate.

Inductive JsNum : Type :=
  | Num (z : Z)
  | NaN.

Inductive DateStr : Type :=
  | NoStr
  | Ymd (d : Z)
  | NaNStr.

#[global] Instance JsDate_eq_dec : EqDecision JsDate.
Proof. solve_decision. Defined.
#[global] Instance JsNum_eq_dec : EqDecision JsNum.
Proof. solve_decision. Defined.
#[global] Instance DateStr_eq_dec : EqDecision DateStr.
Proof. solve_decision. Defined.

(** Truthiness of a string field: [s ? a : b], [!s], [s || t]. *)
Definition truthy (s : DateStr) : bool :=
  match s with
  | NoStr => false
  | _ => true
  end.

Definition orElse (s t : DateStr) : DateStr :=
  if truthy s then s else t.

(** [new Date(s)] for a string field. *)
Definition newDate (s : DateStr) : JsDate :=
  match s with
  | Ymd d => Day d
  | _ => InvalidDate
  end.

(** [1000 * 60 * 60 * 24] *)
Definition msPerDay : Z := 1000 * 60 * 60 * 24.

(** [date.getTime()] *)
Definition getTime (date : JsDate) : JsNum :=
  match date with
  | Day d => Num (d * msPerDay)
  | InvalidDate => NaN
  end.

(** [date.getDay()]: 0 is Sunday, 6 is Saturday. *)
Definition getDay (date : JsDate) : JsNum :=
  match date with
  | Day d => Num ((d + 4) mod 7)
  | InvalidDate => NaN
  end.

(** [date.setDate(date.getDate() + k)] *)
Definition shiftDate (date : JsDate) (k : Z) : JsDate :=
  match date with
  | Day d => Day (d + k)
  | InvalidDate => InvalidDate
  end.

(** [x === z] for a number and an integer literal. *)
Definition numIs (x : JsNum) (z : Z) : bool :=
  match x with
  | Num y => y =? z
  | NaN => false
  end.

(** [a <= b] on numbers; false as soon as one side is [NaN]. *)
Definition numLe (a b : JsNum) : bool :=
  match a, b with
  | Num x, Num y => x <=? y
  | _, _ => false
  end.

(** The [iso] helper of the drag code, and [normalizeDateStr]. *)
Definition iso (date : JsDate) : DateStr :=
  match date with
  | Day d => Ymd d
  | InvalidDate => NaNStr
  end.

(** ** Date helpers *)

Definition isWeekend (date : JsDate) : bool :=
  let day := getDay date in
  numIs day 0 || numIs day 6.

Definition normalizeDateStr (date : JsDate) : DateStr := iso date.

(** [appState.globalHolidays]: the holiday list holds the day numbers of its
    [YYYY-MM-DD] entries. *)
Definition includes (l : list Z) (s : DateStr) : bool :=
  match s with
  | Ymd d => existsb (Z.eqb d) l
  | _ => false
  end.

Definition isHoliday (globalHolidays : list Z) (date : JsDate) : bool :=
  let str := normalizeDateStr date in
  includes globalHolidays str.

Definition isWorkingDay (hol : list Z) (date : JsDate) : bool :=
  negb (isWeekend date) && negb (isHoliday hol date).

(** [while (cond) body], on fuel: [None] when the fuel runs out before the
    condition turns false. *)
Fixpoint while {St : Type} (fuel : nat) (cond : St → bool) (body : St → St)
    (s : St) : option St :=
  if cond s then
    match fuel with
    | O => None
    | S fuel' => while fuel' cond body (body s)
    end
  else Some s.

(** The longest run of days without a working day is shorter than this. *)
Definition gapBound (hol : list Z) : nat := (7 * (length hol + 1))%nat.

Definition stepFuel (hol : list Z) (n : Z) : nat :=
  (Z.to_nat n * gapBound hol)%nat.

Definition subBusinessDays_body (hol : list Z) (st : JsDate * Z) : JsDate * Z :=
  let '(date, daysLeft) := st in
  let date := shiftDate date (-1) in
  if isWorkingDay hol date then (date, daysLeft - 1) else (date, daysLeft).

Definition subBusinessDays_loop (fuel : nat) (hol : list Z)
    (startDate : JsDate) (daysToSubtract : Z) : option JsDate :=
  fst <$> while fuel (λ st, snd st >? 0) (subBusinessDays_body hol)
            (startDate, daysToSubtract).

Definition subBusinessDays (hol : list Z) (startDate : JsDate)
    (daysToSubtract : Z) : JsDate :=
  default startDate
    (subBusinessDays_loop (stepFuel hol daysToSubtract) hol startDate
       daysToSubtract).

Definition addBusinessDays_body (hol : list Z) (st : JsDate * Z) : JsDate * Z :=
  let '(date, daysLeft) := st in
  let date := shiftDate date 1 in
  if isWorkingDay hol date then (date, daysLeft - 1) else (date, daysLeft).

Definition addBusinessDays_loop (fuel : nat) (hol : list Z)
    (startDate : JsDate) (daysToAdd : Z) : option JsDate :=
  fst <$> while fuel (λ st, snd st >? 0) (addBusinessDays_body hol)
            (startDate, daysToAdd).

Definition addBusinessDays (hol : list Z) (startDate : JsDate)
    (daysToAdd : Z) : JsDate :=
  default startDate
    (addBusinessDays_loop (stepFuel hol daysToAdd) hol startDate daysToAdd).

Definition ensureWorkingDayBackward_loop (fuel : nat) (hol : list Z)
    (date : JsDate) : option JsDate :=
  while fuel (λ d, negb (isWorkingDay hol d)) (λ d, shiftDate d (-1)) date.

Definition ensureWorkingDayBackward (hol : list Z) (date : JsDate) : JsDate :=
  default date (ensureWorkingDayBackward_loop (gapBound hol) hol date).

Definition ensureWorkingDayForward_loop (fuel : nat) (hol : list Z)
    (date : JsDate) : option JsDate :=
  while fuel (λ d, negb (isWorkingDay hol d)) (λ d, shiftDate d 1) date.

Definition ensureWorkingDayForward (hol : list Z) (date : JsDate) : JsDate :=
  default date (ensureWorkingDayForward_loop (gapBound hol) hol date).

(** [Math.floor((d2 - d1) / (1000 * 60 * 60 * 24)) + 1] *)
Definition getDaysDiff (d1 d2 : JsDate) : JsNum :=
  match getTime d2, getTime d1 with
  | Num t2, Num t1 => Num ((t2 - t1) / msPerDay + 1)
  | _, _ => NaN
  end.

(** ** Data model *)

Inductive AnchorType : Type :=
  | AnchorEnd
  | AnchorStart.

Inductive SortOrder : Type :=
  | Asc
  | Desc.

Record Phase : Type := mkPhase {
  p_id : string;
  p_name : string;
  days : Z;
  isParallel : bool;
  manualStartDate : DateStr;
  manualEndDate : DateStr
}.

Record TimelineData : Type := mkData {
  anchorDate : DateStr;
  anchorPhaseId : string;
  anchorType : AnchorType;
  sortOrder : SortOrder;
  phases : list Phase
}.

(** An entry of the schedule: [{ ...p, startDate, endDate }], with [days]
    overwritten for a parallel phase. *)
Record ResultItem : Type := mkItem {
  r_id : string;
  r_name : string;
  r_days : JsNum;
  r_isParallel : bool;
  r_manualStartDate : DateStr;
  r_manualEndDate : DateStr;
  startDate : JsDate;
  endDate : JsDate
}.

#[global] Instance AnchorType_eq_dec : EqDecision AnchorType.
Proof. solve_decision. Defined.
#[global] Instance SortOrder_eq_dec : EqDecision SortOrder.
Proof. solve_decision. Defined.
#[global] Instance Phase_eq_dec : EqDecision Phase.
Proof. solve_decision. Defined.
#[global] Instance TimelineData_eq_dec : EqDecision TimelineData.
Proof. solve_decision. Defined.
#[global] Instance ResultItem_eq_dec : EqDecision ResultItem.
Proof. solve_decision. Defined.

(** Field writes. *)
Definition set_days (v : Z) (p : Phase) : Phase :=
  mkPhase (p_id p) (p_name p) v (isParallel p) (manualStartDate p)
    (manualEndDate p).
Definition set_name (v : string) (p : Phase) : Phase :=
  mkPhase (p_id p) v (days p) (isParallel p) (manualStartDate p)
    (manualEndDate p).
Definition set_isParallel (v : bool) (p : Phase) : Phase :=
  mkPhase (p_id p) (p_name p) (days p) v (manualStartDate p)
    (manualEndDate p).
Definition set_manualStartDate (v : DateStr) (p : Phase) : Phase :=
  mkPhase (p_id p) (p_name p) (days p) (isParallel p) v (manualEndDate p).
Definition set_manualEndDate (v : DateStr) (p : Phase) : Phase :=
  mkPhase (p_id p) (p_name p) (days p) (isParallel p) (manualStartDate p) v.

Definition set_anchorPhaseId (v : string) (d : TimelineData) : TimelineData :=
  mkData (anchorDate d) v (anchorType d) (sortOrder d) (phases d).
Definition set_anchorDate (v : DateStr) (d : TimelineData) : TimelineData :=
  mkData v (anchorPhaseId d) (anchorType d) (sortOrder d) (phases d).
Definition set_anchorType (v : AnchorType) (d : TimelineData) : TimelineData :=
  mkData (anchorDate d) (anchorPhaseId d) v (sortOrder d) (phases d).
Definition set_sortOrder (v : SortOrder) (d : TimelineData) : TimelineData :=
  mkData (anchorDate d) (anchorPhaseId d) (anchorType d) v (phases d).
Definition set_phases (v : list Phase) (d : TimelineData) : TimelineData :=
  mkData (anchorDate d) (anchorPhaseId d) (anchorType d) (sortOrder d) v.

(** [data.phases[idx] = f(data.phases[idx])], for a write to fields of the
    phase object at [idx]. *)
Definition set_phase (idx : nat) (p : Phase) (d : TimelineData) : TimelineData :=
  set_phases (<[idx := p]> (phases d)) d.

(** [{ ...p, startDate: s, endDate: e, days: n }] *)
Definition spread (p : Phase) (n : JsNum) (s e : JsDate) : ResultItem :=
  mkItem (p_id p) (p_name p) n (isParallel p) (manualStartDate p)
    (manualEndDate p) s e.

(** ** The schedule engine *)

(** [data.phases.findIndex(p => p.id === data.anchorPhaseId)]; [None] is -1. *)
Definition findAnchorIndex (data : TimelineData) : option nat :=
  fst <$> list_find (λ p, p_id p = anchorPhaseId data) (phases data).

(** The [processParallel] closure.  [None] is its [null]; an index outside
    the list (on which the source would raise) does not occur, the loops
    stay within the list, and is mapped to [None]. *)
Definition processParallel (hol : list Z) (data : TimelineData) (idx : nat)
    : option ResultItem :=
  match phases data !! idx with
  | Some p =>
      if isParallel p then
        let s := if truthy (manualStartDate p) then newDate (manualStartDate p)
                 else newDate (anchorDate data) in
        let e := if truthy (manualEndDate p) then newDate (manualEndDate p)
                 else addBusinessDays hol s (days p - 1) in
        let diff := getDaysDiff s e in
        Some (spread p diff s e)
      else None
  | None => None
  end.

(** The [results] array: [new Array(n)] starts with [n] empty slots. *)
Abbreviation Slots := (list (option ResultItem)).

(** Body of the loop over the phases before the anchor; the state is the
    array and [nextRefDate]. *)
Definition precedingStep (hol : list Z) (data : TimelineData) (i : nat)
    (st : Slots * JsDate) : Slots * JsDate :=
  let '(results, nextRefDate) := st in
  match processParallel hol data i with
  | Some parallelRes => (<[i := Some parallelRes]> results, nextRefDate)
  | None =>
      match phases data !! i with
      | Some p =>
          let end_ := subBusinessDays hol nextRefDate 1 in
          let start := subBusinessDays hol end_ (Z.max 0 (days p - 1)) in
          (<[i := Some (spread p (Num (days p)) start end_)]> results, start)
      | None => st
      end
  end.

(** [for (let i = anchorIndex - 1; i >= 0; i--)]: [k] is [i + 1]. *)
Fixpoint precedingChain (hol : list Z) (data : TimelineData) (k : nat)
    (st : Slots * JsDate) : Slots * JsDate :=
  match k with
  | O => st
  | S i => precedingChain hol data i (precedingStep hol data i st)
  end.

(** Body of the loop over the phases after the anchor; the state is the
    array and [prevRefDate]. *)
Definition succeedingStep (hol : list Z) (data : TimelineData) (i : nat)
    (st : Slots * JsDate) : Slots * JsDate :=
  let '(results, prevRefDate) := st in
  match processParallel hol data i with
  | Some parallelRes => (<[i := Some parallelRes]> results, prevRefDate)
  | None =>
      match phases data !! i with
      | Some p =>
          let start := addBusinessDays hol prevRefDate 1 in
          let end_ := addBusinessDays hol start (Z.max 0 (days p - 1)) in
          (<[i := Some (spread p (Num (days p)) start end_)]> results, end_)
      | None => st
      end
  end.

(** [for (let i = anchorIndex + 1; i < data.phases.length; i++)]: [n] is the
    number of iterations left. *)
Fixpoint succeedingChain (hol : list Z) (data : TimelineData) (n i : nat)
    (st : Slots * JsDate) : Slots * JsDate :=
  match n with
  | O => st
  | S n' => succeedingChain hol data n' (S i) (succeedingStep hol data i st)
  end.

(** The anchor span. *)
Definition anchorSpan (hol : list Z) (data : TimelineData)
    (anchorPhase : Phase) : JsDate * JsDate :=
  let anchorDateObj := newDate (anchorDate data) in
  match anchorType data with
  | AnchorEnd =>
      let anchorEnd := ensureWorkingDayBackward hol anchorDateObj in
      let anchorStart :=
        subBusinessDays hol anchorEnd (Z.max 0 (days anchorPhase - 1)) in
      (anchorStart, anchorEnd)
  | AnchorStart =>
      let anchorStart := ensureWorkingDayForward hol anchorDateObj in
      let anchorEnd :=
        addBusinessDays hol anchorStart (Z.max 0 (days anchorPhase - 1)) in
      (anchorStart, anchorEnd)
  end.

(** The array once the anchor and both chains are written. *)
Definition scheduleSlots (hol : list Z) (data : TimelineData)
    (anchorIndex : nat) (anchorPhase : Phase) : Slots :=
  let results := replicate (length (phases data)) None in
  let '(anchorStart, anchorEnd) := anchorSpan hol data anchorPhase in
  let results :=
    <[anchorIndex := Some (spread anchorPhase (Num (days anchorPhase))
                             anchorStart anchorEnd)]> results in
  let '(results, _) :=
    precedingChain hol data anchorIndex (results, anchorStart) in
  let '(results, _) :=
    succeedingChain hol data (length (phases data) - S anchorIndex)
      (S anchorIndex) (results, anchorEnd) in
  results.

(** The part of [calculateSchedule] after the anchor is found.  The array is
    returned as the list of its entries; [scheduleSlots_filled] shows that
    no slot is left empty. *)
Definition scheduleFrom (hol : list Z) (data : TimelineData)
    (anchorIndex : nat) : list ResultItem :=
  match phases data !! anchorIndex with
  | Some anchorPhase => omap id (scheduleSlots hol data anchorIndex anchorPhase)
  | None => []
  end.

(** [calculateSchedule(data)].  The result is [None] for [null]; the second
    component is [data] after the call (only [anchorPhaseId] is ever
    written).  [retries] bounds the depth of the self call; the outer
    [None] means that the bound was hit. *)
Fixpoint calculateSchedule_rec (retries : nat) (hol : list Z)
    (data : TimelineData)
    : option (option (list ResultItem) * TimelineData) :=
  if negb (truthy (anchorDate data)) || (length (phases data) =? 0)%nat
  then Some (None, data)
  else
    let anchorIndex := findAnchorIndex data in
    match anchorIndex with
    | None =>
        match phases data with
        | p0 :: _ =>
            let data := set_anchorPhaseId (p_id p0) data in
            match retries with
            | O => None
            | S retries' => calculateSchedule_rec retries' hol data
            end
        | [] => Some (Some [], data)
        end
    | Some anchorIndex => Some (Some (scheduleFrom hol data anchorIndex), data)
    end.

Definition calculateSchedule (hol : list Z) (data : TimelineData)
    : option (list ResultItem) * TimelineData :=
  default (None, data) (calculateSchedule_rec 1 hol data).

(** ** Application state *)

Record Timeline : Type := mkTimeline {
  t_id : string;
  t_name : string;
  data : TimelineData
}.

Record AppState : Type := mkState {
  activeTimelineId : string;
  globalHolidays : list Z;
  timelines : list Timeline
}.

#[global] Instance Timeline_eq_dec : EqDecision Timeline.
Proof. solve_decision. Defined.
#[global] Instance AppState_eq_dec : EqDecision AppState.
Proof. solve_decision. Defined.

Definition set_data (v : TimelineData) (t : Timeline) : Timeline :=
  mkTimeline (t_id t) (t_name t) v.
Definition set_timelines (v : list Timeline) (s : AppState) : AppState :=
  mkState (activeTimelineId s) (globalHolidays s) v.

(** Which page elements exist; the render functions return at once when
    theirs is missing. *)
Record Dom : Type := mkDom {
  hasPhaseList : bool;
  hasResultContainer : bool;
  hasGanttContainer : bool
}.

(** What a render does to the state: it runs the engine, whose only write
    is the anchor repoint. *)
Definition engineOn (hol : list Z) (t : Timeline) : Timeline :=
  set_data (snd (calculateSchedule hol (data t))) t.

(** Index of [getActiveTimeline()]: the timeline with the active id, else
    the first one.  [None] when there is no timeline at all, where the
    source raises on [undefined.data]. *)
Definition getActiveIndex (s : AppState) : option nat :=
  match list_find (λ t, t_id t = activeTimelineId s) (timelines s) with
  | Some (i, _) => Some i
  | None => match timelines s with [] => None | _ :: _ => Some 0%nat end
  end.

(** [calculateSchedule(getActiveData())] *)
Definition engineOnActive (s : AppState) : AppState :=
  match getActiveIndex s with
  | Some i =>
      set_timelines
        (alter (engineOn (globalHolidays s)) i (timelines s)) s
  | None => s
  end.

Definition renderPhases (dom : Dom) (s : AppState) : AppState :=
  if hasPhaseList dom then engineOnActive s else s.

Definition renderSchedule (dom : Dom) (s : AppState) : AppState :=
  if hasResultContainer dom then engineOnActive s else s.

Definition renderGantt (dom : Dom) (s : AppState) : AppState :=
  if hasGanttContainer dom
  then set_timelines (engineOn (globalHolidays s) <$> timelines s) s
  else s.

Definition updateSchedule (dom : Dom) (s : AppState) : AppState :=
  renderGantt dom (renderSchedule dom s).

(** ** Drag reconciliation *)

Inductive DragType : Type :=
  | DragMove
  | DragResize.

Record GanttDragState : Type := mkDrag {
  dragType : DragType;
  phaseId : string;
  timelineId : string;
  initialDays : Z
}.

(** How a call of [applyGanttChange] ends: by one of its early [return]s, by
    the collision abort, by running to its end, or by the [TypeError] of
    calling a method on the [null] schedule. *)
Inductive Exit : Type :=
  | ExitEarly
  | ExitCollision
  | ExitCommitted
  | ExitTypeError.

#[global] Instance Exit_eq_dec : EqDecision Exit.
Proof. solve_decision. Defined.

(** Resize branch: the writes to [phase] (at index [pidx] of [data]). *)
Definition resizePhase (data : TimelineData) (phase : Phase)
    (initialDays deltaDays : Z) : Phase :=
  let newDays := initialDays + deltaDays in
  let phase := set_days (Z.max 1 newDays) phase in
  if isParallel phase then
    let startStr := orElse (manualStartDate phase) (anchorDate data) in
    let end_ := newDate startStr in
    let end_ := shiftDate end_ newDays in
    set_manualEndDate (iso end_) phase
  else phase.

(** Move of a non-anchor phase, step 1: the base dates [tempStart],
    [tempEnd] from the current state.  The engine may be run here, so the
    data comes back with it; [None] is the [TypeError] of [sch.find] on a
    [null] schedule. *)
Definition currentSpan (hol : list Z) (data : TimelineData) (phase : Phase)
    (phaseId : string) : option (JsDate * JsDate) * TimelineData :=
  let currentIsParallel := isParallel phase in
  if currentIsParallel && truthy (manualStartDate phase) then
    (Some (newDate (manualStartDate phase), newDate (manualEndDate phase)),
     data)
  else
    let '(sch, data) := calculateSchedule hol data in
    match sch with
    | None => (None, data)
    | Some sch =>
        match list_find (λ i, r_id i = phaseId) sch with
        | Some (_, item) => (Some (startDate item, endDate item), data)
        | None =>
            (Some (newDate (anchorDate data), newDate (anchorDate data)), data)
        end
    end.

(** [s1 <= e2 && e1 >= s2] on the time values. *)
Definition overlaps (proposedStart proposedEnd : JsDate)
    (otherItem : ResultItem) : bool :=
  let s1 := getTime proposedStart in
  let e1 := getTime proposedEnd in
  let s2 := getTime (startDate otherItem) in
  let e2 := getTime (endDate otherItem) in
  numLe s1 e2 && numLe s2 e1.

(** The callback of [currentSchedule.some]. *)
Definition collidesWith (data : TimelineData) (phaseId : string)
    (proposedStart proposedEnd : JsDate) (otherItem : ResultItem) : bool :=
  if bool_decide (r_id otherItem = phaseId) then false
  else
    match list_find (λ p, p_id p = r_id otherItem) (phases data) with
    | None => false
    | Some (_, otherPhase) =>
        if isParallel otherPhase then false
        else if bool_decide (p_id otherPhase = anchorPhaseId data) then false
        else overlaps proposedStart proposedEnd otherItem
    end.

(** Step 3 of the move: the writes to [phase]. *)
Definition commitMove (phase : Phase) (tempStart tempEnd : JsDate)
    (proposedStart proposedEnd : JsDate) : Phase :=
  let phase :=
    if negb (isParallel phase) then
      set_manualEndDate (iso tempEnd)
        (set_manualStartDate (iso tempStart) (set_isParallel true phase))
    else phase in
  set_manualEndDate (iso proposedEnd)
    (set_manualStartDate (iso proposedStart) phase).

(** Move branch on the data of the dragged timeline; [phase] is the object
    found at index [pidx]. *)
Definition movePhase (hol : list Z) (data : TimelineData) (pidx : nat)
    (phase : Phase) (phaseId : string) (deltaDays : Z)
    : Exit * TimelineData :=
  if bool_decide (p_id phase = anchorPhaseId data) then
    let currentAnchor := newDate (anchorDate data) in
    let currentAnchor := shiftDate currentAnchor deltaDays in
    (ExitCommitted, set_anchorDate (iso currentAnchor) data)
  else
    let '(span, data) := currentSpan hol data phase phaseId in
    match span with
    | None => (ExitTypeError, data)
    | Some (tempStart, tempEnd) =>
        let proposedStart := shiftDate tempStart deltaDays in
        let proposedEnd := shiftDate tempEnd deltaDays in
        let '(currentSchedule, data) := calculateSchedule hol data in
        match currentSchedule with
        | None => (ExitTypeError, data)
        | Some currentSchedule =>
            let hasCollision :=
              existsb (collidesWith data phaseId proposedStart proposedEnd)
                currentSchedule in
            if hasCollision then (ExitCollision, data)
            else
              (ExitCommitted,
               set_phase pidx
                 (commitMove phase tempStart tempEnd proposedStart proposedEnd)
                 data)
        end
    end.

(** [applyGanttChange] from the lookup of the phase on, on the data of the
    timeline that was found. *)
Definition ganttChangeData (hol : list Z) (drag : GanttDragState)
    (deltaDays : Z) (data : TimelineData) : Exit * TimelineData :=
  match list_find (λ p, p_id p = phaseId drag) (phases data) with
  | None => (ExitEarly, data)
  | Some (pidx, phase) =>
      match dragType drag with
      | DragResize =>
          (ExitCommitted,
           set_phase pidx (resizePhase data phase (initialDays drag) deltaDays)
             data)
      | DragMove => movePhase hol data pidx phase (phaseId drag) deltaDays
      end
  end.

(** [applyGanttChange(deltaDays)] with the drag context and the page as
    arguments.  [saveState] writes to storage only and is left out. *)
Definition applyGanttChange (dom : Dom) (drag : GanttDragState)
    (deltaDays : Z) (s : AppState) : Exit * AppState :=
  if deltaDays =? 0 then (ExitEarly, s)
  else
    match list_find (λ t, t_id t = timelineId drag) (timelines s) with
    | None => (ExitEarly, s)
    | Some (tidx, timeline) =>
        let '(exit, data') :=
          ganttChangeData (globalHolidays s) drag deltaDays (data timeline) in
        let s := set_timelines (<[tidx := set_data data' timeline]> (timelines s)) s in
        match exit with
        | ExitCommitted => (exit, updateSchedule dom (renderPhases dom s))
        | ExitCollision => (exit, renderGantt dom s)
        | _ => (exit, s)
        end
    end.

(** ** Edits of a timeline's data

    The handlers that write to the data of a timeline, as operations on that
    data.  Row indices come from the rendered list, so they are within the
    list; an edit whose index is not leaves the data as it is. *)

Inductive Edit : Type :=
  | EditName (idx : nat) (value : string)
  | EditParallel (idx : nat) (checked : bool)
  | EditManualStart (idx : nat) (value : DateStr)
  | EditManualEnd (idx : nat) (value : DateStr)
  | EditDays (idx : nat) (val : Z)
  | EditDelete (idx : nat)
  | EditReorder (fromIdx toIdx : nat)
  | EditAddPhase (now : string)
  | EditAnchorPhase (value : string)
  | EditAnchorType (value : AnchorType)
  | EditAnchorDate (value : DateStr)
  | EditSortToggle
  | EditRender
  | EditGantt (drag : GanttDragState) (deltaDays : Z).

(** [if (!isNaN(s) && !isNaN(eDate)) phase.days = getDaysDiff(s, eDate)] *)
Definition refreshDays (s eDate : JsDate) (p : Phase) : Phase :=
  match getDaysDiff s eDate with
  | Num n => set_days n p
  | NaN => p
  end.

Definition editPhase (e : Edit) (data : TimelineData) (p : Phase) : Phase :=
  match e with
  | EditName _ value => set_name value p
  | EditParallel _ checked =>
      if bool_decide (anchorPhaseId data = p_id p) then p
      else
        let p := set_isParallel checked p in
        if isParallel p then
          let p := if negb (truthy (manualStartDate p))
                   then set_manualStartDate (anchorDate data) p else p in
          if negb (truthy (manualEndDate p))
          then set_manualEndDate (anchorDate data) p else p
        else p
  | EditManualStart _ value =>
      let p := set_manualStartDate value p in
      let s := newDate (manualStartDate p) in
      let eDate := newDate (orElse (manualEndDate p) (manualStartDate p)) in
      refreshDays s eDate p
  | EditManualEnd _ value =>
      let p := set_manualEndDate value p in
      let s := newDate (orElse (manualStartDate p) (manualEndDate p)) in
      let eDate := newDate (manualEndDate p) in
      refreshDays s eDate p
  | EditDays _ val =>
      if isParallel p then p else set_days (Z.max 1 val) p
  | _ => p
  end.

Definition toggleSort (o : SortOrder) : SortOrder :=
  match o with
  | Asc => Desc
  | Desc => Asc
  end.

Definition applyEdit (hol : list Z) (e : Edit) (data : TimelineData)
    : TimelineData :=
  match e with
  | EditName idx _ | EditParallel idx _ | EditManualStart idx _
  | EditManualEnd idx _ | EditDays idx _ =>
      match phases data !! idx with
      | Some p => set_phase idx (editPhase e data p) data
      | None => data
      end
  | EditDelete idx =>
      match phases data !! idx with
      | Some p =>
          let deletedId := p_id p in
          let rest := delete idx (phases data) in
          if bool_decide (deletedId = anchorPhaseId data) then
            set_anchorPhaseId
              (match rest with p0 :: _ => p_id p0 | [] => EmptyString end)
              (set_phases rest data)
          else set_phases rest data
      | None => data
      end
  | EditReorder fromIdx toIdx =>
      if bool_decide (fromIdx = toIdx) then data
      else
        match phases data !! fromIdx with
        | Some movedItem =>
            let rest := delete fromIdx (phases data) in
            set_phases (take toIdx rest ++ movedItem :: drop toIdx rest) data
        | None => data
        end
  | EditAddPhase now =>
      set_phases
        (phases data ++ [mkPhase now "New Phase" 5 false NoStr NoStr]) data
  | EditAnchorPhase value => set_anchorPhaseId value data
  | EditAnchorType value => set_anchorType value data
  | EditAnchorDate value => set_anchorDate value data
  | EditSortToggle => set_sortOrder (toggleSort (sortOrder data)) data
  | EditRender => snd (calculateSchedule hol data)
  | EditGantt drag deltaDays =>
      if deltaDays =? 0 then data
      else snd (ganttChangeData hol drag deltaDays data)
  end.

(** ** Counting working days *)

(** Number of working days among the [k] days [a], [a + 1], ... *)
Fixpoint countWorking (hol : list Z) (a : Z) (k : nat) : Z :=
  match k with
  | O => 0
  | S k' =>
      (if isWorkingDay hol (Day a) then 1 else 0) + countWorking hol (a + 1) k'
  end.

(** Number of working days strictly between day [a] and day [b]. *)
Definition workingDaysBetween (hol : list Z) (a b : Z) : Z :=
  countWorking hol (a + 1) (Z.to_nat (b - a - 1)).

(** Number of working days among the [k] days that follow [d] in direction
    [dir] (1 or -1). *)
Fixpoint countDir (hol : list Z) (dir d : Z) (k : nat) : Z :=
  match k with
  | O => 0
  | S k' =>
      (if isWorkingDay hol (Day (d + dir)) then 1 else 0)
      + countDir hol dir (d + dir) k'
  end.

(** The two business-day loops share this body, up to the direction. *)
Definition stepBody (hol : list Z) (dir : Z) (st : JsDate * Z) : JsDate * Z :=
  let '(date, daysLeft) := st in
  let date := shiftDate date dir in
  if isWorkingDay hol date then (date, daysLeft - 1) else (date, daysLeft).

(** ** The schedule as lists

    The same computation without the array: the items of the phases before
    the anchor, nearest first, and of the phases after it. *)

(** The entry [processParallel] builds for a parallel phase. *)
Definition parallelItem (hol : list Z) (data : TimelineData) (p : Phase)
    : ResultItem :=
  let s := if truthy (manualStartDate p) then newDate (manualStartDate p)
           else newDate (anchorDate data) in
  let e := if truthy (manualEndDate p) then newDate (manualEndDate p)
           else addBusinessDays hol s (days p - 1) in
  spread p (getDaysDiff s e) s e.

Definition precedingItem (hol : list Z) (p : Phase) (nextRefDate : JsDate)
    : ResultItem :=
  let end_ := subBusinessDays hol nextRefDate 1 in
  let start := subBusinessDays hol end_ (Z.max 0 (days p - 1)) in
  spread p (Num (days p)) start end_.

Definition succeedingItem (hol : list Z) (p : Phase) (prevRefDate : JsDate)
    : ResultItem :=
  let start := addBusinessDays hol prevRefDate 1 in
  let end_ := addBusinessDays hol start (Z.max 0 (days p - 1)) in
  spread p (Num (days p)) start end_.

Definition anchorItem (hol : list Z) (data : TimelineData) (p : Phase)
    : ResultItem :=
  spread p (Num (days p)) (fst (anchorSpan hol data p))
    (snd (anchorSpan hol data p)).

Fixpoint backChain (hol : list Z) (data : TimelineData) (ref : JsDate)
    (ps : list Phase) : list ResultItem :=
  match ps with
  | [] => []
  | p :: ps' =>
      if isParallel p then parallelItem hol data p :: backChain hol data ref ps'
      else
        let it := precedingItem hol p ref in
        it :: backChain hol data (startDate it) ps'
  end.

Fixpoint forwardChain (hol : list Z) (data : TimelineData) (ref : JsDate)
    (ps : list Phase) : list ResultItem :=
  match ps with
  | [] => []
  | p :: ps' =>
      if isParallel p
      then parallelItem hol data p :: forwardChain hol data ref ps'
      else
        let it := succeedingItem hol p ref in
        it :: forwardChain hol data (endDate it) ps'
  end.

Definition scheduleList (hol : list Z) (data : TimelineData) (a : nat)
    (anchorPhase : Phase) : list ResultItem :=
  reverse (backChain hol data (fst (anchorSpan hol data anchorPhase))
             (reverse (take a (phases data))))
  ++ anchorItem hol data anchorPhase
     :: forwardChain hol data (snd (anchorSpan hol data anchorPhase))
          (drop (S a) (phases data)).

(** A timeline on which the engine has nothing to repair. *)
Definition anchorSettled (d : TimelineData) : bool :=
  negb (truthy (anchorDate d)) || (length (phases d) =? 0)%nat
  || bool_decide (is_Some (findAnchorIndex d)).

(** ** Statements under test

    Readings of the specification that are compared with the code below. *)

(** "An empty phase list yields an empty result." *)
Definition emptyListGivesEmptyResult (hol : list Z) (data : TimelineData)
    : Prop :=
  phases data = [] → fst (calculateSchedule hol data) = Some [].

(** "A stale anchor id is repointed to the first phase, and the result is the
    one for that anchor." *)
Definition staleAnchorRepaired (hol : list Z) (data : TimelineData) : Prop :=
  phases data ≠ [] → findAnchorIndex data = None →
  ∃ p0, head (phases data) = Some p0 ∧
        fst (calculateSchedule hol data)
        = fst (calculateSchedule hol (set_anchorPhaseId (p_id p0) data)) ∧
        anchorPhaseId (snd (calculateSchedule hol data)) = p_id p0.

(** "Adding [n] working days and subtracting them again gives the start, and
    [n] working days lie strictly between the two ends." *)
Definition roundTripStrictlyBetween (hol : list Z) (d n : Z) : Prop :=
  subBusinessDays hol (addBusinessDays hol (Day d) n) n = Day d ∧
  ∃ e, addBusinessDays hol (Day d) n = Day e ∧ workingDaysBetween hol d e = n.

(** "A parallel phase gets its span from its manual dates, the anchor date
    standing in for a missing one, and its days from that span." *)
Definition parallelSpanDefaultsToAnchor (hol : list Z) (data : TimelineData)
    : Prop :=
  ∀ i p rs,
    fst (calculateSchedule hol data) = Some rs →
    phases data !! i = Some p → isParallel p = true →
    ∃ r, rs !! i = Some r ∧
         startDate r
         = newDate (orElse (manualStartDate p) (anchorDate data)) ∧
         endDate r = newDate (orElse (manualEndDate p) (anchorDate data)) ∧
         r_days r = getDaysDiff (startDate r) (endDate r).

(** Sequential phases and their entries. *)
Definition seqPhase (p : Phase) : Prop := isParallel p = false.
Definition seqItem (r : ResultItem) : Prop := r_isParallel r = false.

#[global] Instance seqPhase_dec p : Decision (seqPhase p).
Proof. unfold seqPhase. apply _. Defined.
#[global] Instance seqItem_dec r : Decision (seqItem r).
Proof. unfold seqItem. apply _. Defined.

(** A span that starts and ends on working days, in this order. *)
Definition spanOk (hol : list Z) (r : ResultItem) : Prop :=
  ∃ s e, startDate r = Day s ∧ endDate r = Day e ∧ s ≤ e ∧
         isWorkingDay hol (Day s) = true ∧ isWorkingDay hol (Day e) = true.

(** [b] starts after [a] ends, with no working day in between. *)
Definition adjacent (hol : list Z) (a b : ResultItem) : Prop :=
  ∃ ea sb, endDate a = Day ea ∧ startDate b = Day sb ∧ ea < sb ∧
           workingDaysBetween hol ea sb = 0.

(** Every span is in order and each one is adjacent to the next. *)
Fixpoint contiguousChain (hol : list Z) (rs : list ResultItem) : Prop :=
  match rs with
  | [] => True
  | a :: tl =>
      spanOk hol a
      ∧ match tl with [] => True | b :: _ => adjacent hol a b end
      ∧ contiguousChain hol tl
  end.

(** What every entry keeps of its phase, and what the entry of a parallel
    phase off the anchor is. *)
Definition entryOf (hol : list Z) (d : TimelineData) (p : Phase)
    (r : ResultItem) : Prop :=
  r_id r = p_id p ∧ r_isParallel r = isParallel p ∧
  (isParallel p = true → r = parallelItem hol d p).

(** Every timeline of the state is one the engine has nothing to repair
    on: the state as any render leaves it. *)
Definition settled (s : AppState) : bool :=
  forallb (λ t, anchorSettled (data t)) (timelines s).

(** Every phase with id [x] is in parallel mode. *)
Definition parallelById (x : string) (d : TimelineData) : Prop :=
  Forall (λ q, p_id q = x → isParallel q = true) (phases d).

(** The edits that are aimed at the mode of the phase with id [x]: the
    parallel checkbox of a row with that id, and the creation of a phase
    under that id (ids are not reused, so this stands for no edit at all). *)
Definition interferes (x : string) (e : Edit) (d : TimelineData) : Prop :=
  match e with
  | EditParallel idx _ => ∃ q, phases d !! idx = Some q ∧ p_id q = x
  | EditAddPhase now => now = x
  | _ => False
  end.

Fixpoint applyEdits (hol : list Z) (es : list Edit) (d : TimelineData)
    : TimelineData :=
  match es with
  | [] => d
  | e :: es' => applyEdits hol es' (applyEdit hol e d)
  end.

(** No edit of the sequence interferes with [x], each taken on the data it
    is applied to. *)
Fixpoint quiet (hol : list Z) (x : string) (es : list Edit)
    (d : TimelineData) : Prop :=
  match es with
  | [] => True
  | e :: es' => ¬ interferes x e d ∧ quiet hol x es' (applyEdit hol e d)
  end.

(** ** A sample state

    Three chained phases A, B and C, anchored on the end of C at Friday
    2024-01-12, and a second timeline. *)
Definition sampleData : TimelineData :=
  mkData (Ymd 19734) "3" AnchorEnd Asc
    [mkPhase "1" "A" 3 false NoStr NoStr;
     mkPhase "2" "B" 3 false NoStr NoStr;
     mkPhase "3" "C" 5 false NoStr NoStr].

Definition sampleState : AppState :=
  mkState "t1" []
    [mkTimeline "t1" "Sprint 1" sampleData;
     mkTimeline "t2" "Sprint 2"
       (mkData (Ymd 19750) "1" AnchorStart Desc
          [mkPhase "1" "X" 2 false NoStr NoStr])].

Definition sampleDom : Dom := mkDom true true true.

(** The conditions and the stepping of the four loops, named. *)
Definition stepCond (st : JsDate * Z) : bool := snd st >? 0.
Definition seekCond (hol : list Z) (d : JsDate) : bool :=
  negb (isWorkingDay hol d).
Definition seekBody (dir : Z) (d : JsDate) : JsDate := shiftDate d dir.

(** ** Further notions used in the properties below *)

(** Number of working days from day [a] to day [b], both included. *)
Definition workingDaysIn (hol : list Z) (a b : Z) : Z :=
  countWorking hol a (Z.to_nat (b - a + 1)).


(** The holiday list moved by [c] days. *)
Definition shiftHolidays (c : Z) (hol : list Z) : list Z :=
  (λ h, h + c) <$> hol.


(** An entry carries the fields of its phase. *)
Definition keepsFields (p : Phase) (r : ResultItem) : Prop :=
  r_id r = p_id p ∧ r_name r = p_name p ∧ r_isParallel r = isParallel p ∧
  r_manualStartDate r = manualStartDate p ∧
  r_manualEndDate r = manualEndDate p.

(** The span of an entry. *)
Definition spanOf (r : ResultItem) : JsDate * JsDate :=
  (startDate r, endDate r).

(** Two phases that agree on what the engine reads off a phase away from
    the anchor: the mode; for a sequential phase the effective duration; for
    a parallel phase the manual dates, and the days when there is no end
    date. *)
Definition sameScheduling (p p' : Phase) : Prop :=
  isParallel p = isParallel p' ∧
  (isParallel p = false → Z.max 0 (days p - 1) = Z.max 0 (days p' - 1)) ∧
  (isParallel p = true →
   manualStartDate p = manualStartDate p' ∧
   manualEndDate p = manualEndDate p' ∧
   (truthy (manualEndDate p) = false → days p = days p')).


(** The entry [r] of phase [p] is a span of valid dates that holds exactly
    [max(1, days)] working days. *)
Definition sized (hol : list Z) (p : Phase) (r : ResultItem) : Prop :=
  ∃ s e, startDate r = Day s ∧ endDate r = Day e ∧ s ≤ e ∧
         workingDaysIn hol s e = Z.max 1 (days p).


(** ** The drag gesture

    [ganttDragState] between mouse-down and mouse-up: the [active] flag and
    the drag context read by [applyGanttChange]. *)
Record DragSession : Type := mkSession {
  active : bool;
  ctx : GanttDragState
}.

#[global] Instance DragType_eq_dec : EqDecision DragType.
Proof. solve_decision. Defined.
#[global] Instance GanttDragState_eq_dec : EqDecision GanttDragState.
Proof. solve_decision. Defined.
#[global] Instance DragSession_eq_dec : EqDecision DragSession.
Proof. solve_decision. Defined.

(** [startDrag(e, type, bar, phaseId, timelineId)]: [initialDays] is written
    only when the timeline and the phase are found, and keeps the value of
    the previous drag otherwise. *)
Definition startDrag (type : DragType) (phaseId timelineId : string)
    (g : DragSession) (s : AppState) : DragSession :=
  let g := mkSession true (mkDrag type phaseId timelineId (initialDays (ctx g))) in
  match list_find (λ t, t_id t = timelineId) (timelines s) with
  | None => g
  | Some (_, timeline) =>
      match list_find (λ p, p_id p = phaseId) (phases (data timeline)) with
      | None => g
      | Some (_, phase) =>
          mkSession true (mkDrag type phaseId timelineId (days phase))
      end
  end.

(** [onMouseUp]: [deltaDays] is [Math.round(deltaX / pxPerDay)], the pointer
    travel in whole days.  A [TypeError] out of [applyGanttChange] leaves the
    handler before [active] is cleared. *)
Definition onMouseUp (dom : Dom) (deltaDays : Z) (g : DragSession)
    (s : AppState) : DragSession * AppState :=
  if negb (active g) then (g, s)
  else
    let '(exit, s) := applyGanttChange dom (ctx g) deltaDays s in
    match exit with
    | ExitTypeError => (g, s)
    | _ => (mkSession false (ctx g), s)
    end.


(** ** Timelines

    The click handler of the delete-timeline button, up to its writes to
    [appState]; [confirmed] is the answer to the [confirm] dialog.  The
    first component tells whether the handler raised: reading [.id] of the
    first remaining timeline is a [TypeError] when none remains, and by then
    the emptied list is already stored. *)
Definition deleteTimeline (confirmed : bool) (s : AppState)
    : bool * AppState :=
  if (length (timelines s) <=? 1)%nat then (false, s)
  else if negb confirmed then (false, s)
  else
    let s :=
      set_timelines
        (filter (λ t, t_id t ≠ activeTimelineId s) (timelines s)) s in
    match timelines s with
    | [] => (true, s)
    | t0 :: _ => (false, mkState (t_id t0) (globalHolidays s) (timelines s))
    end.


(** Two holiday lists that differ only in order, in repetitions, and in
    days that fall on a weekend. *)
Definition coveredBy (hol hol' : list Z) : bool :=
  forallb (λ h, includes hol' (Ymd h) || isWeekend (Day h)) hol.
Definition sameCalendar (hol hol' : list Z) : bool :=
  coveredBy hol hol' && coveredBy hol' hol.


(** ** The Gantt chart

    The geometry of [renderGantt]: the date range of the canvas and the
    position of the bars. *)

(** [a < b] on two [Date]s: compares the time values, false when one is
    [NaN]. *)
Definition dateLt (a b : JsDate) : bool :=
  match getTime a, getTime b with
  | Num x, Num y => x <? y
  | _, _ => false
  end.

(** [Math.floor((b - a) / (1000 * 60 * 60 * 24))] *)
Definition wholeDays (a b : JsDate) : JsNum :=
  match getTime b, getTime a with
  | Num t2, Num t1 => Num ((t2 - t1) / msPerDay)
  | _, _ => NaN
  end.

Definition numMul (x : JsNum) (k : Z) : JsNum :=
  match x with
  | Num z => Num (z * k)
  | NaN => NaN
  end.

(** The groups of the chart: the timelines whose schedule is neither [null]
    nor empty, each with its schedule.  [info] is the timeline object, as
    the engine leaves it. *)
Definition allSchedules (s : AppState) : list (Timeline * list ResultItem) :=
  omap (λ t, match fst (calculateSchedule (globalHolidays s) (data t)) with
             | Some (r :: rs) => Some (engineOn (globalHolidays s) t, r :: rs)
             | _ => None
             end) (timelines s).

(** One step of the search for the date range. *)
Definition widen (acc : JsDate * JsDate) (p : ResultItem) : JsDate * JsDate :=
  let '(minDate, maxDate) := acc in
  (if dateLt (startDate p) minDate then startDate p else minDate,
   if dateLt maxDate (endDate p) then endDate p else maxDate).

(** [minDate] and [maxDate] with their buffer of three days; [None] when
    there is no group, where the chart is replaced by a notice. *)
Definition ganttRange (all : list (Timeline * list ResultItem))
    : option (JsDate * JsDate) :=
  match all with
  | (_, first :: _) :: _ =>
      let '(minDate, maxDate) :=
        foldl (λ acc group, foldl widen acc (snd group))
          (startDate first, endDate first) all in
      Some (shiftDate minDate (-3), shiftDate maxDate 3)
  | _ => None
  end.

Definition PX_PER_DAY : Z := 30.

Definition totalWidth (range : JsDate * JsDate) : JsNum :=
  let totalDays :=
    match wholeDays (fst range) (snd range) with
    | Num n => Num (n + 1)
    | NaN => NaN
    end in
  numMul totalDays PX_PER_DAY.

Definition barLeft (minDate : JsDate) (item : ResultItem) : JsNum :=
  let startDiff := wholeDays minDate (startDate item) in
  numMul startDiff PX_PER_DAY.

Definition barWidth (item : ResultItem) : JsNum :=
  let durationDays := getDaysDiff (startDate item) (endDate item) in
  numMul durationDays PX_PER_DAY.


(** The span of [r'] starts and ends no later than the span of [r]. *)
Definition noLater (r' r : ResultItem) : Prop :=
  ∃ s e s' e', startDate r = Day s ∧ endDate r = Day e ∧
               startDate r' = Day s' ∧ endDate r' = Day e' ∧
               s' ≤ s ∧ e' ≤ e.


(** ** The rows of the phase list

    [renderPhases] shows for every phase a start and an end date.  The
    [dateMap] object is an association list with the latest write first;
    ids are taken not to be names of members of [Object.prototype]. *)
Definition dateMapOf (ps : list Phase) (schedule : list ResultItem)
    : list (string * (JsDate * JsDate)) :=
  foldl (λ dateMap ps, (p_id ps.1, (startDate ps.2, endDate ps.2)) :: dateMap)
    [] (zip ps schedule).

Definition dateMapGet (dateMap : list (string * (JsDate * JsDate)))
    (id : string) : option (JsDate * JsDate) :=
  (λ kv, snd (snd kv)) <$> list_find (λ kv, fst kv = id) dateMap.

(** [startDateVal] and [endDateVal] of the row of [phase]. *)
Definition rowDates (dateMap : list (string * (JsDate * JsDate)))
    (phase : Phase) : DateStr * DateStr :=
  let startDateVal := orElse (manualStartDate phase) NoStr in
  let endDateVal := orElse (manualEndDate phase) NoStr in
  if negb (isParallel phase) then
    match dateMapGet dateMap (p_id phase) with
    | Some sDates => (iso (fst sDates), iso (snd sDates))
    | None => (startDateVal, endDateVal)
    end
  else (startDateVal, endDateVal).

(** The rows of the active timeline's list, given its schedule. *)
Definition phaseRows (hol : list Z) (data : TimelineData)
    : list (DateStr * DateStr) :=
  let '(schedule, data) := calculateSchedule hol data in
  let dateMap :=
    match schedule with
    | Some schedule => dateMapOf (phases data) schedule
    | None => []
    end in
  rowDates dateMap <$> phases data.


(** ** A timeline moved in time

    Every date of a timeline, and of a schedule, moved by [c] days. *)
Definition shiftStr (c : Z) (s : DateStr) : DateStr :=
  match s with
  | Ymd d => Ymd (d + c)
  | _ => s
  end.

Definition shiftPhase (c : Z) (p : Phase) : Phase :=
  mkPhase (p_id p) (p_name p) (days p) (isParallel p)
    (shiftStr c (manualStartDate p)) (shiftStr c (manualEndDate p)).

Definition shiftData (c : Z) (d : TimelineData) : TimelineData :=
  mkData (shiftStr c (anchorDate d)) (anchorPhaseId d) (anchorType d)
    (sortOrder d) (shiftPhase c <$> phases d).

Definition shiftItem (c : Z) (r : ResultItem) : ResultItem :=
  mkItem (r_id r) (r_name r) (r_days r) (r_isParallel r)
    (shiftStr c (r_manualStartDate r)) (shiftStr c (r_manualEndDate r))
    (shiftDate (startDate r) c) (shiftDate (endDate r) c).


(** A timeline in which the parallel phase B has a start date and no end
    date, as after its end input has been cleared; the engine gives B the
    span of its three days from the start date. *)
Definition openEndData : TimelineData :=
  mkData (Ymd 19734) "3" AnchorEnd Asc
    [mkPhase "1" "A" 3 false NoStr NoStr;
     mkPhase "2" "B" 3 true (Ymd 19716) NoStr;
     mkPhase "3" "C" 5 false NoStr NoStr].

Definition openEndState : AppState :=
  mkState "t1" [] [mkTimeline "t1" "Sprint 1" openEndData].

(** * Proofs *)

(** ** The loop combinator *)

Section While.
Context {St : Type} (cond : St → bool) (body : St → St).

Lemma while_exit fuel s r :
  while fuel cond body s = Some r → cond r = false.
Proof.
  revert s. induction fuel as [|fuel IH]; intros s; simpl;
    destruct (cond s) eqn:E; try discriminate.
  - intros [= <-]. exact E.
  - apply IH.
  - intros [= <-]. exact E.
Qed.

Lemma while_false fuel s : cond s = false → while fuel cond body s = Some s.
Proof. intros E. destruct fuel; simpl; rewrite E; reflexivity. Qed.

Lemma while_more fuel k s r :
  while fuel cond body s = Some r → while (fuel + k) cond body s = Some r.
Proof.
  revert s. induction fuel as [|fuel IH]; intros s; simpl.
  - destruct (cond s) eqn:E; [discriminate|]. intros [= <-].
    destruct k; simpl; rewrite E; reflexivity.
  - destruct (cond s); [apply IH | trivial].
Qed.

Lemma while_enough fuel fuel' s :
  (fuel ≤ fuel')%nat → is_Some (while fuel cond body s) →
  while fuel' cond body s = while fuel cond body s.
Proof.
  intros Hle [r Hr]. rewrite Hr.
  replace fuel' with (fuel + (fuel' - fuel))%nat by lia.
  apply while_more, Hr.
Qed.
End While.

(** ** The calendar *)

Lemma includes_In hol d : includes hol (Ymd d) = true ↔ d ∈ hol.
Proof.
  unfold includes. rewrite existsb_exists. split.
  - intros (x & Hx & E). apply Z.eqb_eq in E. subst. now apply list_elem_of_In.
  - intros H. exists d. split; [now apply list_elem_of_In | apply Z.eqb_refl].
Qed.

Lemma isWorkingDay_invalid hol : isWorkingDay hol InvalidDate = true.
Proof. reflexivity. Qed.

Lemma isWorkingDay_Day hol d :
  isWorkingDay hol (Day d) = true ↔
  (d + 4) mod 7 ≠ 0 ∧ (d + 4) mod 7 ≠ 6 ∧ d ∉ hol.
Proof.
  pose proof (includes_In hol d) as Hin.
  unfold isWorkingDay, isWeekend, isHoliday, normalizeDateStr.
  change (iso (Day d)) with (Ymd d).
  destruct (includes hol (Ymd d)); simpl;
    rewrite ?andb_true_r, ?andb_false_r, ?negb_true_iff, ?orb_false_iff,
      ?Z.eqb_neq; intuition congruence.
Qed.

Lemma monday_working hol d :
  d mod 7 = 4 → d ∉ hol → isWorkingDay hol (Day d) = true.
Proof.
  intros Hm Hh. apply isWorkingDay_Day. repeat split; trivial;
    Z.div_mod_to_equations; lia.
Qed.

(** Among [length hol + 1] Mondays one is not a holiday. *)
Lemma some_monday_free (hol : list Z) (f : nat → Z) :
  (∀ i j, f i = f j → i = j) →
  ∃ i, (i ≤ length hol)%nat ∧ f i ∉ hol.
Proof.
  intros Hinj.
  set (cs := f <$> seq 0 (S (length hol))).
  destruct (decide (Forall (λ c, c ∈ hol) cs)) as [Hall|Hex].
  - assert (NoDup cs) as Hnd.
    { apply NoDup_fmap_2; [intros i j; apply Hinj | apply NoDup_seq]. }
    assert (length cs ≤ length hol)%nat as Hlen.
    { apply submseteq_length, NoDup_submseteq; trivial.
      intros x Hx. rewrite Forall_forall in Hall. now apply Hall. }
    unfold cs in Hlen. rewrite length_fmap, length_seq in Hlen. lia.
  - apply not_Forall_Exists in Hex; [|intros x; apply _].
    apply Exists_exists in Hex as (c & Hc & Hnot).
    apply list_elem_of_fmap in Hc as (i & -> & Hi).
    apply elem_of_seq in Hi. exists i. split; [lia | exact Hnot].
Qed.

(** In either direction a working day is at most [gapBound hol] days away. *)
Lemma working_gap hol dir d :
  dir = 1 ∨ dir = -1 →
  ∃ j : nat, (0 < j ≤ gapBound hol)%nat ∧
             isWorkingDay hol (Day (d + dir * Z.of_nat j)) = true.
Proof.
  intros Hdir.
  set (j0 := (dir * (4 - d) - 1) mod 7 + 1).
  destruct (some_monday_free hol
              (λ i, d + dir * (j0 + 7 * Z.of_nat i))) as (i & Hi & Hfree).
  { intros i j E. destruct Hdir; subst dir; lia. }
  exists (Z.to_nat (j0 + 7 * Z.of_nat i)).
  assert (1 ≤ j0 ≤ 7) by (unfold j0; Z.div_mod_to_equations; lia).
  rewrite Z2Nat.id by lia. split.
  - unfold gapBound. lia.
  - apply monday_working; [|exact Hfree].
    unfold j0. destruct Hdir; subst dir; Z.div_mod_to_equations; lia.
Qed.

(** ** The business-day loops *)

Lemma countWorking_snoc hol a k :
  countWorking hol a (S k) =
  countWorking hol a k
  + (if isWorkingDay hol (Day (a + Z.of_nat k)) then 1 else 0).
Proof.
  revert a. induction k as [|k IH]; intros a.
  - simpl. rewrite !Z.add_0_r. destruct (isWorkingDay hol (Day a)); lia.
  - change (countWorking hol a (S (S k))) with
      ((if isWorkingDay hol (Day a) then 1 else 0)
       + countWorking hol (a + 1) (S k)).
    rewrite IH. simpl countWorking.
    replace (a + 1 + Z.of_nat k) with (a + Z.of_nat (S k)) by lia.
    apply Z.add_assoc.
Qed.

Lemma countWorking_app hol a j k :
  countWorking hol a (j + k) =
  countWorking hol a j + countWorking hol (a + Z.of_nat j) k.
Proof.
  revert a. induction j as [|j IH]; intros a.
  - simpl. now rewrite Z.add_0_r.
  - replace (a + Z.of_nat (S j)) with (a + 1 + Z.of_nat j) by lia.
    simpl. rewrite IH. apply Z.add_assoc.
Qed.

Lemma countWorking_bounds hol a k : 0 ≤ countWorking hol a k ≤ Z.of_nat k.
Proof.
  revert a. induction k as [|k IH]; intros a; simpl countWorking; [lia|].
  specialize (IH (a + 1)). destruct (isWorkingDay hol (Day a)); lia.
Qed.

Lemma countWorking_zero hol a k :
  countWorking hol a k = 0 ↔
  ∀ x, a ≤ x < a + Z.of_nat k → isWorkingDay hol (Day x) = false.
Proof.
  revert a. induction k as [|k IH]; intros a; simpl countWorking.
  - split; [intros _ x Hx; lia | trivial].
  - pose proof (countWorking_bounds hol (a + 1) k) as Hb. split.
    + intros H x Hx. destruct (isWorkingDay hol (Day a)) eqn:E; [lia|].
      destruct (decide (x = a)) as [->|Hne]; [exact E|].
      apply (proj1 (IH (a + 1))); lia.
    + intros H. rewrite (H a) by lia.
      rewrite (proj2 (IH (a + 1))); [lia|]. intros x Hx. apply H. lia.
Qed.

Lemma countDir_forward hol d k :
  countDir hol 1 d k = countWorking hol (d + 1) k.
Proof. revert d. induction k as [|k IH]; intros d; simpl; [|rewrite IH]; trivial. Qed.

Lemma countDir_backward hol d k :
  countDir hol (-1) d k = countWorking hol (d - Z.of_nat k) k.
Proof.
  revert d. induction k as [|k IH]; intros d; [reflexivity|].
  rewrite countWorking_snoc. simpl countDir. rewrite IH.
  replace (d + -1 - Z.of_nat k) with (d - Z.of_nat (S k)) by lia.
  replace (d - Z.of_nat (S k) + Z.of_nat k) with (d + -1) by lia.
  apply Z.add_comm.
Qed.

Section Step.
Variables (hol : list Z) (dir : Z).
Hypothesis Hdir : dir = 1 ∨ dir = -1.

Lemma step_partial fuel d n r m :
  while fuel stepCond (stepBody hol dir) (Day d, n) = Some (r, m) →
  (n ≤ 0 ∧ r = Day d) ∨
  (0 < n ∧ ∃ k : nat, (0 < k)%nat ∧ r = Day (d + dir * Z.of_nat k) ∧
     isWorkingDay hol r = true ∧ countDir hol dir d k = n).
Proof.
  revert d n. induction fuel as [|fuel IH]; intros d n; simpl;
    unfold stepCond at 1; simpl; destruct (Z.gtb_spec n 0) as [Hn|Hn];
    try discriminate; try (intros [= <- <-]; left; split; [lia|reflexivity]).
  destruct (isWorkingDay hol (Day (d + dir))) eqn:Ew; intros Hw;
    apply IH in Hw as [[Hle ->]|[Hpos (k & Hk & -> & Hwr & Hc)]]; right;
    (split; [lia|]).
  - exists 1%nat. simpl. rewrite Ew, Z.mul_1_r.
    repeat split; trivial; lia.
  - exists (S k). simpl countDir. rewrite Ew, Hc.
    replace (d + dir * Z.of_nat (S k)) with (d + dir + dir * Z.of_nat k)
      by lia.
    repeat split; trivial; lia.
  - lia.
  - exists (S k). simpl countDir. rewrite Ew, Hc.
    replace (d + dir * Z.of_nat (S k)) with (d + dir + dir * Z.of_nat k)
      by lia.
    repeat split; trivial; lia.
Qed.

Lemma step_total fuel d n :
  n ≤ 0 ∨
  (∃ j : nat, (0 < j ≤ gapBound hol)%nat ∧
     isWorkingDay hol (Day (d + dir * Z.of_nat j)) = true ∧
     (Z.to_nat (n - 1) * gapBound hol + j ≤ fuel)%nat) →
  is_Some (while fuel stepCond (stepBody hol dir) (Day d, n)).
Proof.
  revert d n. induction fuel as [|fuel IH]; intros d n H; simpl;
    unfold stepCond at 1; simpl; destruct (Z.gtb_spec n 0) as [Hn|Hn]; eauto;
    destruct H as [H|(j & Hj & Hw & Hf)]; try lia.
  destruct (isWorkingDay hol (Day (d + dir))) eqn:Ew; apply IH.
  - destruct (decide (n - 1 ≤ 0)) as [|Hn1]; [now left|right].
    destruct (working_gap hol dir (d + dir) Hdir) as (j' & Hj' & Hw').
    exists j'. repeat split; try tauto.
    replace (Z.to_nat (n - 1)) with (S (Z.to_nat (n - 1 - 1))) in Hf by lia.
    simpl in Hf. lia.
  - right. destruct j as [|j]; [lia|]. destruct j as [|j].
    { rewrite Z.mul_1_r in Hw. congruence. }
    exists (S j). repeat split; try lia.
    rewrite <- Hw. f_equal. f_equal. lia.
Qed.

Lemma step_invalid fuel n :
  (Z.to_nat n ≤ fuel)%nat →
  ∃ m, while fuel stepCond (stepBody hol dir) (InvalidDate, n)
       = Some (InvalidDate, m).
Proof.
  revert n. induction fuel as [|fuel IH]; intros n H; simpl;
    unfold stepCond at 1; simpl; destruct (Z.gtb_spec n 0) as [Hn|Hn]; eauto;
    try lia.
  apply IH. lia.
Qed.

(** The loop started with [stepFuel hol n] ends by its condition. *)
Lemma step_fuel date n :
  is_Some (while (stepFuel hol n) stepCond (stepBody hol dir) (date, n)).
Proof.
  destruct date as [d|].
  - apply step_total. destruct (decide (n ≤ 0)) as [|Hn]; [now left|right].
    destruct (working_gap hol dir d Hdir) as (j & Hj & Hw).
    exists j. repeat split; try tauto. unfold stepFuel.
    replace (Z.to_nat n) with (S (Z.to_nat (n - 1))) by lia. simpl. lia.
  - destruct (step_invalid (stepFuel hol n) n) as [m Hm]; [|eauto].
    unfold stepFuel, gapBound. nia.
Qed.

(** Searching for a working day: the two [ensureWorkingDay] loops. *)

Lemma seek_partial fuel d r :
  while fuel (seekCond hol) (seekBody dir) (Day d) = Some r →
  ∃ k : nat, r = Day (d + dir * Z.of_nat k) ∧ isWorkingDay hol r = true ∧
             countDir hol dir (d - dir) k = 0.
Proof.
  revert d. induction fuel as [|fuel IH]; intros d; simpl;
    unfold seekCond at 1, seekBody; destruct (isWorkingDay hol (Day d)) eqn:Ew; simpl;
    try discriminate;
    try (intros [= <-]; exists 0%nat; rewrite Z.mul_0_r, Z.add_0_r; auto).
  intros Hw. apply IH in Hw as (k & -> & Hwr & Hc). exists (S k).
  simpl countDir. replace (d - dir + dir) with d by lia.
  rewrite Ew. replace (d + dir - dir) with d in Hc by lia. rewrite Hc.
  replace (d + dir * Z.of_nat (S k)) with (d + dir + dir * Z.of_nat k) by lia.
  auto.
Qed.

Lemma seek_total fuel d :
  (∃ j : nat, (j ≤ fuel)%nat ∧
     isWorkingDay hol (Day (d + dir * Z.of_nat j)) = true) →
  is_Some (while fuel (seekCond hol) (seekBody dir) (Day d)).
Proof.
  revert d. induction fuel as [|fuel IH]; intros d (j & Hj & Hw); simpl;
    unfold seekCond at 1, seekBody; destruct (isWorkingDay hol (Day d)) eqn:Ew; simpl;
    eauto.
  - replace j with 0%nat in Hw by lia.
    rewrite Z.mul_0_r, Z.add_0_r in Hw. congruence.
  - apply IH. destruct j as [|j].
    { rewrite Z.mul_0_r, Z.add_0_r in Hw. congruence. }
    exists j. split; [lia|]. rewrite <- Hw. f_equal. f_equal. lia.
Qed.

Lemma seek_fuel date :
  is_Some (while (gapBound hol) (seekCond hol) (seekBody dir) date).
Proof.
  destruct date as [d|].
  - apply seek_total. destruct (working_gap hol dir d Hdir) as (j & Hj & Hw).
    exists j. split; [lia | exact Hw].
  - rewrite while_false; eauto.
Qed.
End Step.

(** ** What the four date functions compute *)

Lemma back_dir : (-1 = 1 ∨ -1 = -1). Proof. now right. Qed.
Lemma fwd_dir : (1 = 1 ∨ 1 = -1). Proof. now left. Qed.

Lemma subBusinessDays_loop_enough hol date n fuel :
  (stepFuel hol n ≤ fuel)%nat →
  subBusinessDays_loop fuel hol date n = Some (subBusinessDays hol date n).
Proof.
  intros Hle. unfold subBusinessDays, subBusinessDays_loop.
  change (subBusinessDays_body hol) with (stepBody hol (-1)).
  change (λ st : JsDate * Z, snd st >? 0) with stepCond.
  pose proof (step_fuel hol (-1) back_dir date n) as Hs.
  rewrite (while_enough _ _ _ _ _ Hle Hs). destruct Hs as [r ->]. reflexivity.
Qed.

Lemma addBusinessDays_loop_enough hol date n fuel :
  (stepFuel hol n ≤ fuel)%nat →
  addBusinessDays_loop fuel hol date n = Some (addBusinessDays hol date n).
Proof.
  intros Hle. unfold addBusinessDays, addBusinessDays_loop.
  change (addBusinessDays_body hol) with (stepBody hol 1).
  change (λ st : JsDate * Z, snd st >? 0) with stepCond.
  pose proof (step_fuel hol 1 fwd_dir date n) as Hs.
  rewrite (while_enough _ _ _ _ _ Hle Hs). destruct Hs as [r ->]. reflexivity.
Qed.

Lemma ensureWorkingDayBackward_loop_enough hol date fuel :
  (gapBound hol ≤ fuel)%nat →
  ensureWorkingDayBackward_loop fuel hol date
  = Some (ensureWorkingDayBackward hol date).
Proof.
  intros Hle. unfold ensureWorkingDayBackward, ensureWorkingDayBackward_loop.
  change (while ?f _ _ date) with (while f (seekCond hol) (seekBody (-1)) date).
  pose proof (seek_fuel hol (-1) back_dir date) as Hs.
  rewrite (while_enough _ _ _ _ _ Hle Hs). destruct Hs as [r ->]. reflexivity.
Qed.

Lemma ensureWorkingDayForward_loop_enough hol date fuel :
  (gapBound hol ≤ fuel)%nat →
  ensureWorkingDayForward_loop fuel hol date
  = Some (ensureWorkingDayForward hol date).
Proof.
  intros Hle. unfold ensureWorkingDayForward, ensureWorkingDayForward_loop.
  change (while ?f _ _ date) with (while f (seekCond hol) (seekBody 1) date).
  pose proof (seek_fuel hol 1 fwd_dir date) as Hs.
  rewrite (while_enough _ _ _ _ _ Hle Hs). destruct Hs as [r ->]. reflexivity.
Qed.

Lemma subBusinessDays_nonpos hol date n :
  n ≤ 0 → subBusinessDays hol date n = date.
Proof.
  intros Hn. unfold subBusinessDays, subBusinessDays_loop.
  rewrite while_false; [reflexivity|]. simpl. lia.
Qed.

Lemma addBusinessDays_nonpos hol date n :
  n ≤ 0 → addBusinessDays hol date n = date.
Proof.
  intros Hn. unfold addBusinessDays, addBusinessDays_loop.
  rewrite while_false; [reflexivity|]. simpl. lia.
Qed.

Lemma subBusinessDays_pos hol d n :
  0 < n →
  ∃ e, subBusinessDays hol (Day d) n = Day e ∧ e < d ∧
       isWorkingDay hol (Day e) = true ∧
       countWorking hol e (Z.to_nat (d - e)) = n.
Proof.
  intros Hn. unfold subBusinessDays, subBusinessDays_loop.
  change (subBusinessDays_body hol) with (stepBody hol (-1)).
  change (λ st : JsDate * Z, snd st >? 0) with stepCond.
  destruct (step_fuel hol (-1) back_dir (Day d) n) as [[r m] Hr].
  rewrite Hr. simpl.
  apply step_partial in Hr as [[Hle _]|[_ (k & Hk & -> & Hw & Hc)]]; [lia|].
  exists (d + -1 * Z.of_nat k). repeat split; trivial; [lia|].
  rewrite countDir_backward in Hc. rewrite <- Hc. f_equal; lia.
Qed.

Lemma addBusinessDays_pos hol d n :
  0 < n →
  ∃ e, addBusinessDays hol (Day d) n = Day e ∧ d < e ∧
       isWorkingDay hol (Day e) = true ∧
       countWorking hol (d + 1) (Z.to_nat (e - d)) = n.
Proof.
  intros Hn. unfold addBusinessDays, addBusinessDays_loop.
  change (addBusinessDays_body hol) with (stepBody hol 1).
  change (λ st : JsDate * Z, snd st >? 0) with stepCond.
  destruct (step_fuel hol 1 fwd_dir (Day d) n) as [[r m] Hr].
  rewrite Hr. simpl.
  apply step_partial in Hr as [[Hle _]|[_ (k & Hk & -> & Hw & Hc)]]; [lia|].
  exists (d + 1 * Z.of_nat k). repeat split; trivial; [lia|].
  rewrite countDir_forward in Hc. rewrite <- Hc. f_equal; lia.
Qed.

Lemma ensureWorkingDayBackward_Day hol d :
  ∃ e, ensureWorkingDayBackward hol (Day d) = Day e ∧ e ≤ d ∧
       isWorkingDay hol (Day e) = true ∧
       countWorking hol (e + 1) (Z.to_nat (d - e)) = 0.
Proof.
  unfold ensureWorkingDayBackward, ensureWorkingDayBackward_loop.
  change (while ?f _ _ (Day d))
    with (while f (seekCond hol) (seekBody (-1)) (Day d)).
  destruct (seek_fuel hol (-1) back_dir (Day d)) as [r Hr]. rewrite Hr. simpl.
  apply seek_partial in Hr as (k & -> & Hw & Hc).
  exists (d + -1 * Z.of_nat k). repeat split; trivial; [lia|].
  rewrite countDir_backward in Hc. rewrite <- Hc. f_equal; lia.
Qed.

Lemma ensureWorkingDayForward_Day hol d :
  ∃ e, ensureWorkingDayForward hol (Day d) = Day e ∧ d ≤ e ∧
       isWorkingDay hol (Day e) = true ∧
       countWorking hol d (Z.to_nat (e - d)) = 0.
Proof.
  unfold ensureWorkingDayForward, ensureWorkingDayForward_loop.
  change (while ?f _ _ (Day d))
    with (while f (seekCond hol) (seekBody 1) (Day d)).
  destruct (seek_fuel hol 1 fwd_dir (Day d)) as [r Hr]. rewrite Hr. simpl.
  apply seek_partial in Hr as (k & -> & Hw & Hc).
  exists (d + 1 * Z.of_nat k). repeat split; trivial; [lia|].
  rewrite countDir_forward in Hc. rewrite <- Hc. f_equal; lia.
Qed.

Lemma countWorking_pos hol a k :
  isWorkingDay hol (Day a) = true → (0 < k)%nat → 1 ≤ countWorking hol a k.
Proof.
  intros Hw Hk. destruct k as [|k]; [lia|]. simpl. rewrite Hw.
  pose proof (countWorking_bounds hol (a + 1) k). lia.
Qed.

(** Stepping back over the days just stepped forward comes back to a
    working start. *)
Lemma sub_add_roundtrip hol d n :
  isWorkingDay hol (Day d) = true → 0 ≤ n →
  subBusinessDays hol (addBusinessDays hol (Day d) n) n = Day d.
Proof.
  intros Hw Hn. destruct (decide (n = 0)) as [->|Hne].
  { now rewrite addBusinessDays_nonpos, subBusinessDays_nonpos. }
  destruct (addBusinessDays_pos hol d n) as (e & -> & Hde & Hwe & Hce); [lia|].
  destruct (subBusinessDays_pos hol e n) as (e' & -> & He' & Hwe' & Hce'); [lia|].
  f_equal.
  assert (countWorking hol d (Z.to_nat (e - d)) = n) as Hcd.
  { replace (Z.to_nat (e - d)) with (S (Z.to_nat (e - d - 1))) in * by lia.
    rewrite countWorking_snoc in Hce. simpl. rewrite Hw.
    replace (d + 1 + Z.of_nat (Z.to_nat (e - d - 1))) with e in Hce by lia.
    rewrite Hwe in Hce. lia. }
  destruct (Z.lt_trichotomy e' d) as [Hlt|[Heq|Hgt]]; [|exact Heq|].
  - replace (Z.to_nat (e - e')) with (Z.to_nat (d - e') + Z.to_nat (e - d))%nat
      in Hce' by lia.
    rewrite countWorking_app in Hce'.
    replace (e' + Z.of_nat (Z.to_nat (d - e'))) with d in Hce' by lia.
    pose proof (countWorking_pos hol e' (Z.to_nat (d - e')) Hwe'). lia.
  - replace (Z.to_nat (e - d)) with (Z.to_nat (e' - d) + Z.to_nat (e - e'))%nat
      in Hcd by lia.
    rewrite countWorking_app in Hcd.
    replace (d + Z.of_nat (Z.to_nat (e' - d))) with e' in Hcd by lia.
    pose proof (countWorking_pos hol d (Z.to_nat (e' - d)) Hw). lia.
Qed.

(** ** The engine: retries and the array *)

Lemma findAnchorIndex_repointed d p0 ps :
  phases d = p0 :: ps →
  findAnchorIndex (set_anchorPhaseId (p_id p0) d) = Some 0%nat.
Proof.
  intros Hp. unfold findAnchorIndex. simpl. rewrite Hp. simpl.
  rewrite decide_True; reflexivity.
Qed.

(** Unfolding [calculateSchedule], one case per exit. *)
Lemma calculateSchedule_null hol d :
  truthy (anchorDate d) = false ∨ phases d = [] →
  calculateSchedule hol d = (None, d).
Proof.
  intros H. unfold calculateSchedule. simpl.
  destruct H as [->| ->]; simpl; rewrite ?orb_true_r; reflexivity.
Qed.

Lemma calculateSchedule_found hol d a :
  truthy (anchorDate d) = true → findAnchorIndex d = Some a →
  calculateSchedule hol d = (Some (scheduleFrom hol d a), d).
Proof.
  intros Ht Hf. unfold calculateSchedule. simpl. rewrite Ht, Hf. simpl.
  destruct (phases d) eqn:E; [|reflexivity].
  unfold findAnchorIndex in Hf. rewrite E in Hf. discriminate.
Qed.

Lemma calculateSchedule_repair hol d p0 ps :
  truthy (anchorDate d) = true → findAnchorIndex d = None →
  phases d = p0 :: ps →
  calculateSchedule hol d =
  (Some (scheduleFrom hol (set_anchorPhaseId (p_id p0) d) 0),
   set_anchorPhaseId (p_id p0) d).
Proof.
  intros Ht Hf Hp. unfold calculateSchedule. simpl.
  rewrite Ht, Hf, Hp. simpl.
  rewrite (findAnchorIndex_repointed d p0 ps Hp). reflexivity.
Qed.

(** One retry is all the self call ever needs. *)
Lemma calculateSchedule_retries hol d n :
  calculateSchedule_rec (S n) hol d = Some (calculateSchedule hol d).
Proof.
  unfold calculateSchedule. simpl.
  destruct (negb (truthy (anchorDate d)) || (length (phases d) =? 0)%nat)
    eqn:Eg; [reflexivity|].
  destruct (findAnchorIndex d) eqn:Ef; [reflexivity|].
  destruct (phases d) as [|p0 ps] eqn:Ep; [reflexivity|].
  apply orb_false_iff in Eg as [Eg _].
  assert (calculateSchedule_rec n hol (set_anchorPhaseId (p_id p0) d)
          = calculateSchedule_rec 0 hol (set_anchorPhaseId (p_id p0) d)) as ->.
  { destruct n; [reflexivity|]. simpl. rewrite Eg, Ep. simpl.
    rewrite (findAnchorIndex_repointed d p0 ps Ep). reflexivity. }
  simpl. rewrite Eg, Ep. simpl.
  rewrite (findAnchorIndex_repointed d p0 ps Ep). reflexivity.
Qed.

Lemma processParallel_eq hol d i p :
  phases d !! i = Some p →
  processParallel hol d i
  = if isParallel p then Some (parallelItem hol d p) else None.
Proof. intros H. unfold processParallel. rewrite H. reflexivity. Qed.

Lemma drop_insert_here {A} (l : list A) k x :
  (k < length l)%nat → drop k (<[k:=x]> l) = x :: drop (S k) l.
Proof.
  revert k. induction l as [|y l IH]; intros [|k] H; simpl in *; try lia;
    trivial.
  apply IH. lia.
Qed.

Lemma take_insert_here {A} (l : list A) k x :
  (k < length l)%nat → take (S k) (<[k:=x]> l) = take k l ++ [x].
Proof.
  revert k. induction l as [|y l IH]; intros [|k] H; simpl in *; try lia;
    trivial.
  f_equal. apply IH. lia.
Qed.

Lemma precedingChain_list hol d k results ref :
  (k ≤ length (phases d))%nat → length results = length (phases d) →
  fst (precedingChain hol d k (results, ref))
  = (Some <$> reverse (backChain hol d ref (reverse (take k (phases d)))))
    ++ drop k results.
Proof.
  revert results ref. induction k as [|k IH]; intros results ref Hk Hlen.
  - simpl. now rewrite drop_0.
  - destruct (lookup_lt_is_Some_2 (phases d) k) as [p Hp]; [lia|].
    rewrite (take_S_r _ _ _ Hp), reverse_snoc. simpl.
    rewrite (processParallel_eq _ _ _ _ Hp), Hp.
    destruct (isParallel p) eqn:Epar; simpl;
      rewrite IH by (rewrite ?length_insert; lia);
      rewrite reverse_cons, fmap_app, <- app_assoc; f_equal; simpl;
      rewrite drop_insert_here by lia; reflexivity.
Qed.

Lemma succeedingChain_list hol d n i results ref :
  (i + n = length (phases d))%nat → length results = length (phases d) →
  fst (succeedingChain hol d n i (results, ref))
  = take i results ++ (Some <$> forwardChain hol d ref (drop i (phases d))).
Proof.
  revert i results ref. induction n as [|n IH]; intros i results ref Hi Hlen.
  - simpl. rewrite drop_ge, take_ge by lia. simpl. now rewrite app_nil_r.
  - destruct (lookup_lt_is_Some_2 (phases d) i) as [p Hp]; [lia|].
    rewrite (drop_S _ _ _ Hp). simpl.
    rewrite (processParallel_eq _ _ _ _ Hp), Hp.
    destruct (isParallel p) eqn:Epar; simpl;
      rewrite IH by (rewrite ?length_insert; lia);
      rewrite take_insert_here by lia; rewrite <- app_assoc; reflexivity.
Qed.

Lemma omap_id_Some {A} (l : list A) : omap id (Some <$> l) = l.
Proof. induction l as [|x l IH]; [reflexivity|]. simpl. f_equal. exact IH. Qed.

Lemma scheduleSlots_filled hol d a p :
  phases d !! a = Some p →
  scheduleSlots hol d a p = Some <$> scheduleList hol d a p.
Proof.
  intros Hp. pose proof (lookup_lt_Some _ _ _ Hp) as Ha.
  unfold scheduleSlots, scheduleList, anchorItem.
  destruct (anchorSpan hol d p) as [anchorStart anchorEnd]. simpl.
  set (r0 := <[a:=_]> (replicate _ _)).
  assert (length r0 = length (phases d)) as Hlen0.
  { unfold r0. now rewrite length_insert, length_replicate. }
  pose proof (precedingChain_list hol d a r0 anchorStart) as Hpre.
  destruct (precedingChain hol d a (r0, anchorStart)) as [r1 ref1].
  simpl in Hpre. specialize (Hpre ltac:(lia) Hlen0).
  assert (length r1 = length (phases d)) as Hlen1.
  { rewrite Hpre, length_app, length_fmap, length_reverse, length_drop.
    assert (∀ ref ps, length (backChain hol d ref ps) = length ps) as Hb.
    { intros ref ps. revert ref. induction ps as [|q ps IH]; intros ref;
        simpl; [reflexivity|]. destruct (isParallel q); simpl; now rewrite IH. }
    rewrite Hb, length_reverse, length_take. lia. }
  pose proof (succeedingChain_list hol d (length (phases d) - S a) (S a) r1
                anchorEnd) as Hsuc.
  destruct (succeedingChain hol d _ (S a) (r1, anchorEnd)) as [r2 ref2].
  simpl in Hsuc. rewrite Hsuc by lia.
  rewrite fmap_app, fmap_cons. rewrite Hpre.
  assert (length (Some <$> reverse (backChain hol d anchorStart
                     (reverse (take a (phases d))))) = a) as Hla.
  { rewrite Hpre, length_app, length_drop in Hlen1.
    rewrite Hlen0 in Hlen1. lia. }
  rewrite take_app_ge by lia. rewrite Hla.
  replace (S a - a)%nat with 1%nat by lia.
  unfold r0. rewrite drop_insert_here by (rewrite length_replicate; lia).
  simpl. rewrite take_0. rewrite <- app_assoc. reflexivity.
Qed.

Lemma scheduleFrom_list hol d a p :
  phases d !! a = Some p → scheduleFrom hol d a = scheduleList hol d a p.
Proof.
  intros Hp. unfold scheduleFrom. rewrite Hp.
  rewrite (scheduleSlots_filled _ _ _ _ Hp). apply omap_id_Some.
Qed.

Lemma findAnchorIndex_Some d a :
  findAnchorIndex d = Some a ↔
  ∃ p, list_find (λ p, p_id p = anchorPhaseId d) (phases d) = Some (a, p).
Proof.
  unfold findAnchorIndex. destruct (list_find _ _) as [[i p]|]; simpl.
  - split; [intros [= ->]; eauto | intros (q & [= -> ->]); reflexivity].
  - split; [discriminate | intros (q & [=])].
Qed.

Lemma findAnchorIndex_lookup d a :
  findAnchorIndex d = Some a →
  ∃ p, phases d !! a = Some p ∧ p_id p = anchorPhaseId d.
Proof.
  intros H. apply findAnchorIndex_Some in H as (p & Hp).
  apply list_find_Some in Hp as (Hl & Hid & _). eauto.
Qed.

Lemma calculateSchedule_found_list hol d a p :
  truthy (anchorDate d) = true → findAnchorIndex d = Some a →
  phases d !! a = Some p →
  calculateSchedule hol d = (Some (scheduleList hol d a p), d).
Proof.
  intros Ht Hf Hp. rewrite (calculateSchedule_found _ _ _ Ht Hf).
  now rewrite (scheduleFrom_list _ _ _ _ Hp).
Qed.

Lemma anchorSettled_fixed hol d :
  anchorSettled d = true → calculateSchedule hol d = (fst (calculateSchedule hol d), d).
Proof.
  unfold anchorSettled. intros H.
  destruct (truthy (anchorDate d)) eqn:Et; simpl in H.
  - destruct (phases d) as [|p0 ps] eqn:Ep.
    + rewrite calculateSchedule_null; auto.
    + simpl in H. apply bool_decide_eq_true in H as [a Ha].
      now rewrite (calculateSchedule_found _ _ _ Et Ha).
  - rewrite calculateSchedule_null; auto.
Qed.

Lemma calculateSchedule_settles hol d :
  anchorSettled (snd (calculateSchedule hol d)) = true.
Proof.
  unfold anchorSettled.
  destruct (truthy (anchorDate d)) eqn:Et.
  - destruct (phases d) as [|p0 ps] eqn:Ep.
    + rewrite calculateSchedule_null by auto. simpl. now rewrite Et, Ep.
    + destruct (findAnchorIndex d) as [a|] eqn:Ef.
      * rewrite (calculateSchedule_found _ _ _ Et Ef). simpl.
        rewrite Ef, Et, Ep. reflexivity.
      * rewrite (calculateSchedule_repair _ _ _ _ Et Ef Ep). simpl.
        rewrite Et, Ep, (findAnchorIndex_repointed d p0 ps Ep). reflexivity.
  - rewrite calculateSchedule_null by auto. simpl. now rewrite Et.
Qed.

(** ** C4: the engine is idempotent and writes nothing but the repoint *)

(** C4.  A second run of the engine, on the data as the first run left it,
    returns the same result and leaves the data as it is.  A run never
    changes the phase list, the anchor date, the anchor type or the sort
    order; it leaves the data untouched when the stored anchor id names a
    phase, and when it changes [anchorPhaseId], no phase had the stored id and
    the new value is the id of the first phase. *)
Theorem engine_idempotent_and_pure (hol : list Z) (data : TimelineData) :
  calculateSchedule hol (snd (calculateSchedule hol data))
  = calculateSchedule hol data
  ∧ phases (snd (calculateSchedule hol data)) = phases data
  ∧ anchorDate (snd (calculateSchedule hol data)) = anchorDate data
  ∧ anchorType (snd (calculateSchedule hol data)) = anchorType data
  ∧ sortOrder (snd (calculateSchedule hol data)) = sortOrder data
  ∧ (is_Some (findAnchorIndex data) →
     snd (calculateSchedule hol data) = data)
  ∧ (anchorPhaseId (snd (calculateSchedule hol data)) ≠ anchorPhaseId data →
     findAnchorIndex data = None ∧
     ∃ p0, head (phases data) = Some p0 ∧
           anchorPhaseId (snd (calculateSchedule hol data)) = p_id p0).
Proof.
  destruct (truthy (anchorDate data)) eqn:Et.
  - destruct (phases data) as [|p0 ps] eqn:Ep.
    + rewrite (calculateSchedule_null hol data) by auto. simpl.
      rewrite (calculateSchedule_null hol data) by auto. rewrite Ep. tauto.
    + destruct (findAnchorIndex data) as [a|] eqn:Ef.
      * rewrite (calculateSchedule_found _ _ _ Et Ef). simpl.
        rewrite (calculateSchedule_found _ _ _ Et Ef), Ep.
        repeat split; trivial; try tauto.
      * rewrite (calculateSchedule_repair _ _ _ _ Et Ef Ep). simpl.
        rewrite Ep.
        rewrite (calculateSchedule_found hol (set_anchorPhaseId (p_id p0) data) 0)
          by (trivial; apply (findAnchorIndex_repointed data p0 ps Ep)).
        repeat split; trivial; try tauto.
        -- intros [a Ha]. discriminate.
        -- exists p0. split; reflexivity.
  - rewrite (calculateSchedule_null hol data) by auto. simpl.
    rewrite (calculateSchedule_null hol data) by auto.
    repeat split; trivial; try tauto.
Qed.

(** ** C6: the empty phase list *)

(** C6, as stated, fails: for an empty phase list the engine returns [null],
    not the empty array. *)
Lemma empty_list_counterexample :
  ¬ emptyListGivesEmptyResult [] (mkData (Ymd 19723) "1" AnchorEnd Asc []).
Proof. intros H. specialize (H eq_refl). discriminate H. Qed.

(** C6, amended.  For an empty phase list the engine returns [null], the
    value its callers test for, and writes nothing. *)
Theorem empty_list_gives_null (hol : list Z) (data : TimelineData) :
  phases data = [] → calculateSchedule hol data = (None, data).
Proof. intros H. apply calculateSchedule_null. now right. Qed.

Lemma empty_list_gives_null_witness :
  phases (mkData (Ymd 19723) "1" AnchorEnd Asc []) = [] ∧
  calculateSchedule [19724] (mkData (Ymd 19723) "1" AnchorEnd Asc [])
  = (None, mkData (Ymd 19723) "1" AnchorEnd Asc []).
Proof.
  split; [reflexivity|].
  apply (empty_list_gives_null [19724]
           (mkData (Ymd 19723) "1" AnchorEnd Asc [])).
  reflexivity.
Defined.

(** ** C5: the stale anchor id *)

(** C5, as stated, fails: with no anchor date the engine returns before it
    looks for the anchor, and the stale id stays. *)
Lemma stale_anchor_counterexample :
  ¬ staleAnchorRepaired []
      (mkData NoStr "9" AnchorEnd Asc [mkPhase "1" "A" 3 false NoStr NoStr]).
Proof.
  intros H. destruct H as (p0 & Hh & _ & Hid); [discriminate|reflexivity|].
  injection Hh as <-. vm_compute in Hid. discriminate Hid.
Qed.

(** C5, amended.  When the anchor date is set, the phase list is not empty
    and no phase has the stored anchor id, the engine returns an array, the
    one it returns when [anchorPhaseId] is the id of the first phase, and
    leaves [anchorPhaseId] set to that id, all else unchanged. *)
Theorem stale_anchor_repaired (hol : list Z) (data : TimelineData) :
  truthy (anchorDate data) = true → phases data ≠ [] →
  findAnchorIndex data = None →
  ∃ p0 rs, head (phases data) = Some p0 ∧
    calculateSchedule hol data = (Some rs, set_anchorPhaseId (p_id p0) data) ∧
    calculateSchedule hol (set_anchorPhaseId (p_id p0) data)
    = (Some rs, set_anchorPhaseId (p_id p0) data).
Proof.
  intros Ht Hne Hf. destruct (phases data) as [|p0 ps] eqn:Ep; [done|].
  exists p0, (scheduleFrom hol (set_anchorPhaseId (p_id p0) data) 0).
  split; [reflexivity|]. split.
  - apply (calculateSchedule_repair _ _ _ _ Ht Hf Ep).
  - apply calculateSchedule_found; [exact Ht|].
    apply (findAnchorIndex_repointed data p0 ps Ep).
Qed.

Lemma stale_anchor_repaired_witness :
  let data := mkData (Ymd 19723) "9" AnchorEnd Asc
                [mkPhase "1" "A" 3 false NoStr NoStr;
                 mkPhase "2" "B" 2 false NoStr NoStr] in
  truthy (anchorDate data) = true ∧ phases data ≠ [] ∧
  findAnchorIndex data = None ∧
  ∃ p0 rs, head (phases data) = Some p0 ∧
    calculateSchedule [] data = (Some rs, set_anchorPhaseId (p_id p0) data) ∧
    calculateSchedule [] (set_anchorPhaseId (p_id p0) data)
    = (Some rs, set_anchorPhaseId (p_id p0) data).
Proof.
  intros data.
  assert (truthy (anchorDate data) = true) as H1 by reflexivity.
  assert (phases data ≠ []) as H2 by discriminate.
  assert (findAnchorIndex data = None) as H3 by reflexivity.
  repeat split; trivial.
  exact (stale_anchor_repaired [] data H1 H2 H3).
Defined.

(** ** C9: the round trip of the business-day arithmetic *)

(** C9, as stated, fails in its second half: from Monday 2024-01-01 one
    working day forward is Tuesday, and no day lies strictly between. *)
Lemma round_trip_counterexample : ¬ roundTripStrictlyBetween [] 19723 1.
Proof.
  intros [_ (e & He & Hc)]. vm_compute in He. injection He as <-.
  vm_compute in Hc. discriminate Hc.
Qed.

Lemma add_counts hol d n :
  0 ≤ n →
  ∃ e, addBusinessDays hol (Day d) n = Day e ∧
       workingDaysBetween hol d (e + 1) = n.
Proof.
  intros Hn. destruct (decide (n = 0)) as [->|Hne].
  - exists d. rewrite addBusinessDays_nonpos by lia. split; [reflexivity|].
    unfold workingDaysBetween. now replace (d + 1 - d - 1) with 0 by lia.
  - destruct (addBusinessDays_pos hol d n) as (e & He & Hde & Hwe & Hce); [lia|].
    exists e. split; [exact He|]. unfold workingDaysBetween.
    now replace (e + 1 - d - 1) with (e - d) by lia.
Qed.

(** C9, amended.  With no holidays configured, for a working day [d] and
    [n ≥ 0], subtracting [n] working days from [addBusinessDays d n] gives
    [d] back, and the number of working days after [d] up to and including
    [addBusinessDays d n] is [n]. *)
Theorem round_trip_and_count (d n : Z) :
  isWorkingDay [] (Day d) = true → 0 ≤ n →
  subBusinessDays [] (addBusinessDays [] (Day d) n) n = Day d ∧
  ∃ e, addBusinessDays [] (Day d) n = Day e ∧
       workingDaysBetween [] d (e + 1) = n.
Proof.
  intros Hw Hn. split; [now apply sub_add_roundtrip | now apply add_counts].
Qed.

Lemma round_trip_and_count_witness :
  isWorkingDay [] (Day 19727) = true ∧ 0 ≤ 3 ∧
  subBusinessDays [] (addBusinessDays [] (Day 19727) 3) 3 = Day 19727 ∧
  ∃ e, addBusinessDays [] (Day 19727) 3 = Day e ∧
       workingDaysBetween [] 19727 (e + 1) = 3.
Proof.
  assert (isWorkingDay [] (Day 19727) = true) as H1 by reflexivity.
  assert (0 ≤ 3) as H2 by lia.
  split; [exact H1|]. split; [exact H2|].
  exact (round_trip_and_count 19727 3 H1 H2).
Defined.

(** ** Entries of the schedule, phase by phase *)

Lemma backChain_entries hol d ref ps :
  Forall2 (entryOf hol d) ps (backChain hol d ref ps).
Proof.
  revert ref. induction ps as [|p ps IH]; intros ref; simpl; [constructor|].
  destruct (isParallel p) eqn:E; constructor; try apply IH;
    unfold entryOf; simpl; rewrite ?E; repeat split; trivial; discriminate.
Qed.

Lemma forwardChain_entries hol d ref ps :
  Forall2 (entryOf hol d) ps (forwardChain hol d ref ps).
Proof.
  revert ref. induction ps as [|p ps IH]; intros ref; simpl; [constructor|].
  destruct (isParallel p) eqn:E; constructor; try apply IH;
    unfold entryOf; simpl; rewrite ?E; repeat split; trivial; discriminate.
Qed.

Lemma scheduleList_before hol d a p :
  Forall2 (entryOf hol d) (take a (phases d))
    (reverse (backChain hol d (fst (anchorSpan hol d p))
                (reverse (take a (phases d))))).
Proof.
  rewrite <- (reverse_involutive (take a (phases d))) at 1.
  apply Forall2_reverse, backChain_entries.
Qed.

Lemma scheduleList_length hol d a p :
  phases d !! a = Some p →
  length (scheduleList hol d a p) = length (phases d).
Proof.
  intros Hp. pose proof (lookup_lt_Some _ _ _ Hp) as Ha. unfold scheduleList.
  rewrite length_app. simpl.
  rewrite <- (Forall2_length _ _ _ (scheduleList_before hol d a p)).
  rewrite <- (Forall2_length _ _ _ (forwardChain_entries hol d _ _)).
  rewrite length_take, length_drop. lia.
Qed.

Lemma scheduleList_lookup_anchor hol d a p :
  phases d !! a = Some p →
  scheduleList hol d a p !! a = Some (anchorItem hol d p).
Proof.
  intros Hp. pose proof (lookup_lt_Some _ _ _ Hp) as Ha. unfold scheduleList.
  pose proof (Forall2_length _ _ _ (scheduleList_before hol d a p)) as Hl.
  rewrite length_take in Hl.
  rewrite lookup_app_r by lia.
  replace (a - _)%nat with 0%nat by lia. reflexivity.
Qed.

Lemma scheduleList_lookup_other hol d a p i q :
  phases d !! a = Some p → i ≠ a → phases d !! i = Some q →
  ∃ r, scheduleList hol d a p !! i = Some r ∧ entryOf hol d q r.
Proof.
  intros Hp Hne Hq. pose proof (lookup_lt_Some _ _ _ Hp) as Ha.
  pose proof (lookup_lt_Some _ _ _ Hq) as Hi. unfold scheduleList.
  pose proof (scheduleList_before hol d a p) as Hb.
  pose proof (Forall2_length _ _ _ Hb) as Hl. rewrite length_take in Hl.
  destruct (decide (i < a)%nat) as [Hlt|Hge].
  - rewrite lookup_app_l by lia.
    apply (Forall2_lookup_l _ _ _ i q Hb). now rewrite lookup_take_lt.
  - rewrite lookup_app_r by lia.
    replace (i - _)%nat with (S (i - S a)) by lia. simpl.
    apply (Forall2_lookup_l _ _ _ (i - S a)%nat q
             (forwardChain_entries hol d _ _)).
    rewrite lookup_drop. rewrite <- Hq. f_equal. lia.
Qed.

Lemma scheduleList_ids hol d a p :
  phases d !! a = Some p →
  r_id <$> scheduleList hol d a p = p_id <$> phases d.
Proof.
  intros Hp. apply list_eq. intros i. rewrite !list_lookup_fmap.
  destruct (phases d !! i) as [q|] eqn:Hq; simpl.
  - destruct (decide (i = a)) as [->|Hne].
    + rewrite (scheduleList_lookup_anchor _ _ _ _ Hp). simpl.
      congruence.
    + destruct (scheduleList_lookup_other hol d a p i q Hp Hne Hq)
        as (r & -> & Hid & _). simpl. now rewrite Hid.
  - rewrite lookup_ge_None_2; [reflexivity|].
    rewrite (scheduleList_length _ _ _ _ Hp). now apply lookup_ge_None.
Qed.

(** ** C7: parallel phases *)

(** C7, as stated, fails: a parallel phase without an end date ends
    [days - 1] working days after its start, not on the anchor date. *)
Lemma parallel_span_counterexample :
  ¬ parallelSpanDefaultsToAnchor []
      (mkData (Ymd 19737) "1" AnchorEnd Asc
         [mkPhase "1" "A" 1 false NoStr NoStr;
          mkPhase "2" "B" 5 true NoStr NoStr]).
Proof.
  intros H.
  destruct (H 1%nat (mkPhase "2" "B" 5 true NoStr NoStr) _ eq_refl eq_refl
              eq_refl) as (r & Hr & _ & He & _).
  vm_compute in Hr. injection Hr as <-. vm_compute in He. discriminate He.
Qed.

Lemma parallelItem_data hol d d' p :
  anchorDate d' = anchorDate d → parallelItem hol d' p = parallelItem hol d p.
Proof. intros H. unfold parallelItem. now rewrite H. Qed.

(** Whenever the engine returns a schedule, it is the list form on the data
    it leaves, for the anchor found there. *)
Lemma calculateSchedule_cases hol d rs d' :
  calculateSchedule hol d = (Some rs, d') →
  ∃ a pa, findAnchorIndex d' = Some a ∧ phases d' !! a = Some pa ∧
          rs = scheduleList hol d' a pa ∧ phases d' = phases d ∧
          anchorDate d' = anchorDate d.
Proof.
  destruct (truthy (anchorDate d)) eqn:Et.
  2: { rewrite calculateSchedule_null by auto. discriminate. }
  destruct (phases d) as [|p0 ps] eqn:Ep.
  { rewrite calculateSchedule_null by auto. discriminate. }
  destruct (findAnchorIndex d) as [a|] eqn:Ef.
  - destruct (findAnchorIndex_lookup _ _ Ef) as (pa & Hpa & _).
    rewrite (calculateSchedule_found_list _ _ _ _ Et Ef Hpa).
    intros [= <- <-]. exists a, pa. rewrite Ep in *. auto.
  - rewrite (calculateSchedule_repair _ _ _ _ Et Ef Ep). intros [= <- <-].
    assert (phases (set_anchorPhaseId (p_id p0) d) !! 0%nat = Some p0) as Hp
      by (simpl; now rewrite Ep).
    exists 0%nat, p0. split; [apply (findAnchorIndex_repointed d p0 ps Ep)|].
    split; [exact Hp|]. split; [now apply scheduleFrom_list|].
    simpl. auto.
Qed.

(** C7, amended.  Whenever the engine returns a schedule, for a parallel
    phase other than the anchor it takes the start from [manualStartDate],
    or from the anchor date when that is missing, and the end from
    [manualEndDate], or [days - 1] working days after the start when that is
    missing; the reported days are [floor((end - start) / 1 day) + 1].  The
    loop step for the phase writes that entry and hands the reference date
    on unchanged.  When [manualEndDate] is present, the entry's dates and
    days do not depend on the stored days. *)
Theorem parallel_phase_span (hol : list Z) (data data' : TimelineData)
    (rs : list ResultItem) (a i : nat) (p : Phase) :
  calculateSchedule hol data = (Some rs, data') →
  findAnchorIndex data' = Some a → i ≠ a →
  phases data !! i = Some p → isParallel p = true →
  let s := if truthy (manualStartDate p) then newDate (manualStartDate p)
           else newDate (anchorDate data) in
  let e := if truthy (manualEndDate p) then newDate (manualEndDate p)
           else addBusinessDays hol s (days p - 1) in
  ∃ r,
    rs !! i = Some r ∧ r = parallelItem hol data p ∧
    startDate r = s ∧ endDate r = e ∧ r_days r = getDaysDiff s e ∧
    (∀ results ref,
       precedingStep hol data i (results, ref)
       = (<[i := Some r]> results, ref) ∧
       succeedingStep hol data i (results, ref)
       = (<[i := Some r]> results, ref)) ∧
    (truthy (manualEndDate p) = true →
     ∀ v, startDate (parallelItem hol data (set_days v p)) = s ∧
          endDate (parallelItem hol data (set_days v p)) = e ∧
          r_days (parallelItem hol data (set_days v p)) = getDaysDiff s e).
Proof.
  intros Hc Hf Hne Hp Hpar s e.
  destruct (calculateSchedule_cases _ _ _ _ Hc)
    as (a' & pa & Hf' & Hpa & -> & Hph & Had).
  assert (a' = a) as -> by congruence.
  rewrite <- Hph in Hp.
  destruct (scheduleList_lookup_other hol data' a pa i p Hpa Hne Hp)
    as (r & Hr & _ & _ & Hitem).
  specialize (Hitem Hpar). subst r.
  rewrite (parallelItem_data hol data data' p Had) in Hr.
  rewrite Hph in Hp.
  exists (parallelItem hol data p).
  split; [exact Hr|]. split; [reflexivity|].
  repeat split; try reflexivity.
  - unfold precedingStep. rewrite (processParallel_eq _ _ _ _ Hp), Hpar.
    reflexivity.
  - unfold succeedingStep. rewrite (processParallel_eq _ _ _ _ Hp), Hpar.
    reflexivity.
  - unfold parallelItem, e. simpl. rewrite H. reflexivity.
  - unfold parallelItem, s, e. simpl. rewrite H. reflexivity.
Qed.

Lemma parallel_phase_span_witness :
  let data := mkData (Ymd 19737) "1" AnchorEnd Asc
                [mkPhase "2" "B" 5 true NoStr NoStr;
                 mkPhase "1" "A" 1 false NoStr NoStr;
                 mkPhase "3" "C" 9 true (Ymd 19730) (Ymd 19733)] in
  let p := mkPhase "3" "C" 9 true (Ymd 19730) (Ymd 19733) in
  let rs := [parallelItem [] data (mkPhase "2" "B" 5 true NoStr NoStr);
             anchorItem [] data (mkPhase "1" "A" 1 false NoStr NoStr);
             parallelItem [] data p] in
  calculateSchedule [] data = (Some rs, data) ∧
  findAnchorIndex data = Some 1%nat ∧
  2%nat ≠ 1%nat ∧ phases data !! 2%nat = Some p ∧ isParallel p = true ∧
  ∃ r,
    rs !! 2%nat = Some r ∧ r = parallelItem [] data p ∧
    startDate r = Day 19730 ∧ endDate r = Day 19733 ∧
    r_days r = getDaysDiff (Day 19730) (Day 19733) ∧
    (∀ results ref,
       precedingStep [] data 2 (results, ref)
       = (<[2%nat := Some r]> results, ref) ∧
       succeedingStep [] data 2 (results, ref)
       = (<[2%nat := Some r]> results, ref)) ∧
    (truthy (manualEndDate p) = true →
     ∀ v, startDate (parallelItem [] data (set_days v p)) = Day 19730 ∧
          endDate (parallelItem [] data (set_days v p)) = Day 19733 ∧
          r_days (parallelItem [] data (set_days v p))
          = getDaysDiff (Day 19730) (Day 19733)).
Proof.
  intros data p rs.
  assert (calculateSchedule [] data = (Some rs, data)) as H1
    by (vm_compute; reflexivity).
  assert (findAnchorIndex data = Some 1%nat) as H2 by reflexivity.
  assert (2%nat ≠ 1%nat) as H3 by discriminate.
  assert (phases data !! 2%nat = Some p) as H4 by reflexivity.
  assert (isParallel p = true) as H5 by reflexivity.
  repeat (split; [assumption|]).
  exact (parallel_phase_span [] data data rs 1 2 p H1 H2 H3 H4 H5).
Defined.

(** ** The chain of the sequential phases *)

Lemma backChain_data hol d d' ref ps :
  anchorDate d' = anchorDate d →
  backChain hol d' ref ps = backChain hol d ref ps.
Proof.
  intros H. revert ref. induction ps as [|p ps IH]; intros ref; simpl;
    [reflexivity|].
  rewrite (parallelItem_data _ _ _ _ H), !IH. reflexivity.
Qed.

Lemma forwardChain_data hol d d' ref ps :
  anchorDate d' = anchorDate d →
  forwardChain hol d' ref ps = forwardChain hol d ref ps.
Proof.
  intros H. revert ref. induction ps as [|p ps IH]; intros ref; simpl;
    [reflexivity|].
  rewrite (parallelItem_data _ _ _ _ H), !IH. reflexivity.
Qed.

Lemma backChain_filter hol d ref ps :
  filter seqItem (backChain hol d ref ps)
  = backChain hol d ref (filter seqPhase ps).
Proof.
  revert ref. induction ps as [|p ps IH]; intros ref; [reflexivity|]. simpl.
  destruct (isParallel p) eqn:E.
  - rewrite filter_cons_False by (unfold seqItem; simpl; congruence).
    rewrite (filter_cons_False seqPhase) by (unfold seqPhase; congruence).
    apply IH.
  - rewrite filter_cons_True by (unfold seqItem; simpl; congruence).
    rewrite (filter_cons_True seqPhase) by (unfold seqPhase; congruence).
    simpl. rewrite E, IH. reflexivity.
Qed.

Lemma forwardChain_filter hol d ref ps :
  filter seqItem (forwardChain hol d ref ps)
  = forwardChain hol d ref (filter seqPhase ps).
Proof.
  revert ref. induction ps as [|p ps IH]; intros ref; [reflexivity|]. simpl.
  destruct (isParallel p) eqn:E.
  - rewrite filter_cons_False by (unfold seqItem; simpl; congruence).
    rewrite (filter_cons_False seqPhase) by (unfold seqPhase; congruence).
    apply IH.
  - rewrite filter_cons_True by (unfold seqItem; simpl; congruence).
    rewrite (filter_cons_True seqPhase) by (unfold seqPhase; congruence).
    simpl. rewrite E, IH. reflexivity.
Qed.

(** The sequential entries of the schedule, written with the chains over
    the sequential phases alone. *)
Lemma scheduleList_filter hol d a p :
  isParallel p = false →
  filter seqItem (scheduleList hol d a p)
  = reverse (backChain hol d (fst (anchorSpan hol d p))
               (reverse (filter seqPhase (take a (phases d)))))
    ++ anchorItem hol d p
       :: forwardChain hol d (snd (anchorSpan hol d p))
            (filter seqPhase (drop (S a) (phases d))).
Proof.
  intros Hseq. unfold scheduleList.
  rewrite filter_app, filter_reverse, backChain_filter, filter_reverse.
  rewrite filter_cons_True by exact Hseq.
  now rewrite forwardChain_filter.
Qed.

Lemma list_find_filter {A} (P Q : A → Prop) `{∀ x, Decision (P x)}
    `{∀ x, Decision (Q x)} (l : list A) i x :
  list_find P l = Some (i, x) → Q x →
  list_find P (filter Q l) = Some (length (filter Q (take i l)), x).
Proof.
  intros Hf HQ. apply list_find_Some in Hf as (Hl & HP & Hbefore).
  rewrite <- (take_drop_middle _ _ _ Hl) at 1.
  rewrite filter_app, filter_cons_True by exact HQ.
  rewrite list_find_app_r.
  - simpl. rewrite decide_True by exact HP. reflexivity.
  - apply list_find_None, Forall_forall. intros y Hy.
    apply list_elem_of_filter in Hy as [_ Hy].
    apply list_elem_of_lookup in Hy as [j Hj].
    pose proof (lookup_lt_Some _ _ _ Hj) as Hlt. rewrite length_take in Hlt.
    rewrite lookup_take_lt in Hj by lia. apply (Hbefore j y Hj). lia.
Qed.

(** The schedule of the data with the parallel phases taken out. *)
Lemma schedule_without_parallel hol d a p :
  truthy (anchorDate d) = true → findAnchorIndex d = Some a →
  phases d !! a = Some p → isParallel p = false →
  calculateSchedule hol (set_phases (filter seqPhase (phases d)) d)
  = (Some (filter seqItem (scheduleList hol d a p)),
     set_phases (filter seqPhase (phases d)) d).
Proof.
  intros Ht Hf Hp Hseq.
  set (d' := set_phases (filter seqPhase (phases d)) d).
  set (a' := length (filter seqPhase (take a (phases d)))).
  assert (phases d' = filter seqPhase (take a (phases d))
                      ++ p :: filter seqPhase (drop (S a) (phases d))) as Hph.
  { unfold d'. simpl. rewrite <- (take_drop_middle _ _ _ Hp) at 1.
    now rewrite filter_app, filter_cons_True by exact Hseq. }
  assert (findAnchorIndex d' = Some a') as Hf'.
  { apply findAnchorIndex_Some in Hf as (q & Hq).
    assert (q = p) as ->.
    { apply list_find_Some in Hq as (Hl & _). congruence. }
    apply findAnchorIndex_Some. exists p. unfold d'. simpl.
    apply (list_find_filter _ seqPhase _ _ _ Hq Hseq). }
  assert (phases d' !! a' = Some p) as Hp'.
  { rewrite Hph. rewrite lookup_app_r by (unfold a'; lia).
    unfold a'. now rewrite Nat.sub_diag. }
  rewrite (calculateSchedule_found_list hol d' a' p Ht Hf' Hp').
  f_equal. f_equal. rewrite (scheduleList_filter _ _ _ _ Hseq).
  unfold scheduleList.
  assert (anchorSpan hol d' p = anchorSpan hol d p) as -> by reflexivity.
  assert (anchorItem hol d' p = anchorItem hol d p) as -> by reflexivity.
  rewrite Hph. rewrite take_app_length' by reflexivity.
  rewrite (backChain_data hol d d') by reflexivity.
  rewrite (forwardChain_data hol d d') by reflexivity.
  assert (∀ (l k : list Phase) x, drop (S (length l)) (l ++ x :: k) = k)
    as Hdrop by (intros l k x; induction l; simpl; auto).
  unfold a'. rewrite Hdrop. reflexivity.
Qed.

Lemma between_from_back hol e r :
  e < r → isWorkingDay hol (Day e) = true →
  countWorking hol e (Z.to_nat (r - e)) = 1 →
  workingDaysBetween hol e r = 0.
Proof.
  intros Hlt Hw Hc. unfold workingDaysBetween.
  replace (Z.to_nat (r - e)) with (S (Z.to_nat (r - e - 1))) in Hc by lia.
  simpl in Hc. rewrite Hw in Hc. lia.
Qed.

Lemma between_from_front hol r s :
  r < s → isWorkingDay hol (Day s) = true →
  countWorking hol (r + 1) (Z.to_nat (s - r)) = 1 →
  workingDaysBetween hol r s = 0.
Proof.
  intros Hlt Hw Hc. unfold workingDaysBetween.
  replace (Z.to_nat (s - r)) with (S (Z.to_nat (s - r - 1))) in Hc by lia.
  rewrite countWorking_snoc in Hc.
  replace (r + 1 + Z.of_nat (Z.to_nat (s - r - 1))) with s in Hc by lia.
  rewrite Hw in Hc. lia.
Qed.

Lemma sub_extent hol e m :
  isWorkingDay hol (Day e) = true → 0 ≤ m →
  ∃ s, subBusinessDays hol (Day e) m = Day s ∧ s ≤ e ∧
       isWorkingDay hol (Day s) = true.
Proof.
  intros Hw Hm. destruct (decide (m = 0)) as [->|Hne].
  - exists e. rewrite subBusinessDays_nonpos by lia. auto with zarith.
  - destruct (subBusinessDays_pos hol e m) as (s & -> & Hs & Hws & _); [lia|].
    exists s. repeat split; trivial; lia.
Qed.

Lemma add_extent hol s m :
  isWorkingDay hol (Day s) = true → 0 ≤ m →
  ∃ e, addBusinessDays hol (Day s) m = Day e ∧ s ≤ e ∧
       isWorkingDay hol (Day e) = true.
Proof.
  intros Hw Hm. destruct (decide (m = 0)) as [->|Hne].
  - exists s. rewrite addBusinessDays_nonpos by lia. auto with zarith.
  - destruct (addBusinessDays_pos hol s m) as (e & -> & Hs & Hwe & _); [lia|].
    exists e. repeat split; trivial; lia.
Qed.

Lemma precedingItem_ok hol p r :
  ∃ s e, startDate (precedingItem hol p (Day r)) = Day s ∧
         endDate (precedingItem hol p (Day r)) = Day e ∧
         s ≤ e ∧ e < r ∧ isWorkingDay hol (Day s) = true ∧
         isWorkingDay hol (Day e) = true ∧ workingDaysBetween hol e r = 0.
Proof.
  unfold precedingItem. simpl.
  destruct (subBusinessDays_pos hol r 1) as (e & -> & He & Hwe & Hc); [lia|].
  destruct (sub_extent hol e (Z.max 0 (days p - 1)) Hwe) as (s & -> & Hs & Hws);
    [lia|].
  exists s, e. repeat split; trivial. now apply between_from_back.
Qed.

Lemma succeedingItem_ok hol p r :
  ∃ s e, startDate (succeedingItem hol p (Day r)) = Day s ∧
         endDate (succeedingItem hol p (Day r)) = Day e ∧
         s ≤ e ∧ r < s ∧ isWorkingDay hol (Day s) = true ∧
         isWorkingDay hol (Day e) = true ∧ workingDaysBetween hol r s = 0.
Proof.
  unfold succeedingItem. simpl.
  destruct (addBusinessDays_pos hol r 1) as (s & -> & Hs & Hws & Hc); [lia|].
  destruct (add_extent hol s (Z.max 0 (days p - 1)) Hws) as (e & -> & He & Hwe);
    [lia|].
  exists s, e. repeat split; trivial. now apply between_from_front.
Qed.

Lemma anchorItem_ok hol d p ad :
  anchorDate d = Ymd ad → spanOk hol (anchorItem hol d p).
Proof.
  intros Had. unfold spanOk, anchorItem, anchorSpan. rewrite Had. simpl.
  destruct (anchorType d); simpl.
  - destruct (ensureWorkingDayBackward_Day hol ad) as (e & -> & _ & Hwe & _).
    destruct (sub_extent hol e (Z.max 0 (days p - 1)) Hwe)
      as (s & -> & Hs & Hws); [lia|].
    exists s, e. auto.
  - destruct (ensureWorkingDayForward_Day hol ad) as (s & -> & _ & Hws & _).
    destruct (add_extent hol s (Z.max 0 (days p - 1)) Hws)
      as (e & -> & He & Hwe); [lia|].
    exists s, e. auto.
Qed.

Lemma forwardChain_seq hol d ref p ps :
  isParallel p = false →
  forwardChain hol d ref (p :: ps)
  = succeedingItem hol p ref
    :: forwardChain hol d (endDate (succeedingItem hol p ref)) ps.
Proof. intros H. simpl. now rewrite H. Qed.

Lemma backChain_seq hol d ref p ps :
  isParallel p = false →
  backChain hol d ref (p :: ps)
  = precedingItem hol p ref
    :: backChain hol d (startDate (precedingItem hol p ref)) ps.
Proof. intros H. simpl. now rewrite H. Qed.

Lemma contiguousChain_cons hol a b l :
  spanOk hol a → adjacent hol a b → contiguousChain hol (b :: l) →
  contiguousChain hol (a :: b :: l).
Proof. intros Ha Hab Hl. split; [exact Ha|]. split; [exact Hab | exact Hl]. Qed.

Lemma forwardChain_chain hol d ps x r :
  Forall seqPhase ps → spanOk hol x → endDate x = Day r →
  contiguousChain hol (x :: forwardChain hol d (Day r) ps).
Proof.
  revert x r. induction ps as [|p ps IH]; intros x r Hall Hx Hr.
  - simpl. auto.
  - apply Forall_cons in Hall as [Hp Hall]. unfold seqPhase in Hp.
    rewrite (forwardChain_seq _ _ _ _ _ Hp).
    destruct (succeedingItem_ok hol p r)
      as (s & e & Hs & He & Hse & Hrs & Hws & Hwe & Hb).
    apply contiguousChain_cons; [exact Hx | exists r, s; auto |].
    rewrite He. apply IH; trivial. exists s, e. auto.
Qed.

Lemma backChain_chain hol d ps x tail r :
  Forall seqPhase ps → contiguousChain hol (x :: tail) →
  startDate x = Day r →
  contiguousChain hol (reverse (backChain hol d (Day r) ps) ++ x :: tail).
Proof.
  revert x tail r. induction ps as [|p ps IH]; intros x tail r Hall Hx Hr.
  - exact Hx.
  - apply Forall_cons in Hall as [Hp Hall]. unfold seqPhase in Hp.
    rewrite (backChain_seq _ _ _ _ _ Hp).
    destruct (precedingItem_ok hol p r)
      as (s & e & Hs & He & Hse & Her & Hws & Hwe & Hb).
    rewrite reverse_cons, <- app_assoc, Hs.
    apply (IH (precedingItem hol p (Day r)) (x :: tail) s); trivial.
    apply contiguousChain_cons; [exists s, e; auto | exists e, r; auto |].
    exact Hx.
Qed.

Example chain_example :
  fst (calculateSchedule [19725]
         (mkData (Ymd 19734) "3" AnchorEnd Asc
            [mkPhase "1" "A" 3 false NoStr NoStr;
             mkPhase "2" "P" 4 true (Ymd 19730) (Ymd 19731);
             mkPhase "3" "B" 5 false NoStr NoStr;
             mkPhase "4" "C" 2 false NoStr NoStr]))
  = Some [mkItem "1" "A" (Num 3) false NoStr NoStr (Day 19724) (Day 19727);
          mkItem "2" "P" (Num 2) true (Ymd 19730) (Ymd 19731) (Day 19730)
            (Day 19731);
          mkItem "3" "B" (Num 5) false NoStr NoStr (Day 19730) (Day 19734);
          mkItem "4" "C" (Num 2) false NoStr NoStr (Day 19737) (Day 19738)].
Proof. vm_compute. reflexivity. Qed.

(** ** Renders on a settled state *)

Lemma set_data_same t : set_data (data t) t = t.
Proof. now destruct t. Qed.

Lemma set_timelines_same s : set_timelines (timelines s) s = s.
Proof. now destruct s. Qed.

Lemma engineOn_settled hol t :
  anchorSettled (data t) = true → engineOn hol t = t.
Proof.
  intros H. unfold engineOn. rewrite (anchorSettled_fixed hol _ H). simpl.
  apply set_data_same.
Qed.

Lemma settled_Forall s :
  settled s = true ↔
  Forall (λ t, anchorSettled (data t) = true) (timelines s).
Proof.
  unfold settled. rewrite forallb_forall, Forall_forall.
  split; intros H t Ht; apply H; now apply list_elem_of_In.
Qed.

Lemma renderGantt_settled dom s : settled s = true → renderGantt dom s = s.
Proof.
  intros H. unfold renderGantt. destruct (hasGanttContainer dom); trivial.
  transitivity (set_timelines (timelines s) s); [|apply set_timelines_same].
  f_equal.
  apply settled_Forall in H. apply list_eq. intros j.
  rewrite list_lookup_fmap.
  destruct (timelines s !! j) as [t|] eqn:E; simpl; trivial. f_equal.
  apply engineOn_settled. eapply Forall_lookup_1 in H; eauto.
Qed.

Lemma engineOnActive_settled s : settled s = true → engineOnActive s = s.
Proof.
  intros H. unfold engineOnActive. destruct (getActiveIndex s) as [i|]; trivial.
  transitivity (set_timelines (timelines s) s); [|apply set_timelines_same].
  f_equal.
  apply settled_Forall in H. apply list_eq. intros j.
  rewrite list_lookup_alter. destruct (decide (i = j)) as [->|]; trivial.
  destruct (timelines s !! j) as [t|] eqn:E; simpl; trivial. f_equal.
  apply engineOn_settled. eapply Forall_lookup_1 in H; eauto.
Qed.

Lemma rerender_settled dom s :
  settled s = true → updateSchedule dom (renderPhases dom s) = s.
Proof.
  intros H. unfold updateSchedule, renderSchedule, renderPhases.
  destruct (hasPhaseList dom), (hasResultContainer dom);
    rewrite ?engineOnActive_settled, ?renderGantt_settled;
    rewrite ?engineOnActive_settled; trivial.
Qed.

Lemma list_find_insert_same {A} (P : A → Prop) `{∀ x, Decision (P x)}
    (l : list A) i x y :
  l !! i = Some x → (P y ↔ P x) →
  fst <$> list_find P (<[i:=y]> l) = fst <$> list_find P l.
Proof.
  revert i. induction l as [|z l IH]; intros i Hl Hiff; [discriminate|].
  destruct i as [|i]; simpl in *.
  - injection Hl as ->.
    destruct (decide (P y)), (decide (P x)); simpl; trivial; tauto.
  - destruct (decide (P z)); simpl; trivial.
    specialize (IH i Hl Hiff).
    destruct (list_find P (<[i:=y]> l)) as [[? ?]|],
             (list_find P l) as [[? ?]|]; simpl in *; congruence.
Qed.

Lemma findAnchorIndex_set_phase d i p p' :
  phases d !! i = Some p → p_id p' = p_id p →
  findAnchorIndex (set_phase i p' d) = findAnchorIndex d.
Proof.
  intros Hp Hid. unfold findAnchorIndex, set_phase. simpl.
  apply list_find_insert_same with (x := p); trivial. now rewrite Hid.
Qed.

Lemma anchorSettled_set_phase d i p p' :
  phases d !! i = Some p → p_id p' = p_id p →
  anchorSettled (set_phase i p' d) = anchorSettled d.
Proof.
  intros Hp Hid. unfold anchorSettled.
  rewrite (findAnchorIndex_set_phase _ _ _ _ Hp Hid). simpl.
  now rewrite length_insert.
Qed.

Lemma settled_insert s i t t' :
  settled s = true → timelines s !! i = Some t →
  anchorSettled (data t') = true →
  settled (set_timelines (<[i := t']> (timelines s)) s) = true.
Proof.
  intros H Ht Ht'. apply settled_Forall. simpl.
  apply Forall_insert; [now apply settled_Forall|exact Ht'].
Qed.

Lemma settled_lookup s i t :
  settled s = true → timelines s !! i = Some t →
  anchorSettled (data t) = true.
Proof.
  intros H Ht. apply settled_Forall in H.
  now apply (Forall_lookup_1 _ _ _ _ H Ht).
Qed.

Lemma insert_same_timeline s i t :
  timelines s !! i = Some t →
  set_timelines (<[i := set_data (data t) t]> (timelines s)) s = s.
Proof.
  intros Ht. rewrite set_data_same, list_insert_id by exact Ht.
  apply set_timelines_same.
Qed.

(** ** The move of a phase, case by case *)

Lemma calculateSchedule_ids hol d rs :
  fst (calculateSchedule hol d) = Some rs →
  r_id <$> rs = p_id <$> phases d.
Proof.
  destruct (truthy (anchorDate d)) eqn:Et.
  2: { rewrite calculateSchedule_null by auto. discriminate. }
  destruct (phases d) as [|p0 ps] eqn:Ep.
  { rewrite calculateSchedule_null by auto. discriminate. }
  destruct (findAnchorIndex d) as [a|] eqn:Ef.
  - destruct (findAnchorIndex_lookup _ _ Ef) as (p & Hp & _).
    rewrite (calculateSchedule_found_list _ _ _ _ Et Ef Hp). cbn [fst].
    intros [= <-]. rewrite (scheduleList_ids _ _ _ _ Hp). now rewrite Ep.
  - rewrite (calculateSchedule_repair _ _ _ _ Et Ef Ep). cbn [fst].
    intros [= <-].
    assert (phases (set_anchorPhaseId (p_id p0) d) !! 0%nat = Some p0) as Hp
      by (simpl; now rewrite Ep).
    rewrite (scheduleFrom_list _ _ _ _ Hp).
    rewrite (scheduleList_ids _ _ _ _ Hp). simpl. now rewrite Ep.
Qed.

Lemma list_find_id_NoDup (l : list Phase) j q :
  NoDup (p_id <$> l) → l !! j = Some q →
  list_find (λ x, p_id x = p_id q) l = Some (j, q).
Proof.
  intros Hnd Hq. apply list_find_Some. repeat split; trivial.
  intros i y Hy Hlt Heq.
  assert (i = j); [|lia].
  apply (NoDup_lookup _ i j (p_id q) Hnd); rewrite list_lookup_fmap.
  - now rewrite Hy, <- Heq.
  - now rewrite Hq.
Qed.

Lemma NoDup_id_index (l : list Phase) i j p q :
  NoDup (p_id <$> l) → l !! i = Some p → l !! j = Some q →
  p_id p = p_id q → i = j.
Proof.
  intros Hnd Hp Hq Heq.
  apply (NoDup_lookup _ i j (p_id q) Hnd); rewrite list_lookup_fmap.
  - now rewrite Hp, <- Heq.
  - now rewrite Hq.
Qed.

Lemma collision_iff hol d rs pidx p ps pe :
  fst (calculateSchedule hol d) = Some rs →
  NoDup (p_id <$> phases d) → phases d !! pidx = Some p →
  existsb (collidesWith d (p_id p) ps pe) rs = true ↔
  ∃ j q r, phases d !! j = Some q ∧ rs !! j = Some r ∧ j ≠ pidx ∧
           isParallel q = false ∧ p_id q ≠ anchorPhaseId d ∧
           overlaps ps pe r = true.
Proof.
  intros Hrs Hnd Hp. pose proof (calculateSchedule_ids _ _ _ Hrs) as Hids.
  assert (∀ j r, rs !! j = Some r →
                 ∃ q, phases d !! j = Some q ∧ p_id q = r_id r) as Hat.
  { intros j r Hr.
    assert ((p_id <$> phases d) !! j = Some (r_id r)) as H
      by (rewrite <- Hids, list_lookup_fmap, Hr; reflexivity).
    rewrite list_lookup_fmap in H.
    destruct (phases d !! j) as [q|]; [|discriminate].
    injection H as H. eauto. }
  rewrite existsb_exists. split.
  - intros (r & Hin & Hc). apply list_elem_of_In, list_elem_of_lookup in Hin
      as [j Hr].
    destruct (Hat j r Hr) as (q & Hq & Hid).
    unfold collidesWith in Hc.
    destruct (bool_decide (r_id r = p_id p)) eqn:Eself; [discriminate|].
    apply bool_decide_eq_false in Eself.
    rewrite <- Hid in Hc. rewrite (list_find_id_NoDup _ _ _ Hnd Hq) in Hc.
    destruct (isParallel q) eqn:Epar; [discriminate|].
    destruct (bool_decide (p_id q = anchorPhaseId d)) eqn:Eanc; [discriminate|].
    apply bool_decide_eq_false in Eanc.
    exists j, q, r. repeat split; trivial.
    intros ->. rewrite Hp in Hq. injection Hq as ->. congruence.
  - intros (j & q & r & Hq & Hr & Hne & Hpar & Hanc & Hov).
    exists r. split.
    { apply list_elem_of_In, list_elem_of_lookup. eauto. }
    destruct (Hat j r Hr) as (q' & Hq' & Hid).
    rewrite Hq in Hq'. injection Hq' as <-.
    unfold collidesWith.
    rewrite bool_decide_eq_false_2.
    2: { intros Heq. apply Hne.
         apply (NoDup_id_index _ _ _ _ _ Hnd Hq Hp). congruence. }
    rewrite <- Hid, (list_find_id_NoDup _ _ _ Hnd Hq), Hpar.
    now rewrite bool_decide_eq_false_2.
Qed.

Lemma currentSpan_settled hol d p pid :
  anchorSettled d = true → snd (currentSpan hol d p pid) = d.
Proof.
  intros H. unfold currentSpan.
  destruct (isParallel p && truthy (manualStartDate p)); [reflexivity|].
  rewrite (anchorSettled_fixed hol d H).
  destruct (fst (calculateSchedule hol d)) as [sch|]; [|reflexivity].
  destruct (list_find _ sch) as [[? ?]|]; reflexivity.
Qed.

Lemma commitMove_eq p ts te ps pe :
  commitMove p ts te ps pe
  = mkPhase (p_id p) (p_name p) (days p) true (iso ps) (iso pe).
Proof. destruct p as [i n dd [] ms me]; reflexivity. Qed.

(** The three ways a move of a non-anchor phase ends on settled data. *)
Lemma movePhase_settled hol d pidx p pid delta :
  anchorSettled d = true → p_id p ≠ anchorPhaseId d →
  movePhase hol d pidx p pid delta =
  match fst (currentSpan hol d p pid), fst (calculateSchedule hol d) with
  | Some (ts, te), Some rs =>
      if existsb (collidesWith d pid (shiftDate ts delta) (shiftDate te delta))
           rs
      then (ExitCollision, d)
      else (ExitCommitted,
            set_phase pidx
              (mkPhase (p_id p) (p_name p) (days p) true
                 (iso (shiftDate ts delta)) (iso (shiftDate te delta))) d)
  | _, _ => (ExitTypeError, d)
  end.
Proof.
  intros Hs Hne. unfold movePhase.
  rewrite bool_decide_eq_false_2 by exact Hne.
  pose proof (currentSpan_settled hol d p pid Hs) as Hcs.
  destruct (currentSpan hol d p pid) as [span d1]. simpl in Hcs. subst d1.
  simpl. destruct span as [[ts te]|]; [|reflexivity].
  rewrite (anchorSettled_fixed hol d Hs).
  destruct (fst (calculateSchedule hol d)) as [rs|]; cbn [fst];
    [|reflexivity].
  destruct (existsb _ rs); [reflexivity|]. now rewrite commitMove_eq.
Qed.

Lemma applyGanttChange_move dom drag delta s ti t pidx p :
  delta ≠ 0 → dragType drag = DragMove →
  list_find (λ t, t_id t = timelineId drag) (timelines s) = Some (ti, t) →
  list_find (λ q, p_id q = phaseId drag) (phases (data t)) = Some (pidx, p) →
  applyGanttChange dom drag delta s =
  let r := movePhase (globalHolidays s) (data t) pidx p (phaseId drag) delta in
  let s' := set_timelines (<[ti := set_data (snd r) t]> (timelines s)) s in
  match fst r with
  | ExitCommitted => (fst r, updateSchedule dom (renderPhases dom s'))
  | ExitCollision => (fst r, renderGantt dom s')
  | _ => (fst r, s')
  end.
Proof.
  intros Hd Hty Ht Hp. unfold applyGanttChange, ganttChangeData.
  rewrite (proj2 (Z.eqb_neq delta 0) Hd), Ht, Hp, Hty.
  destruct (movePhase _ _ _ _ _ _) as [ex d']. reflexivity.
Qed.

Lemma applyGanttChange_move_settled dom drag delta s ti t pidx p :
  delta ≠ 0 → dragType drag = DragMove →
  list_find (λ t, t_id t = timelineId drag) (timelines s) = Some (ti, t) →
  list_find (λ q, p_id q = phaseId drag) (phases (data t)) = Some (pidx, p) →
  p_id p ≠ anchorPhaseId (data t) → settled s = true →
  applyGanttChange dom drag delta s =
  match fst (currentSpan (globalHolidays s) (data t) p (phaseId drag)),
        fst (calculateSchedule (globalHolidays s) (data t)) with
  | Some (ts, te), Some rs =>
      if existsb (collidesWith (data t) (phaseId drag) (shiftDate ts delta)
                    (shiftDate te delta)) rs
      then (ExitCollision, s)
      else (ExitCommitted,
            set_timelines
              (<[ti := set_data
                         (set_phase pidx
                            (mkPhase (p_id p) (p_name p) (days p) true
                               (iso (shiftDate ts delta))
                               (iso (shiftDate te delta))) (data t)) t]>
                 (timelines s)) s)
  | _, _ => (ExitTypeError, s)
  end.
Proof.
  intros Hd Hty Ht Hp Hne Hs.
  rewrite (applyGanttChange_move _ _ _ _ _ _ _ _ Hd Hty Ht Hp).
  pose proof Ht as Ht'. apply list_find_Some in Ht' as (Hti & _ & _).
  pose proof Hp as Hp'. apply list_find_Some in Hp' as (Hpi & _ & _).
  pose proof (settled_lookup _ _ _ Hs Hti) as Hst.
  rewrite (movePhase_settled _ _ _ _ _ _ Hst Hne).
  destruct (fst (currentSpan _ _ _ _)) as [[ts te]|]; cbn zeta.
  2: { cbn [fst snd]. now rewrite (insert_same_timeline _ _ _ Hti). }
  destruct (fst (calculateSchedule _ _)) as [rs|]; cbn zeta.
  2: { cbn [fst snd]. now rewrite (insert_same_timeline _ _ _ Hti). }
  destruct (existsb _ rs); cbn [fst snd].
  - rewrite (insert_same_timeline _ _ _ Hti).
    now rewrite (renderGantt_settled _ _ Hs).
  - rewrite rerender_settled; [reflexivity|].
    apply (settled_insert _ _ _ _ Hs Hti). simpl data.
    now rewrite (anchorSettled_set_phase _ _ _ _ Hpi) by reflexivity.
Qed.

(** ** C10: what an accepted move writes *)

(** C10.  When the move of a non-anchor phase by a non-zero number of days
    is accepted, in a state left by a render, the state after the call is the
    state before it with one change: in the dragged timeline the dragged
    phase has [isParallel] set and new [manualStartDate] and [manualEndDate].
    Its [days], name and id are the ones it had, and every other phase, the
    anchor settings, the other timelines, the holidays and the active
    timeline id are what they were. *)
Theorem accepted_move_frame (dom : Dom) (drag : GanttDragState)
    (deltaDays : Z) (s : AppState) (ti : nat) (t : Timeline) (pidx : nat)
    (p : Phase) :
  deltaDays ≠ 0 → dragType drag = DragMove →
  list_find (λ t, t_id t = timelineId drag) (timelines s) = Some (ti, t) →
  list_find (λ q, p_id q = phaseId drag) (phases (data t)) = Some (pidx, p) →
  p_id p ≠ anchorPhaseId (data t) →
  settled s = true →
  fst (applyGanttChange dom drag deltaDays s) = ExitCommitted →
  ∃ ms me,
    snd (applyGanttChange dom drag deltaDays s)
    = set_timelines
        (<[ti := set_data
                   (set_phase pidx
                      (mkPhase (p_id p) (p_name p) (days p) true ms me)
                      (data t)) t]> (timelines s)) s.
Proof.
  intros Hd Hty Ht Hp Hne Hs.
  rewrite (applyGanttChange_move_settled _ _ _ _ _ _ _ _ Hd Hty Ht Hp Hne Hs).
  destruct (fst (currentSpan _ _ _ _)) as [[ts te]|]; [|discriminate].
  destruct (fst (calculateSchedule _ _)) as [rs|]; [|discriminate].
  destruct (existsb _ rs); [discriminate|]. intros _.
  exists (iso (shiftDate ts deltaDays)), (iso (shiftDate te deltaDays)).
  reflexivity.
Qed.

Lemma accepted_move_frame_witness :
  let drag := mkDrag DragMove "1" "t1" 3 in
  let t := mkTimeline "t1" "Sprint 1" sampleData in
  let p := mkPhase "1" "A" 3 false NoStr NoStr in
  -3 ≠ 0 ∧ dragType drag = DragMove ∧
  list_find (λ t, t_id t = timelineId drag) (timelines sampleState)
  = Some (0%nat, t) ∧
  list_find (λ q, p_id q = phaseId drag) (phases (data t)) = Some (0%nat, p) ∧
  p_id p ≠ anchorPhaseId (data t) ∧
  settled sampleState = true ∧
  fst (applyGanttChange sampleDom drag (-3) sampleState) = ExitCommitted ∧
  ∃ ms me,
    snd (applyGanttChange sampleDom drag (-3) sampleState)
    = set_timelines
        (<[0%nat := set_data
                   (set_phase 0
                      (mkPhase (p_id p) (p_name p) (days p) true ms me)
                      (data t)) t]> (timelines sampleState)) sampleState.
Proof.
  intros drag t p.
  assert (-3 ≠ 0) as H1 by lia.
  assert (dragType drag = DragMove) as H2 by reflexivity.
  assert (list_find (λ t, t_id t = timelineId drag) (timelines sampleState)
          = Some (0%nat, t)) as H3 by reflexivity.
  assert (list_find (λ q, p_id q = phaseId drag) (phases (data t))
          = Some (0%nat, p)) as H4 by reflexivity.
  assert (p_id p ≠ anchorPhaseId (data t)) as H5 by discriminate.
  assert (settled sampleState = true) as H6 by reflexivity.
  assert (fst (applyGanttChange sampleDom drag (-3) sampleState)
          = ExitCommitted) as H7 by (vm_compute; reflexivity).
  repeat (split; [assumption|]).
  exact (accepted_move_frame sampleDom drag (-3) sampleState 0 t 0 p
           H1 H2 H3 H4 H5 H6 H7).
Defined.

Example accepted_move_example :
  snd (applyGanttChange sampleDom (mkDrag DragMove "1" "t1" 3) (-3) sampleState)
  = mkState "t1" []
      [mkTimeline "t1" "Sprint 1"
         (mkData (Ymd 19734) "3" AnchorEnd Asc
            [mkPhase "1" "A" 3 true (Ymd 19717) (Ymd 19721);
             mkPhase "2" "B" 3 false NoStr NoStr;
             mkPhase "3" "C" 5 false NoStr NoStr]);
       mkTimeline "t2" "Sprint 2"
         (mkData (Ymd 19750) "1" AnchorStart Desc
            [mkPhase "1" "X" 2 false NoStr NoStr])].
Proof. vm_compute. reflexivity. Qed.

(** ** The parallel flag under edits *)

Lemma calculateSchedule_phases hol d :
  phases (snd (calculateSchedule hol d)) = phases d.
Proof.
  destruct (truthy (anchorDate d)) eqn:Et.
  2: { now rewrite calculateSchedule_null by auto. }
  destruct (phases d) as [|p0 ps] eqn:Ep.
  { rewrite calculateSchedule_null by auto. exact Ep. }
  destruct (findAnchorIndex d) as [a|] eqn:Ef.
  - rewrite (calculateSchedule_found _ _ _ Et Ef). exact Ep.
  - rewrite (calculateSchedule_repair _ _ _ _ Et Ef Ep). exact Ep.
Qed.

Lemma currentSpan_phases hol d p pid :
  phases (snd (currentSpan hol d p pid)) = phases d.
Proof.
  unfold currentSpan.
  destruct (isParallel p && truthy (manualStartDate p)); [reflexivity|].
  pose proof (calculateSchedule_phases hol d) as H.
  destruct (calculateSchedule hol d) as [[sch|] d1]; simpl in *; trivial.
  destruct (list_find _ sch) as [[? ?]|]; exact H.
Qed.

Lemma parallelById_phases x d d' :
  phases d' = phases d → parallelById x d → parallelById x d'.
Proof. unfold parallelById. now intros ->. Qed.

Lemma parallelById_set_phase x d i q q' :
  phases d !! i = Some q → (p_id q' = x → isParallel q' = true) →
  parallelById x d → parallelById x (set_phase i q' d).
Proof.
  intros Hq Hq' H. unfold parallelById, set_phase. simpl.
  now apply Forall_insert.
Qed.

Lemma resizePhase_keeps d q initial delta :
  p_id (resizePhase d q initial delta) = p_id q ∧
  isParallel (resizePhase d q initial delta) = isParallel q.
Proof.
  unfold resizePhase. simpl. destruct (isParallel q) eqn:E; split; simpl; auto.
Qed.

Lemma movePhase_parallelById hol d pidx q pid delta x :
  phases d !! pidx = Some q → parallelById x d →
  parallelById x (snd (movePhase hol d pidx q pid delta)).
Proof.
  intros Hq H. unfold movePhase.
  destruct (bool_decide (p_id q = anchorPhaseId d)); [exact H|].
  pose proof (currentSpan_phases hol d q pid) as H1.
  destruct (currentSpan hol d q pid) as [[[ts te]|] d1]; simpl in H1.
  2: { simpl. now apply (parallelById_phases x d). }
  pose proof (calculateSchedule_phases hol d1) as H2.
  destruct (calculateSchedule hol d1) as [[rs|] d2]; simpl in H2.
  2: { simpl. apply (parallelById_phases x d); congruence. }
  assert (parallelById x d2) as Hd2
    by (apply (parallelById_phases x d); congruence).
  destruct (existsb _ rs); simpl; [exact Hd2|].
  apply (parallelById_set_phase x d2 pidx q); trivial; [congruence|].
  intros _. now rewrite commitMove_eq.
Qed.

Lemma ganttChangeData_parallelById hol drag delta d x :
  parallelById x d → parallelById x (snd (ganttChangeData hol drag delta d)).
Proof.
  intros H. unfold ganttChangeData.
  destruct (list_find _ _) as [[pidx q]|] eqn:Ef; [|exact H].
  apply list_find_Some in Ef as (Hq & _ & _).
  destruct (dragType drag).
  - now apply movePhase_parallelById.
  - simpl. apply (parallelById_set_phase x d pidx q); trivial.
    destruct (resizePhase_keeps d q (initialDays drag) delta) as [Hi Hp].
    rewrite Hi, Hp. intros Hx.
    unfold parallelById in H. now apply (Forall_lookup_1 _ _ _ _ H Hq).
Qed.

Lemma editPhase_keeps e d q :
  (∀ idx checked, e ≠ EditParallel idx checked) →
  p_id (editPhase e d q) = p_id q ∧ isParallel (editPhase e d q) = isParallel q.
Proof.
  intros Hne. destruct e; simpl; try (split; reflexivity).
  - now destruct (Hne idx checked).
  - unfold refreshDays. destruct (getDaysDiff _ _); split; reflexivity.
  - unfold refreshDays. destruct (getDaysDiff _ _); split; reflexivity.
  - destruct (isParallel q) eqn:E; simpl; auto.
Qed.

Lemma editParallel_id idx checked d q :
  p_id (editPhase (EditParallel idx checked) d q) = p_id q.
Proof.
  destruct q as [i n dd par ms me]. simpl.
  destruct (bool_decide _); [reflexivity|].
  destruct checked; simpl; [|reflexivity].
  destruct (truthy ms); simpl; destruct (truthy me); reflexivity.
Qed.

(** An edit that does not interfere with the phases of id [x] leaves them
    parallel. *)
Lemma applyEdit_parallelById hol x e d :
  ¬ interferes x e d → parallelById x d → parallelById x (applyEdit hol e d).
Proof.
  intros Hq H.
  assert (∀ idx q, phases d !! idx = Some q →
                   p_id q = x → isParallel q = true) as Hat.
  { intros idx q Hl. unfold parallelById in H.
    apply (Forall_lookup_1 _ _ _ _ H Hl). }
  destruct e; unfold applyEdit; cbv beta iota;
    try (destruct (phases d !! idx) as [q|] eqn:El; [|exact H]);
    try exact H.
  - apply (parallelById_set_phase x d idx q _ El); [|exact H].
    destruct (editPhase_keeps (EditName idx value) d q) as [-> ->];
      [discriminate|]. eauto.
  - apply (parallelById_set_phase x d idx q _ El); [|exact H].
    rewrite editParallel_id. intros Hx. exfalso. apply Hq. simpl. eauto.
  - apply (parallelById_set_phase x d idx q _ El); [|exact H].
    destruct (editPhase_keeps (EditManualStart idx value) d q) as [-> ->];
      [discriminate|]. eauto.
  - apply (parallelById_set_phase x d idx q _ El); [|exact H].
    destruct (editPhase_keeps (EditManualEnd idx value) d q) as [-> ->];
      [discriminate|]. eauto.
  - apply (parallelById_set_phase x d idx q _ El); [|exact H].
    destruct (editPhase_keeps (EditDays idx val) d q) as [-> ->];
      [discriminate|]. eauto.
  - assert (parallelById x (set_phases (delete idx (phases d)) d)) as Hdel
      by (unfold parallelById; simpl; now apply Forall_delete).
    destruct (bool_decide _); exact Hdel.
  - destruct (bool_decide (fromIdx = toIdx)); [exact H|].
    destruct (phases d !! fromIdx) as [q|] eqn:El; [|exact H].
    unfold parallelById. simpl.
    assert (Forall (λ q, p_id q = x → isParallel q = true)
              (delete fromIdx (phases d))) as Hdel by now apply Forall_delete.
    apply Forall_app. split; [now apply Forall_take|].
    apply Forall_cons. split; [eauto | now apply Forall_drop].
  - unfold parallelById. simpl. apply Forall_app. split; [exact H|].
    apply Forall_cons. split; [|constructor]. simpl. intros Hx.
    exfalso. apply Hq. exact Hx.
  - apply (parallelById_phases x d); [apply calculateSchedule_phases|exact H].
  - destruct (deltaDays =? 0); [exact H|].
    now apply ganttChangeData_parallelById.
Qed.

Lemma applyEdits_parallelById hol x es d :
  quiet hol x es d → parallelById x d → parallelById x (applyEdits hol es d).
Proof.
  revert d. induction es as [|e es IH]; intros d Hq H; [exact H|].
  destruct Hq as [Hq1 Hq2]. simpl. apply IH; [exact Hq2|].
  now apply applyEdit_parallelById.
Qed.

(** An unrelated edit after the move: renaming B leaves A parallel. *)
Example promotion_survives_rename :
  let d := data (mkTimeline "t1" "Sprint 1"
             (mkData (Ymd 19734) "3" AnchorEnd Asc
                [mkPhase "1" "A" 3 true (Ymd 19717) (Ymd 19721);
                 mkPhase "2" "B" 3 false NoStr NoStr;
                 mkPhase "3" "C" 5 false NoStr NoStr])) in
  phases (applyEdits [] [EditName 1 "B2"; EditRender] d) !! 0%nat
  = Some (mkPhase "1" "A" 3 true (Ymd 19717) (Ymd 19721)).
Proof. vm_compute. reflexivity. Qed.

(** The span the move starts from is the span the engine resolves for the
    phase, as long as a parallel phase carries both of its manual dates. *)
Lemma currentSpan_resolved hol d rs a pidx p :
  calculateSchedule hol d = (Some rs, d) → findAnchorIndex d = Some a →
  NoDup (p_id <$> phases d) → phases d !! pidx = Some p → pidx ≠ a →
  (isParallel p = true → truthy (manualStartDate p) = true →
   truthy (manualEndDate p) = true) →
  ∃ r, rs !! pidx = Some r ∧
       fst (currentSpan hol d p (p_id p)) = Some (startDate r, endDate r).
Proof.
  intros Hc Hf Hnd Hp Hne Hman.
  destruct (findAnchorIndex_lookup _ _ Hf) as (pa & Hpa & _).
  assert (truthy (anchorDate d) = true) as Ht.
  { destruct (truthy (anchorDate d)) eqn:E; trivial.
    rewrite calculateSchedule_null in Hc by auto. discriminate. }
  rewrite (calculateSchedule_found_list _ _ _ _ Ht Hf Hpa) in Hc.
  injection Hc as <-.
  destruct (scheduleList_lookup_other hol d a pa pidx p Hpa Hne Hp)
    as (r & Hr & Hid & _ & Hpar).
  exists r. split; [exact Hr|]. unfold currentSpan.
  destruct (isParallel p && truthy (manualStartDate p)) eqn:E.
  - apply andb_true_iff in E as [E1 E2]. rewrite (Hpar E1).
    unfold parallelItem. simpl. now rewrite E2, (Hman E1 E2).
  - rewrite (calculateSchedule_found_list _ _ _ _ Ht Hf Hpa).
    assert (list_find (λ i, r_id i = p_id p) (scheduleList hol d a pa)
            = Some (pidx, r)) as ->; [|reflexivity].
    apply list_find_Some. repeat split; trivial.
    intros j y Hy Hlt Heq.
    assert ((p_id <$> phases d) !! j = Some (p_id p)) as Hj.
    { rewrite <- (scheduleList_ids hol d a pa Hpa), list_lookup_fmap, Hy.
      simpl. now rewrite Heq. }
    rewrite list_lookup_fmap in Hj.
    destruct (phases d !! j) as [q|] eqn:Hq; [|discriminate].
    injection Hj as Hj.
    pose proof (NoDup_id_index _ _ _ _ _ Hnd Hq Hp Hj). lia.
Qed.

(** ** C8: resize *)

(** What a resize writes, in general: the stored days are clamped at 1, the
    end date of a parallel phase is moved by the unclamped sum. *)
Lemma resizePhase_fields d q initial delta :
  days (resizePhase d q initial delta) = Z.max 1 (initial + delta) ∧
  (isParallel q = true →
   manualEndDate (resizePhase d q initial delta)
   = iso (shiftDate (newDate (orElse (manualStartDate q) (anchorDate d)))
            (initial + delta))) ∧
  (isParallel q = false →
   manualEndDate (resizePhase d q initial delta) = manualEndDate q).
Proof.
  unfold resizePhase. simpl.
  destruct (isParallel q); repeat split; trivial; discriminate.
Qed.

(** C8, where the code departs from it.  A parallel phase of 3 days from
    Monday 2024-01-08, resized by -5: the stored days become
    [max(1, 3 - 5) = 1], but [manualEndDate] is set 2 days before
    [manualStartDate], not [newDuration = 1] day after it. *)
Theorem resize_end_uses_unclamped_days :
  let s := mkState "t1" []
             [mkTimeline "t1" "Sprint 1"
                (mkData (Ymd 19734) "3" AnchorEnd Asc
                   [mkPhase "1" "A" 3 false NoStr NoStr;
                    mkPhase "2" "B" 3 true (Ymd 19730) (Ymd 19732);
                    mkPhase "3" "C" 5 false NoStr NoStr])] in
  let newDuration := Z.max 1 (3 + -5) in
  applyGanttChange sampleDom (mkDrag DragResize "2" "t1" 3) (-5) s
  = (ExitCommitted,
     mkState "t1" []
       [mkTimeline "t1" "Sprint 1"
          (mkData (Ymd 19734) "3" AnchorEnd Asc
             [mkPhase "1" "A" 3 false NoStr NoStr;
              mkPhase "2" "B" newDuration true (Ymd 19730) (Ymd (19730 - 2));
              mkPhase "3" "C" 5 false NoStr NoStr])])
  ∧ Ymd (19730 - 2) ≠ iso (shiftDate (newDate (Ymd 19730)) newDuration).
Proof. split; [vm_compute; reflexivity | discriminate]. Qed.

(** ** Every render settles the state *)

(** The chart is drawn from a run of the engine on every timeline, so a
    drag always starts from a settled state. *)
Lemma renderGantt_settles dom s :
  hasGanttContainer dom = true → settled (renderGantt dom s) = true.
Proof.
  intros H. unfold renderGantt. rewrite H. apply settled_Forall. simpl.
  apply Forall_fmap, Forall_forall. intros t _. simpl.
  apply calculateSchedule_settles.
Qed.

(** * Further properties of the code *)

(** ** Business-day arithmetic with holidays *)

Lemma countWorking_last hol a k :
  isWorkingDay hol (Day (a + Z.of_nat k)) = true →
  countWorking hol a (S k) = countWorking hol a k + 1.
Proof. intros H. now rewrite countWorking_snoc, H. Qed.

Lemma countWorking_split hol a b c :
  a ≤ b → b ≤ c →
  countWorking hol a (Z.to_nat (c - a))
  = countWorking hol a (Z.to_nat (b - a)) + countWorking hol b (Z.to_nat (c - b)).
Proof.
  intros Hab Hbc.
  replace (Z.to_nat (c - a)) with (Z.to_nat (b - a) + Z.to_nat (c - b))%nat
    by lia.
  rewrite countWorking_app. do 2 f_equal. lia.
Qed.

Lemma countWorking_upto_working hol a e :
  a ≤ e → isWorkingDay hol (Day e) = true →
  countWorking hol a (Z.to_nat (e + 1 - a))
  = countWorking hol a (Z.to_nat (e - a)) + 1.
Proof.
  intros Hle Hw.
  replace (Z.to_nat (e + 1 - a)) with (S (Z.to_nat (e - a))) by lia.
  apply countWorking_last. now replace (a + Z.of_nat (Z.to_nat (e - a))) with e by lia.
Qed.

(** The [n]-th working day after [d] is unique. *)
Lemma nth_after_unique hol d e e' n :
  d < e → isWorkingDay hol (Day e) = true →
  countWorking hol (d + 1) (Z.to_nat (e - d)) = n →
  d < e' → isWorkingDay hol (Day e') = true →
  countWorking hol (d + 1) (Z.to_nat (e' - d)) = n →
  e = e'.
Proof.
  assert (∀ x y, d < x → x < y → isWorkingDay hol (Day y) = true →
                 countWorking hol (d + 1) (Z.to_nat (x - d))
                 < countWorking hol (d + 1) (Z.to_nat (y - d))) as Hlt.
  { intros x y Hx Hxy Hwy.
    replace (x - d) with (x + 1 - (d + 1)) by lia.
    replace (y - d) with (y + 1 - (d + 1)) by lia.
    rewrite (countWorking_split hol (d + 1) (x + 1) (y + 1)) by lia.
    replace (y + 1 - (x + 1)) with (y + 1 - (x + 1)) by lia.
    rewrite (countWorking_upto_working hol (x + 1) y) by (trivial; lia).
    pose proof (countWorking_bounds hol (x + 1) (Z.to_nat (y - (x + 1)))). lia. }
  intros Hde Hwe Hce Hde' Hwe' Hce'.
  destruct (Z.lt_trichotomy e e') as [H|[H|H]]; trivial.
  - pose proof (Hlt e e' Hde H Hwe'). lia.
  - pose proof (Hlt e' e Hde' H Hwe). lia.
Qed.

(** So is the [n]-th working day before [d]. *)
Lemma nth_before_unique hol d e e' n :
  e < d → isWorkingDay hol (Day e) = true →
  countWorking hol e (Z.to_nat (d - e)) = n →
  e' < d → isWorkingDay hol (Day e') = true →
  countWorking hol e' (Z.to_nat (d - e')) = n →
  e = e'.
Proof.
  assert (∀ x y, x < y → y < d → isWorkingDay hol (Day x) = true →
                 countWorking hol y (Z.to_nat (d - y))
                 < countWorking hol x (Z.to_nat (d - x))) as Hlt.
  { intros x y Hxy Hy Hwx.
    rewrite (countWorking_split hol x y d) by lia.
    pose proof (countWorking_pos hol x (Z.to_nat (y - x)) Hwx). lia. }
  intros Hde Hwe Hce Hde' Hwe' Hce'.
  destruct (Z.lt_trichotomy e e') as [H|[H|H]]; trivial.
  - pose proof (Hlt e e' H Hde' Hwe). lia.
  - pose proof (Hlt e' e H Hde Hwe'). lia.
Qed.

Lemma addBusinessDays_intro hol d e n :
  d < e → isWorkingDay hol (Day e) = true →
  countWorking hol (d + 1) (Z.to_nat (e - d)) = n →
  addBusinessDays hol (Day d) n = Day e.
Proof.
  intros Hde Hwe Hc.
  assert (0 < n).
  { replace (e - d) with (e + 1 - (d + 1)) in Hc by lia.
    rewrite countWorking_upto_working in Hc by (trivial; lia).
    pose proof (countWorking_bounds hol (d + 1) (Z.to_nat (e - (d + 1)))). lia. }
  destruct (addBusinessDays_pos hol d n) as (e' & -> & He' & Hwe' & Hc');
    [lia|].
  f_equal. now apply (nth_after_unique hol d e' e n).
Qed.

Lemma subBusinessDays_intro hol d e n :
  e < d → isWorkingDay hol (Day e) = true →
  countWorking hol e (Z.to_nat (d - e)) = n →
  subBusinessDays hol (Day d) n = Day e.
Proof.
  intros Hde Hwe Hc.
  assert (0 < n).
  { pose proof (countWorking_pos hol e (Z.to_nat (d - e)) Hwe). lia. }
  destruct (subBusinessDays_pos hol d n) as (e' & -> & He' & Hwe' & Hc');
    [lia|].
  f_equal. now apply (nth_before_unique hol d e' e n).
Qed.

Lemma stepBody_invalid_loop hol dir fuel n :
  (Z.to_nat n ≤ fuel)%nat →
  fst <$> while fuel stepCond (stepBody hol dir) (InvalidDate, n)
  = Some InvalidDate.
Proof.
  intros H. destruct (step_invalid hol dir fuel n H) as [m ->]. reflexivity.
Qed.

Lemma addBusinessDays_invalid hol n :
  addBusinessDays hol InvalidDate n = InvalidDate.
Proof.
  unfold addBusinessDays, addBusinessDays_loop.
  change (addBusinessDays_body hol) with (stepBody hol 1).
  change (λ st : JsDate * Z, snd st >? 0) with stepCond.
  rewrite stepBody_invalid_loop; [reflexivity|].
  unfold stepFuel, gapBound. nia.
Qed.

Lemma subBusinessDays_invalid hol n :
  subBusinessDays hol InvalidDate n = InvalidDate.
Proof.
  unfold subBusinessDays, subBusinessDays_loop.
  change (subBusinessDays_body hol) with (stepBody hol (-1)).
  change (λ st : JsDate * Z, snd st >? 0) with stepCond.
  rewrite stepBody_invalid_loop; [reflexivity|].
  unfold stepFuel, gapBound. nia.
Qed.

(** X1.  The loops of [subBusinessDays] and [addBusinessDays] end by their
    own condition for every holiday list and every start date: within
    [n * 7 * (holidays + 1)] iterations [daysLeft] has reached 0, and more
    iterations allowed change nothing. *)
Theorem business_day_loops_terminate (hol : list Z) (date : JsDate) (n : Z)
    (fuel : nat) :
  (Z.to_nat n * (7 * (length hol + 1)) ≤ fuel)%nat →
  subBusinessDays_loop fuel hol date n = Some (subBusinessDays hol date n) ∧
  addBusinessDays_loop fuel hol date n = Some (addBusinessDays hol date n).
Proof.
  intros H. split.
  - now apply subBusinessDays_loop_enough.
  - now apply addBusinessDays_loop_enough.
Qed.

Lemma business_day_loops_terminate_witness :
  let hol : list Z := [19725; 19726] in
  (Z.to_nat 3 * (7 * (length hol + 1)) ≤ 63)%nat ∧
  subBusinessDays_loop 63 hol (Day 19727) 3
  = Some (subBusinessDays hol (Day 19727) 3) ∧
  addBusinessDays_loop 63 hol (Day 19727) 3
  = Some (addBusinessDays hol (Day 19727) 3).
Proof.
  intros hol.
  assert (Z.to_nat 3 * (7 * (length hol + 1)) ≤ 63)%nat as H
    by (simpl; lia).
  split; [exact H|].
  exact (business_day_loops_terminate hol (Day 19727) 3 63 H).
Defined.

(** X2.  For [n ≥ 1], [addBusinessDays] of a valid date [d] returns the
    [n]-th working day after [d]: a working day later than [d] with exactly
    [n] working days from the day after [d] up to it, and the only such
    day, whatever the holidays and whether or not [d] itself is a working
    day. *)
Theorem addBusinessDays_nth_working_day (hol : list Z) (d n : Z) :
  0 < n →
  ∃ e, addBusinessDays hol (Day d) n = Day e ∧ d < e ∧
       isWorkingDay hol (Day e) = true ∧
       workingDaysIn hol (d + 1) e = n ∧
       ∀ e', d < e' → isWorkingDay hol (Day e') = true →
             workingDaysIn hol (d + 1) e' = n → e' = e.
Proof.
  intros Hn.
  destruct (addBusinessDays_pos hol d n Hn) as (e & He & Hde & Hwe & Hc).
  exists e. unfold workingDaysIn.
  replace (e - (d + 1) + 1) with (e - d) by lia.
  repeat split; trivial.
  intros e' Hde' Hwe' Hc'.
  replace (e' - (d + 1) + 1) with (e' - d) in Hc' by lia.
  now apply (nth_after_unique hol d e' e n).
Qed.

Lemma addBusinessDays_nth_working_day_witness :
  0 < 2 ∧
  ∃ e, addBusinessDays [19730] (Day 19727) 2 = Day e ∧ 19727 < e ∧
       isWorkingDay [19730] (Day e) = true ∧
       workingDaysIn [19730] (19727 + 1) e = 2 ∧
       ∀ e', 19727 < e' → isWorkingDay [19730] (Day e') = true →
             workingDaysIn [19730] (19727 + 1) e' = 2 → e' = e.
Proof.
  assert (0 < 2) as H by lia.
  split; [exact H|]. exact (addBusinessDays_nth_working_day [19730] 19727 2 H).
Defined.

(** X3.  For [n ≥ 1], [subBusinessDays] of a valid date [d] returns the
    [n]-th working day before [d]: a working day earlier than [d] with
    exactly [n] working days from it up to the day before [d], and the only
    such day. *)
Theorem subBusinessDays_nth_working_day (hol : list Z) (d n : Z) :
  0 < n →
  ∃ e, subBusinessDays hol (Day d) n = Day e ∧ e < d ∧
       isWorkingDay hol (Day e) = true ∧
       workingDaysIn hol e (d - 1) = n ∧
       ∀ e', e' < d → isWorkingDay hol (Day e') = true →
             workingDaysIn hol e' (d - 1) = n → e' = e.
Proof.
  intros Hn.
  destruct (subBusinessDays_pos hol d n Hn) as (e & He & Hde & Hwe & Hc).
  exists e. unfold workingDaysIn.
  replace (d - 1 - e + 1) with (d - e) by lia.
  repeat split; trivial.
  intros e' Hde' Hwe' Hc'.
  replace (d - 1 - e' + 1) with (d - e') in Hc' by lia.
  now apply (nth_before_unique hol d e' e n).
Qed.

Lemma subBusinessDays_nth_working_day_witness :
  0 < 2 ∧
  ∃ e, subBusinessDays [19727] (Day 19730) 2 = Day e ∧ e < 19730 ∧
       isWorkingDay [19727] (Day e) = true ∧
       workingDaysIn [19727] e (19730 - 1) = 2 ∧
       ∀ e', e' < 19730 → isWorkingDay [19727] (Day e') = true →
             workingDaysIn [19727] e' (19730 - 1) = 2 → e' = e.
Proof.
  assert (0 < 2) as H by lia.
  split; [exact H|]. exact (subBusinessDays_nth_working_day [19727] 19730 2 H).
Defined.

Lemma add_sub_roundtrip hol d n :
  isWorkingDay hol (Day d) = true → 0 ≤ n →
  addBusinessDays hol (subBusinessDays hol (Day d) n) n = Day d.
Proof.
  intros Hw Hn. destruct (decide (n = 0)) as [->|Hne].
  { now rewrite subBusinessDays_nonpos, addBusinessDays_nonpos. }
  destruct (subBusinessDays_pos hol d n) as (e & -> & He & Hwe & Hc); [lia|].
  apply addBusinessDays_intro; trivial.
  replace (d - e) with (d + 1 - (e + 1)) by lia.
  rewrite countWorking_upto_working by (trivial; lia).
  rewrite (countWorking_split hol e (e + 1) d) in Hc by lia.
  replace (Z.to_nat (e + 1 - e)) with 1%nat in Hc by lia.
  simpl countWorking in Hc. rewrite Hwe in Hc. lia.
Qed.

(** X4.  With any holidays, from a working day [d] and for [n ≥ 0], adding
    and then subtracting [n] working days gives [d] back, and so does
    subtracting and then adding them. *)
Theorem business_days_round_trip (hol : list Z) (d n : Z) :
  isWorkingDay hol (Day d) = true → 0 ≤ n →
  subBusinessDays hol (addBusinessDays hol (Day d) n) n = Day d ∧
  addBusinessDays hol (subBusinessDays hol (Day d) n) n = Day d.
Proof.
  intros Hw Hn. split; [now apply sub_add_roundtrip | now apply add_sub_roundtrip].
Qed.

Lemma business_days_round_trip_witness :
  isWorkingDay [19730; 19731] (Day 19727) = true ∧ 0 ≤ 4 ∧
  subBusinessDays [19730; 19731]
    (addBusinessDays [19730; 19731] (Day 19727) 4) 4 = Day 19727 ∧
  addBusinessDays [19730; 19731]
    (subBusinessDays [19730; 19731] (Day 19727) 4) 4 = Day 19727.
Proof.
  assert (isWorkingDay [19730; 19731] (Day 19727) = true) as H1 by reflexivity.
  assert (0 ≤ 4) as H2 by lia.
  split; [exact H1|]. split; [exact H2|].
  exact (business_days_round_trip [19730; 19731] 19727 4 H1 H2).
Defined.

Lemma addBusinessDays_add_Day hol d m n :
  0 ≤ m → 0 ≤ n →
  addBusinessDays hol (addBusinessDays hol (Day d) m) n
  = addBusinessDays hol (Day d) (m + n).
Proof.
  intros Hm Hn. destruct (decide (m = 0)) as [->|Hm0].
  { now rewrite (addBusinessDays_nonpos hol (Day d) 0) by lia. }
  destruct (decide (n = 0)) as [->|Hn0].
  { rewrite Z.add_0_r. now rewrite (addBusinessDays_nonpos _ _ 0) by lia. }
  destruct (addBusinessDays_pos hol d m) as (e1 & -> & H1 & Hw1 & Hc1); [lia|].
  destruct (addBusinessDays_pos hol e1 n) as (e2 & -> & H2 & Hw2 & Hc2); [lia|].
  symmetry. apply addBusinessDays_intro; trivial; [lia|].
  replace (e2 - d) with (e2 + 1 - (d + 1)) by lia.
  rewrite (countWorking_split hol (d + 1) (e1 + 1) (e2 + 1)) by lia.
  replace (e1 + 1 - (d + 1)) with (e1 - d) by lia.
  replace (e2 + 1 - (e1 + 1)) with (e2 - e1) by lia. lia.
Qed.

Lemma subBusinessDays_add_Day hol d m n :
  0 ≤ m → 0 ≤ n →
  subBusinessDays hol (subBusinessDays hol (Day d) m) n
  = subBusinessDays hol (Day d) (m + n).
Proof.
  intros Hm Hn. destruct (decide (m = 0)) as [->|Hm0].
  { now rewrite (subBusinessDays_nonpos hol (Day d) 0) by lia. }
  destruct (decide (n = 0)) as [->|Hn0].
  { rewrite Z.add_0_r. now rewrite (subBusinessDays_nonpos _ _ 0) by lia. }
  destruct (subBusinessDays_pos hol d m) as (e1 & -> & H1 & Hw1 & Hc1); [lia|].
  destruct (subBusinessDays_pos hol e1 n) as (e2 & -> & H2 & Hw2 & Hc2); [lia|].
  symmetry. apply subBusinessDays_intro; trivial; [lia|].
  rewrite (countWorking_split hol e2 e1 d) by lia. lia.
Qed.

(** X5.  Steps add up: for [m, n ≥ 0] and any start date, valid or not,
    [m] working days followed by [n] more is [m + n] working days, forward
    and backward. *)
Theorem business_days_additive (hol : list Z) (date : JsDate) (m n : Z) :
  0 ≤ m → 0 ≤ n →
  addBusinessDays hol (addBusinessDays hol date m) n
  = addBusinessDays hol date (m + n) ∧
  subBusinessDays hol (subBusinessDays hol date m) n
  = subBusinessDays hol date (m + n).
Proof.
  intros Hm Hn. destruct date as [d|].
  - split; [now apply addBusinessDays_add_Day | now apply subBusinessDays_add_Day].
  - now rewrite !addBusinessDays_invalid, !subBusinessDays_invalid.
Qed.

Lemma business_days_additive_witness :
  0 ≤ 2 ∧ 0 ≤ 3 ∧
  addBusinessDays [19730] (addBusinessDays [19730] (Day 19728) 2) 3
  = addBusinessDays [19730] (Day 19728) (2 + 3) ∧
  subBusinessDays [19730] (subBusinessDays [19730] (Day 19728) 2) 3
  = subBusinessDays [19730] (Day 19728) (2 + 3).
Proof.
  assert (0 ≤ 2) as H1 by lia. assert (0 ≤ 3) as H2 by lia.
  split; [exact H1|]. split; [exact H2|].
  exact (business_days_additive [19730] (Day 19728) 2 3 H1 H2).
Defined.

(** ** The calendar: weeks and nearest working days *)

Lemma includes_shift c hol d :
  includes (shiftHolidays c hol) (Ymd (d + c)) = includes hol (Ymd d).
Proof.
  unfold includes, shiftHolidays. induction hol as [|h hol IH]; [reflexivity|].
  rewrite fmap_cons. cbn [existsb]. rewrite IH. f_equal.
  destruct (Z.eqb_spec (d + c) (h + c)), (Z.eqb_spec d h); trivial; lia.
Qed.

(** Moving a day and the holidays by whole weeks does not change whether
    the day is a working day. *)
Lemma isWorkingDay_shift hol d k :
  isWorkingDay (shiftHolidays (7 * k) hol) (Day (d + 7 * k))
  = isWorkingDay hol (Day d).
Proof.
  unfold isWorkingDay, isWeekend, isHoliday, normalizeDateStr.
  change (iso (Day (d + 7 * k))) with (Ymd (d + 7 * k)).
  change (iso (Day d)) with (Ymd d).
  rewrite (includes_shift (7 * k) hol d). unfold getDay.
  replace ((d + 7 * k + 4) mod 7) with ((d + 4) mod 7); [reflexivity|].
  replace (d + 7 * k + 4) with (d + 4 + k * 7) by lia.
  now rewrite Z_mod_plus_full.
Qed.

Lemma countWorking_shift hol a k n :
  countWorking (shiftHolidays (7 * k) hol) (a + 7 * k) n
  = countWorking hol a n.
Proof.
  revert a. induction n as [|n IH]; intros a; [reflexivity|]. simpl.
  rewrite isWorkingDay_shift.
  replace (a + 7 * k + 1) with (a + 1 + 7 * k) by lia. now rewrite IH.
Qed.

Lemma countWorking_week a : countWorking [] a 7 = 5.
Proof.
  pose proof (countWorking_shift [] (a mod 7) (a / 7) 7) as H.
  change (shiftHolidays (7 * (a / 7)) []) with (@nil Z) in H.
  replace (a mod 7 + 7 * (a / 7)) with a in H
    by (Z.div_mod_to_equations; lia).
  rewrite H.
  assert (a mod 7 = 0 ∨ a mod 7 = 1 ∨ a mod 7 = 2 ∨ a mod 7 = 3 ∨
          a mod 7 = 4 ∨ a mod 7 = 5 ∨ a mod 7 = 6) as Hr
    by (Z.div_mod_to_equations; lia).
  destruct Hr as [->|[->|[->|[->|[->|[->| ->]]]]]]; reflexivity.
Qed.

(** X6.  With no holidays, any 7 consecutive days hold exactly 5 working
    days, the two others being the Saturday and the Sunday; and for any
    holiday list a valid date is a working day exactly when it is a working
    day of the plain week and is not listed. *)
Theorem week_has_five_working_days (hol : list Z) (a d : Z) :
  countWorking [] a 7 = 5 ∧
  (isWorkingDay [] (Day d) = true ↔
   getDay (Day d) ≠ Num 0 ∧ getDay (Day d) ≠ Num 6) ∧
  (isWorkingDay hol (Day d) = true ↔
   isWorkingDay [] (Day d) = true ∧ d ∉ hol).
Proof.
  split; [apply countWorking_week|].
  rewrite !isWorkingDay_Day. simpl. split.
  - split.
    + intros (H0 & H6 & _). split; congruence.
    + intros [H0 H6]. repeat split; try congruence. apply not_elem_of_nil.
  - split.
    + intros (H0 & H6 & Hh). repeat split; trivial. apply not_elem_of_nil.
    + intros [(H0 & H6 & _) Hh]. auto.
Qed.

Lemma ensureForward_fixed hol date :
  isWorkingDay hol date = true → ensureWorkingDayForward hol date = date.
Proof.
  intros H. unfold ensureWorkingDayForward, ensureWorkingDayForward_loop.
  rewrite while_false; [reflexivity|]. now rewrite H.
Qed.

Lemma ensureBackward_fixed hol date :
  isWorkingDay hol date = true → ensureWorkingDayBackward hol date = date.
Proof.
  intros H. unfold ensureWorkingDayBackward, ensureWorkingDayBackward_loop.
  rewrite while_false; [reflexivity|]. now rewrite H.
Qed.

(** X7.  [ensureWorkingDayForward] returns the first working day on or
    after a valid date and [ensureWorkingDayBackward] the last one on or
    before it: no working day lies between the date and the result, a
    working day is returned as it is, applying the function again changes
    nothing, and both loops end within [7 * (holidays + 1)] iterations. *)
Theorem ensureWorkingDay_nearest (hol : list Z) (d : Z) :
  ∃ f b,
    ensureWorkingDayForward hol (Day d) = Day f ∧
    ensureWorkingDayBackward hol (Day d) = Day b ∧
    b ≤ d ≤ f ∧
    isWorkingDay hol (Day f) = true ∧ isWorkingDay hol (Day b) = true ∧
    (∀ x, d ≤ x < f → isWorkingDay hol (Day x) = false) ∧
    (∀ x, b < x ≤ d → isWorkingDay hol (Day x) = false) ∧
    (isWorkingDay hol (Day d) = true → f = d ∧ b = d) ∧
    ensureWorkingDayForward hol (Day f) = Day f ∧
    ensureWorkingDayBackward hol (Day b) = Day b ∧
    (∀ fuel, (7 * (length hol + 1) ≤ fuel)%nat →
       ensureWorkingDayForward_loop fuel hol (Day d) = Some (Day f) ∧
       ensureWorkingDayBackward_loop fuel hol (Day d) = Some (Day b)).
Proof.
  destruct (ensureWorkingDayForward_Day hol d) as (f & Hf & Hdf & Hwf & Hcf).
  destruct (ensureWorkingDayBackward_Day hol d) as (b & Hb & Hbd & Hwb & Hcb).
  exists f, b. split; [exact Hf|]. split; [exact Hb|].
  split; [lia|]. split; [exact Hwf|]. split; [exact Hwb|].
  assert (∀ x, d ≤ x < f → isWorkingDay hol (Day x) = false) as Hnf.
  { intros x Hx. apply (proj1 (countWorking_zero hol d _) Hcf). lia. }
  assert (∀ x, b < x ≤ d → isWorkingDay hol (Day x) = false) as Hnb.
  { intros x Hx. apply (proj1 (countWorking_zero hol (b + 1) _) Hcb). lia. }
  split; [exact Hnf|]. split; [exact Hnb|]. split.
  { intros Hw. split.
    - destruct (decide (f = d)) as [|Hne]; trivial.
      rewrite (Hnf d) in Hw by lia. discriminate.
    - destruct (decide (b = d)) as [|Hne]; trivial.
      rewrite (Hnb d) in Hw by lia. discriminate. }
  split; [now apply ensureForward_fixed|].
  split; [now apply ensureBackward_fixed|].
  intros fuel Hfuel. split.
  - rewrite ensureWorkingDayForward_loop_enough by exact Hfuel. now rewrite Hf.
  - rewrite ensureWorkingDayBackward_loop_enough by exact Hfuel. now rewrite Hb.
Qed.

(** ** The engine: shape and size of the schedule *)

(** A relation that holds along both chains holds between the phase list and
    the schedule.  [Q] is what is known of the running reference date. *)
Section ChainRelation.
Variables (hol : list Z) (d : TimelineData).
Variables (R : Phase → ResultItem → Prop) (Q : JsDate → Prop).
Hypothesis Hpar : ∀ p, isParallel p = true → R p (parallelItem hol d p).
Hypothesis Hback : ∀ p ref, isParallel p = false → Q ref →
  R p (precedingItem hol p ref) ∧ Q (startDate (precedingItem hol p ref)).
Hypothesis Hfwd : ∀ p ref, isParallel p = false → Q ref →
  R p (succeedingItem hol p ref) ∧ Q (endDate (succeedingItem hol p ref)).

Lemma backChain_rel ps ref :
  Q ref → Forall2 R ps (backChain hol d ref ps).
Proof.
  revert ref. induction ps as [|p ps IH]; intros ref Hq; [constructor|].
  destruct (isParallel p) eqn:E.
  - simpl. rewrite E. constructor; [now apply Hpar | now apply IH].
  - rewrite (backChain_seq _ _ _ _ _ E).
    destruct (Hback p ref E Hq) as [Hr Hq']. constructor; [exact Hr|].
    now apply IH.
Qed.

Lemma forwardChain_rel ps ref :
  Q ref → Forall2 R ps (forwardChain hol d ref ps).
Proof.
  revert ref. induction ps as [|p ps IH]; intros ref Hq; [constructor|].
  destruct (isParallel p) eqn:E.
  - simpl. rewrite E. constructor; [now apply Hpar | now apply IH].
  - rewrite (forwardChain_seq _ _ _ _ _ E).
    destruct (Hfwd p ref E Hq) as [Hr Hq']. constructor; [exact Hr|].
    now apply IH.
Qed.

Lemma scheduleList_rel a pa :
  phases d !! a = Some pa → R pa (anchorItem hol d pa) →
  Q (fst (anchorSpan hol d pa)) → Q (snd (anchorSpan hol d pa)) →
  Forall2 R (phases d) (scheduleList hol d a pa).
Proof.
  intros Hpa Hra Hqs Hqe. unfold scheduleList.
  rewrite <- (take_drop_middle _ _ _ Hpa) at 1.
  apply Forall2_app.
  - rewrite <- (reverse_involutive (take a (phases d))) at 1.
    apply Forall2_reverse, backChain_rel, Hqs.
  - constructor; [exact Hra|]. apply forwardChain_rel, Hqe.
Qed.
End ChainRelation.

Lemma parallelItem_keeps hol d p : keepsFields p (parallelItem hol d p).
Proof. repeat split. Qed.

(** X8.  Whenever the engine returns a schedule, the array it built has
    every slot written, one entry per phase in the order of the phase list;
    each entry carries the id, name, mode and manual dates of its phase, and
    the entry of a sequential phase, and of the anchor, carries its stored
    days. *)
Theorem schedule_shape (hol : list Z) (data data' : TimelineData)
    (rs : list ResultItem) :
  calculateSchedule hol data = (Some rs, data') →
  Forall2 keepsFields (phases data) rs ∧
  length rs = length (phases data) ∧
  (∃ a pa, findAnchorIndex data' = Some a ∧ phases data !! a = Some pa ∧
           scheduleSlots hol data' a pa = Some <$> rs ∧
           ∃ r, rs !! a = Some r ∧ r_days r = Num (days pa)) ∧
  (∀ i p r, phases data !! i = Some p → rs !! i = Some r →
            isParallel p = false → r_days r = Num (days p)).
Proof.
  intros Hc.
  destruct (calculateSchedule_cases _ _ _ _ Hc)
    as (a & pa & Hf & Hpa & -> & Hph & Had).
  rewrite <- Hph.
  assert (Forall2 (λ p r, keepsFields p r ∧
                          (isParallel p = false → r_days r = Num (days p)))
            (phases data') (scheduleList hol data' a pa)) as Hall.
  { apply (scheduleList_rel hol data' _ (λ _, True)); trivial.
    - intros p E. split; [apply parallelItem_keeps | congruence].
    - intros p ref E _. repeat split.
    - intros p ref E _. repeat split.
    - repeat split. }
  split.
  { eapply Forall2_impl; [exact Hall | now intros p r [H _]]. }
  split; [symmetry; apply (Forall2_length _ _ _ Hall)|].
  split.
  { exists a, pa. split; [exact Hf|]. split; [exact Hpa|].
    split; [now apply scheduleSlots_filled|].
    exists (anchorItem hol data' pa).
    split; [now apply scheduleList_lookup_anchor | reflexivity]. }
  intros i p r Hp Hr E.
  now destruct (Forall2_lookup_lr _ _ _ _ _ _ Hall Hp Hr) as [_ H]; apply H.
Qed.

Lemma schedule_shape_witness :
  let rs := [mkItem "1" "A" (Num 3) false NoStr NoStr (Day 19720) (Day 19724);
             mkItem "2" "B" (Num 3) false NoStr NoStr (Day 19725) (Day 19727);
             mkItem "3" "C" (Num 5) false NoStr NoStr (Day 19730)
               (Day 19734)] in
  calculateSchedule [] sampleData = (Some rs, sampleData) ∧
  Forall2 keepsFields (phases sampleData) rs ∧
  length rs = length (phases sampleData) ∧
  (∃ a pa, findAnchorIndex sampleData = Some a ∧
           phases sampleData !! a = Some pa ∧
           scheduleSlots [] sampleData a pa = Some <$> rs ∧
           ∃ r, rs !! a = Some r ∧ r_days r = Num (days pa)) ∧
  (∀ i p r, phases sampleData !! i = Some p → rs !! i = Some r →
            isParallel p = false → r_days r = Num (days p)).
Proof.
  intros rs.
  assert (calculateSchedule [] sampleData = (Some rs, sampleData)) as H
    by (vm_compute; reflexivity).
  split; [exact H|]. exact (schedule_shape [] sampleData sampleData rs H).
Defined.

(** X9.  The engine returns [null] exactly when the anchor date is empty or
    the phase list is empty, and then it writes nothing; in every other case
    it returns an array. *)
Theorem schedule_null_iff (hol : list Z) (data : TimelineData) :
  (fst (calculateSchedule hol data) = None ↔
   truthy (anchorDate data) = false ∨ phases data = []) ∧
  (fst (calculateSchedule hol data) = None →
   snd (calculateSchedule hol data) = data).
Proof.
  destruct (truthy (anchorDate data)) eqn:Et.
  2: { rewrite calculateSchedule_null by auto. simpl. tauto. }
  destruct (phases data) as [|p0 ps] eqn:Ep.
  { rewrite calculateSchedule_null by auto. simpl. tauto. }
  destruct (findAnchorIndex data) as [a|] eqn:Ef.
  - rewrite (calculateSchedule_found _ _ _ Et Ef). simpl.
    split; [|discriminate]. split; [discriminate|]. intros [H|H]; discriminate.
  - rewrite (calculateSchedule_repair _ _ _ _ Et Ef Ep). simpl.
    split; [|discriminate]. split; [discriminate|]. intros [H|H]; discriminate.
Qed.

Lemma workingDaysIn_back hol s e m :
  isWorkingDay hol (Day e) = true → 0 ≤ m →
  subBusinessDays hol (Day e) m = Day s →
  s ≤ e ∧ workingDaysIn hol s e = m + 1.
Proof.
  intros Hwe Hm Hs. unfold workingDaysIn.
  destruct (decide (m = 0)) as [->|Hne].
  - rewrite subBusinessDays_nonpos in Hs by lia. injection Hs as <-.
    split; [lia|]. replace (e - e + 1) with 1 by lia.
    simpl. rewrite Hwe. reflexivity.
  - destruct (subBusinessDays_pos hol e m) as (s' & Hs' & Hlt & Hws & Hc);
      [lia|].
    rewrite Hs in Hs'. injection Hs' as <-. split; [lia|].
    replace (e - s + 1) with (e + 1 - s) by lia.
    rewrite countWorking_upto_working by (trivial; lia). lia.
Qed.

Lemma workingDaysIn_fwd hol s e m :
  isWorkingDay hol (Day s) = true → 0 ≤ m →
  addBusinessDays hol (Day s) m = Day e →
  s ≤ e ∧ workingDaysIn hol s e = m + 1.
Proof.
  intros Hws Hm He. unfold workingDaysIn.
  destruct (decide (m = 0)) as [->|Hne].
  - rewrite addBusinessDays_nonpos in He by lia. injection He as <-.
    split; [lia|]. replace (s - s + 1) with 1 by lia.
    simpl. rewrite Hws. reflexivity.
  - destruct (addBusinessDays_pos hol s m) as (e' & He' & Hlt & Hwe & Hc);
      [lia|].
    rewrite He in He'. injection He' as <-. split; [lia|].
    replace (e - s + 1) with (e + 1 - s) by lia.
    rewrite (countWorking_split hol s (s + 1) (e + 1)) by lia.
    replace (Z.to_nat (s + 1 - s)) with 1%nat by lia.
    replace (e + 1 - (s + 1)) with (e - s) by lia.
    simpl countWorking at 1. rewrite Hws, Hc. lia.
Qed.

Lemma precedingItem_sized hol p x :
  sized hol p (precedingItem hol p (Day x)) ∧
  ∃ s, startDate (precedingItem hol p (Day x)) = Day s.
Proof.
  unfold precedingItem, sized. simpl.
  destruct (subBusinessDays_pos hol x 1) as (e & -> & He & Hwe & _); [lia|].
  destruct (sub_extent hol e (Z.max 0 (days p - 1)) Hwe) as (s & Hs & _ & _);
    [lia|].
  rewrite Hs.
  destruct (workingDaysIn_back hol s e (Z.max 0 (days p - 1)) Hwe) as [Hle Hc];
    [lia | exact Hs |].
  split; [|eauto]. exists s, e. repeat split; trivial. lia.
Qed.

Lemma succeedingItem_sized hol p x :
  sized hol p (succeedingItem hol p (Day x)) ∧
  ∃ e, endDate (succeedingItem hol p (Day x)) = Day e.
Proof.
  unfold succeedingItem, sized. simpl.
  destruct (addBusinessDays_pos hol x 1) as (s & -> & Hs & Hws & _); [lia|].
  destruct (add_extent hol s (Z.max 0 (days p - 1)) Hws) as (e & He & _ & _);
    [lia|].
  rewrite He.
  destruct (workingDaysIn_fwd hol s e (Z.max 0 (days p - 1)) Hws) as [Hle Hc];
    [lia | exact He |].
  split; [|eauto]. exists s, e. repeat split; trivial. lia.
Qed.

Lemma anchorItem_sized hol d p ad :
  anchorDate d = Ymd ad →
  sized hol p (anchorItem hol d p) ∧
  (∃ s, fst (anchorSpan hol d p) = Day s) ∧
  (∃ e, snd (anchorSpan hol d p) = Day e).
Proof.
  intros Had. unfold sized, anchorItem, anchorSpan. rewrite Had. simpl.
  destruct (anchorType d); simpl.
  - destruct (ensureWorkingDayBackward_Day hol ad) as (e & -> & _ & Hwe & _).
    destruct (sub_extent hol e (Z.max 0 (days p - 1)) Hwe)
      as (s & Hs & _ & _); [lia|].
    rewrite Hs.
    destruct (workingDaysIn_back hol s e (Z.max 0 (days p - 1)) Hwe)
      as [Hle Hc]; [lia | exact Hs |].
    split; [|eauto]. exists s, e. repeat split; trivial. lia.
  - destruct (ensureWorkingDayForward_Day hol ad) as (s & -> & _ & Hws & _).
    destruct (add_extent hol s (Z.max 0 (days p - 1)) Hws)
      as (e & He & _ & _); [lia|].
    rewrite He.
    destruct (workingDaysIn_fwd hol s e (Z.max 0 (days p - 1)) Hws)
      as [Hle Hc]; [lia | exact He |].
    split; [|eauto]. exists s, e. repeat split; trivial. lia.
Qed.

(** X10.  Whenever the anchor date is a date and the engine returns a
    schedule, the span of every sequential phase, and of the anchor, consists
    of valid dates with start ≤ end and holds exactly [max(1, days)] working
    days; a phase with [days ≤ 1] thus occupies one working day. *)
Theorem sequential_span_size (hol : list Z) (data data' : TimelineData)
    (rs : list ResultItem) (ad : Z) :
  calculateSchedule hol data = (Some rs, data') →
  anchorDate data = Ymd ad →
  (∀ i p r, phases data !! i = Some p → rs !! i = Some r →
            isParallel p = false → sized hol p r) ∧
  (∃ a pa r, findAnchorIndex data' = Some a ∧ phases data !! a = Some pa ∧
             rs !! a = Some r ∧ sized hol pa r).
Proof.
  intros Hc Had.
  destruct (calculateSchedule_cases _ _ _ _ Hc)
    as (a & pa & Hf & Hpa & -> & Hph & Had').
  rewrite <- Hph. rewrite <- Had' in Had.
  destruct (anchorItem_sized hol data' pa ad Had) as (Hsz & Hs & He).
  assert (Forall2 (λ p r, isParallel p = false → sized hol p r)
            (phases data') (scheduleList hol data' a pa)) as Hall.
  { apply (scheduleList_rel hol data' _ (λ ref, ∃ x, ref = Day x)); trivial.
    - intros p E E'. congruence.
    - intros p ref E [x ->].
      destruct (precedingItem_sized hol p x) as [H1 H2]. auto.
    - intros p ref E [x ->].
      destruct (succeedingItem_sized hol p x) as [H1 H2]. auto. }
  split.
  - intros i p r Hp Hr E.
    now apply (Forall2_lookup_lr _ _ _ _ _ _ Hall Hp Hr).
  - exists a, pa, (anchorItem hol data' pa). split; [exact Hf|].
    split; [exact Hpa|]. split; [|exact Hsz].
    now apply scheduleList_lookup_anchor.
Qed.

Lemma sequential_span_size_witness :
  let hol : list Z := [19733] in
  let data := mkData (Ymd 19735) "2" AnchorEnd Asc
                [mkPhase "1" "A" 0 false NoStr NoStr;
                 mkPhase "2" "B" 4 false NoStr NoStr;
                 mkPhase "3" "C" 2 false NoStr NoStr] in
  let rs := [mkItem "1" "A" (Num 0) false NoStr NoStr (Day 19727) (Day 19727);
             mkItem "2" "B" (Num 4) false NoStr NoStr (Day 19730) (Day 19734);
             mkItem "3" "C" (Num 2) false NoStr NoStr (Day 19737)
               (Day 19738)] in
  calculateSchedule hol data = (Some rs, data) ∧
  anchorDate data = Ymd 19735 ∧
  (∀ i p r, phases data !! i = Some p → rs !! i = Some r →
            isParallel p = false → sized hol p r) ∧
  (∃ a pa r, findAnchorIndex data = Some a ∧ phases data !! a = Some pa ∧
             rs !! a = Some r ∧ sized hol pa r).
Proof.
  intros hol data rs.
  assert (calculateSchedule hol data = (Some rs, data)) as H1
    by (vm_compute; reflexivity).
  assert (anchorDate data = Ymd 19735) as H2 by reflexivity.
  split; [exact H1|]. split; [exact H2|].
  exact (sequential_span_size hol data data rs 19735 H1 H2).
Defined.

(** X11.  Where the anchor span sits: anchored on its end, the anchor phase
    ends on the last working day on or before the anchor date; anchored on
    its start, it starts on the first working day on or after it.  An
    anchor date that is a working day is that end, or that start, itself. *)
Theorem anchor_span_position (hol : list Z) (data data' : TimelineData)
    (rs : list ResultItem) (ad : Z) :
  calculateSchedule hol data = (Some rs, data') →
  anchorDate data = Ymd ad →
  ∃ a r s e,
    findAnchorIndex data' = Some a ∧ rs !! a = Some r ∧
    startDate r = Day s ∧ endDate r = Day e ∧
    match anchorType data with
    | AnchorEnd =>
        e ≤ ad ∧ isWorkingDay hol (Day e) = true ∧
        (∀ x, e < x ≤ ad → isWorkingDay hol (Day x) = false) ∧
        (isWorkingDay hol (Day ad) = true → e = ad)
    | AnchorStart =>
        ad ≤ s ∧ isWorkingDay hol (Day s) = true ∧
        (∀ x, ad ≤ x < s → isWorkingDay hol (Day x) = false) ∧
        (isWorkingDay hol (Day ad) = true → s = ad)
    end.
Proof.
  intros Hc Had.
  destruct (calculateSchedule_cases _ _ _ _ Hc)
    as (a & pa & Hf & Hpa & -> & Hph & Had').
  assert (anchorType data' = anchorType data) as Hty.
  { pose proof Hc as Hc'. revert Hc'.
    destruct (truthy (anchorDate data)) eqn:Et.
    2: { rewrite calculateSchedule_null by auto. discriminate. }
    destruct (phases data) as [|p0 ps] eqn:Ep.
    { rewrite calculateSchedule_null by auto. discriminate. }
    destruct (findAnchorIndex data) as [a0|] eqn:Ef0.
    - rewrite (calculateSchedule_found _ _ _ Et Ef0). now intros [= _ <-].
    - rewrite (calculateSchedule_repair _ _ _ _ Et Ef0 Ep).
      now intros [= _ <-]. }
  exists a, (anchorItem hol data' pa).
  unfold anchorItem, anchorSpan. rewrite Had', Had, Hty. simpl.
  destruct (anchorType data); simpl.
  - destruct (ensureWorkingDayBackward_Day hol ad) as (e & He & Hle & Hwe & Hz).
    destruct (sub_extent hol e (Z.max 0 (days pa - 1)) Hwe)
      as (s & Hs & _ & _); [lia|].
    exists s, e. split; [exact Hf|].
    split.
    { rewrite (scheduleList_lookup_anchor _ _ _ _ Hpa). unfold anchorItem,
        anchorSpan. now rewrite Had', Had, Hty. }
    rewrite He, Hs. repeat split; trivial.
    + intros x Hx. apply (proj1 (countWorking_zero hol (e + 1) _) Hz). lia.
    + intros Hw. destruct (decide (e = ad)) as [|Hne]; trivial.
      rewrite (proj1 (countWorking_zero hol (e + 1) _) Hz ad) in Hw by lia.
      discriminate.
  - destruct (ensureWorkingDayForward_Day hol ad) as (s & Hs & Hle & Hws & Hz).
    destruct (add_extent hol s (Z.max 0 (days pa - 1)) Hws)
      as (e & He & _ & _); [lia|].
    exists s, e. split; [exact Hf|].
    split.
    { rewrite (scheduleList_lookup_anchor _ _ _ _ Hpa). unfold anchorItem,
        anchorSpan. now rewrite Had', Had, Hty. }
    rewrite Hs, He. repeat split; trivial.
    + intros x Hx. apply (proj1 (countWorking_zero hol ad _) Hz). lia.
    + intros Hw. destruct (decide (s = ad)) as [|Hne]; trivial.
      rewrite (proj1 (countWorking_zero hol ad _) Hz ad) in Hw by lia.
      discriminate.
Qed.

Lemma anchor_span_position_witness :
  let data := mkData (Ymd 19735) "2" AnchorEnd Asc
                [mkPhase "1" "A" 0 false NoStr NoStr;
                 mkPhase "2" "B" 4 false NoStr NoStr] in
  let rs := [mkItem "1" "A" (Num 0) false NoStr NoStr (Day 19726) (Day 19726);
             mkItem "2" "B" (Num 4) false NoStr NoStr (Day 19727)
               (Day 19734)] in
  calculateSchedule [19730; 19731] data = (Some rs, data) ∧
  anchorDate data = Ymd 19735 ∧
  ∃ a r s e,
    findAnchorIndex data = Some a ∧ rs !! a = Some r ∧
    startDate r = Day s ∧ endDate r = Day e ∧
    e ≤ 19735 ∧ isWorkingDay [19730; 19731] (Day e) = true ∧
    (∀ x, e < x ≤ 19735 → isWorkingDay [19730; 19731] (Day x) = false) ∧
    (isWorkingDay [19730; 19731] (Day 19735) = true → e = 19735).
Proof.
  intros data rs.
  assert (calculateSchedule [19730; 19731] data = (Some rs, data)) as H1
    by (vm_compute; reflexivity).
  assert (anchorDate data = Ymd 19735) as H2 by reflexivity.
  split; [exact H1|]. split; [exact H2|].
  exact (anchor_span_position [19730; 19731] data data rs 19735 H1 H2).
Defined.

(** X12.  The engine calls itself at most once: with the bound on the self
    call at one or more the result is always that of [calculateSchedule],
    and a bound of zero is hit exactly when a stale anchor id has to be
    repaired first. *)
Theorem engine_recursion_depth (hol : list Z) (data : TimelineData) :
  (∀ n, calculateSchedule_rec (S n) hol data
        = Some (calculateSchedule hol data)) ∧
  (calculateSchedule_rec 0 hol data = None ↔
   truthy (anchorDate data) = true ∧ phases data ≠ [] ∧
   findAnchorIndex data = None).
Proof.
  split; [intros n; apply calculateSchedule_retries|].
  simpl. destruct (truthy (anchorDate data)); simpl.
  2: { split; [discriminate | intros [[=] _]]. }
  destruct (phases data) as [|p0 ps] eqn:Ep; simpl.
  { split; [discriminate | intros (_ & H & _); now destruct H]. }
  destruct (findAnchorIndex data); simpl.
  - split; [discriminate | intros (_ & _ & [=])].
  - split; auto.
Qed.

Lemma parallelItem_same hol d d' p p' :
  anchorDate d' = anchorDate d → isParallel p = true → sameScheduling p p' →
  spanOf (parallelItem hol d p) = spanOf (parallelItem hol d' p').
Proof.
  intros Had E (_ & _ & H). destruct (H E) as (Hs & He & Hd).
  unfold parallelItem, spanOf. simpl. rewrite <- Hs, <- He, Had.
  destruct (truthy (manualEndDate p)); [reflexivity|].
  now rewrite Hd.
Qed.

Lemma backChain_same hol d d' ps ps' :
  anchorDate d' = anchorDate d → Forall2 sameScheduling ps ps' →
  ∀ ref, spanOf <$> backChain hol d ref ps = spanOf <$> backChain hol d' ref ps'.
Proof.
  intros Had. induction 1 as [|p p' ps ps' Hp _ IH]; intros ref;
    [reflexivity|].
  simpl. pose proof Hp as (Ei & Hseq & Hpar). rewrite <- Ei.
  destruct (isParallel p) eqn:E.
  - rewrite !fmap_cons, IH. f_equal.
    apply parallelItem_same; trivial.
  - rewrite !fmap_cons, <- (Hseq eq_refl), IH. f_equal.
    unfold precedingItem, spanOf. simpl. now rewrite <- (Hseq eq_refl).
Qed.

Lemma forwardChain_same hol d d' ps ps' :
  anchorDate d' = anchorDate d → Forall2 sameScheduling ps ps' →
  ∀ ref,
    spanOf <$> forwardChain hol d ref ps = spanOf <$> forwardChain hol d' ref ps'.
Proof.
  intros Had. induction 1 as [|p p' ps ps' Hp _ IH]; intros ref;
    [reflexivity|].
  simpl. pose proof Hp as (Ei & Hseq & Hpar). rewrite <- Ei.
  destruct (isParallel p) eqn:E.
  - rewrite !fmap_cons, IH. f_equal.
    apply parallelItem_same; trivial.
  - rewrite !fmap_cons, <- (Hseq eq_refl), IH. f_equal.
    unfold succeedingItem, spanOf. simpl. now rewrite <- (Hseq eq_refl).
Qed.

(** X13.  What the engine reads.  Two timelines with the same anchor date,
    type and position, a sequential anchor phase, and phases that agree
    pairwise on mode, effective duration [max(0, days - 1)] of a sequential
    phase, and manual dates of a parallel one (with [days] where it has no
    end date), get the same spans: names, ids, the manual dates left on a
    sequential phase, and the days of a parallel phase with an end date are
    never read. *)
Theorem schedule_reads_scheduling_fields (hol : list Z)
    (d d' : TimelineData) (a : nat) (pa : Phase) :
  anchorDate d' = anchorDate d → anchorType d' = anchorType d →
  findAnchorIndex d = Some a → findAnchorIndex d' = Some a →
  phases d !! a = Some pa → isParallel pa = false →
  Forall2 sameScheduling (phases d) (phases d') →
  spanOf <$> default [] (fst (calculateSchedule hol d))
  = spanOf <$> default [] (fst (calculateSchedule hol d')).
Proof.
  intros Had Hty Hf Hf' Hpa Epa Hall.
  destruct (truthy (anchorDate d)) eqn:Et.
  2: { rewrite (calculateSchedule_null hol d) by auto.
       rewrite (calculateSchedule_null hol d') by (rewrite Had; auto).
       reflexivity. }
  destruct (Forall2_lookup_l _ _ _ _ _ Hall Hpa) as (pa' & Hpa' & Hs).
  rewrite (calculateSchedule_found_list hol d a pa Et Hf Hpa).
  rewrite (calculateSchedule_found_list hol d' a pa') by
    (trivial; rewrite Had; trivial).
  simpl. destruct Hs as (_ & Hseq & _). specialize (Hseq Epa).
  assert (anchorSpan hol d' pa' = anchorSpan hol d pa) as Hsp.
  { unfold anchorSpan. now rewrite Had, Hty, Hseq. }
  unfold scheduleList. rewrite !fmap_app, !fmap_reverse, !fmap_cons, Hsp.
  f_equal; [f_equal|f_equal].
  - apply backChain_same; trivial.
    apply Forall2_reverse, Forall2_take, Hall.
  - unfold anchorItem, spanOf. simpl. now rewrite Hsp.
  - apply forwardChain_same; trivial. apply Forall2_drop, Hall.
Qed.

Lemma schedule_reads_scheduling_fields_witness :
  let hol : list Z := [19733] in
  let d := mkData (Ymd 19735) "2" AnchorEnd Asc
             [mkPhase "1" "A" 0 false NoStr NoStr;
              mkPhase "2" "B" 4 false NoStr NoStr;
              mkPhase "3" "C" 2 true (Ymd 19720) (Ymd 19741)] in
  let d' := mkData (Ymd 19735) "y" AnchorEnd Desc
              [mkPhase "x" "Draft" 1 false (Ymd 19000) NoStr;
               mkPhase "y" "Build" 4 false NoStr (Ymd 19001);
               mkPhase "z" "Review" 30 true (Ymd 19720) (Ymd 19741)] in
  anchorDate d' = anchorDate d ∧ anchorType d' = anchorType d ∧
  findAnchorIndex d = Some 1%nat ∧ findAnchorIndex d' = Some 1%nat ∧
  Forall2 sameScheduling (phases d) (phases d') ∧
  spanOf <$> default [] (fst (calculateSchedule hol d))
  = spanOf <$> default [] (fst (calculateSchedule hol d')).
Proof.
  intros hol d d'.
  assert (Forall2 sameScheduling (phases d) (phases d')) as Hall.
  { repeat constructor; simpl; try discriminate; intros; try lia. }
  do 5 (split; [first [reflexivity | exact Hall]|]).
  exact (schedule_reads_scheduling_fields hol d d' 1
           (mkPhase "2" "B" 4 false NoStr NoStr)
           eq_refl eq_refl eq_refl eq_refl eq_refl eq_refl Hall).
Defined.

(** ** Drags *)

Lemma calculateSchedule_None_iff hol d :
  fst (calculateSchedule hol d) = None ↔
  truthy (anchorDate d) = false ∨ phases d = [].
Proof.
  destruct (truthy (anchorDate d)) eqn:Et.
  2: { rewrite calculateSchedule_null by auto. simpl. tauto. }
  destruct (phases d) as [|p0 ps] eqn:Ep.
  { rewrite calculateSchedule_null by auto. simpl. tauto. }
  destruct (findAnchorIndex d) as [a|] eqn:Ef.
  - rewrite (calculateSchedule_found _ _ _ Et Ef). simpl.
    split; [discriminate|]. intros [H|H]; discriminate.
  - rewrite (calculateSchedule_repair _ _ _ _ Et Ef Ep). simpl.
    split; [discriminate|]. intros [H|H]; discriminate.
Qed.

Lemma applyGanttChange_found dom drag delta s ti t :
  delta ≠ 0 →
  list_find (λ t, t_id t = timelineId drag) (timelines s) = Some (ti, t) →
  applyGanttChange dom drag delta s =
  let r := ganttChangeData (globalHolidays s) drag delta (data t) in
  let s' := set_timelines (<[ti := set_data (snd r) t]> (timelines s)) s in
  match fst r with
  | ExitCommitted => (fst r, updateSchedule dom (renderPhases dom s'))
  | ExitCollision => (fst r, renderGantt dom s')
  | _ => (fst r, s')
  end.
Proof.
  intros Hd Ht. unfold applyGanttChange.
  destruct (Z.eqb_spec delta 0) as [|_]; [contradiction|].
  rewrite Ht. destruct (ganttChangeData _ _ _ _) as [[] d']; reflexivity.
Qed.

(** X14.  A drag that is not committed changes nothing: in a state left by
    a render, whenever [applyGanttChange] ends by an early return, by the
    collision abort or by the [TypeError], the state after the call is the
    state before it. *)
Theorem uncommitted_drag_changes_nothing (dom : Dom) (drag : GanttDragState)
    (deltaDays : Z) (s : AppState) :
  settled s = true →
  fst (applyGanttChange dom drag deltaDays s) ≠ ExitCommitted →
  snd (applyGanttChange dom drag deltaDays s) = s.
Proof.
  intros Hs. destruct (decide (deltaDays = 0)) as [->|Hd]; [reflexivity|].
  destruct (list_find (λ t, t_id t = timelineId drag) (timelines s))
    as [[ti t]|] eqn:Ht.
  2: { unfold applyGanttChange. rewrite Ht.
       now destruct (deltaDays =? 0). }
  rewrite (applyGanttChange_found _ _ _ _ _ _ Hd Ht). cbv zeta.
  pose proof Ht as Hl. apply list_find_Some in Hl as (Hl & _ & _).
  pose proof (settled_lookup _ _ _ Hs Hl) as Hst.
  assert (fst (ganttChangeData (globalHolidays s) drag deltaDays (data t))
          ≠ ExitCommitted →
          snd (ganttChangeData (globalHolidays s) drag deltaDays (data t))
          = data t) as Hsame.
  { unfold ganttChangeData.
    destruct (list_find _ (phases (data t))) as [[pidx p]|]; [|reflexivity].
    destruct (dragType drag); [|intros H; now destruct H].
    destruct (decide (p_id p = anchorPhaseId (data t))) as [Ea|Eb].
    { unfold movePhase. rewrite bool_decide_eq_true_2 by exact Ea.
      intros H; now destruct H. }
    rewrite (movePhase_settled _ _ _ _ _ _ Hst Eb).
    destruct (fst (currentSpan _ _ _ _)) as [[ts te]|]; [|reflexivity].
    destruct (fst (calculateSchedule _ _)) as [rs|]; [|reflexivity].
    destruct (existsb _ rs); [reflexivity | intros H; now destruct H]. }
  destruct (fst (ganttChangeData _ _ _ _)) eqn:Ex; simpl; intros Hne;
    try (now destruct Hne);
    rewrite Hsame by discriminate; rewrite (insert_same_timeline _ _ _ Hl);
    trivial.
  now apply renderGantt_settled.
Qed.

Lemma uncommitted_drag_changes_nothing_witness :
  let drag := mkDrag DragMove "1" "t1" 3 in
  settled sampleState = true ∧
  fst (applyGanttChange sampleDom drag 3 sampleState) ≠ ExitCommitted ∧
  snd (applyGanttChange sampleDom drag 3 sampleState) = sampleState.
Proof.
  intros drag.
  assert (settled sampleState = true) as H1 by reflexivity.
  assert (fst (applyGanttChange sampleDom drag 3 sampleState) ≠ ExitCommitted)
    as H2 by (vm_compute; discriminate).
  split; [exact H1|]. split; [exact H2|].
  exact (uncommitted_drag_changes_nothing sampleDom drag 3 sampleState H1 H2).
Defined.

Lemma calculateSchedule_keeps hol d :
  anchorDate (snd (calculateSchedule hol d)) = anchorDate d ∧
  phases (snd (calculateSchedule hol d)) = phases d.
Proof.
  split; [|apply calculateSchedule_phases].
  destruct (truthy (anchorDate d)) eqn:Et.
  2: { now rewrite calculateSchedule_null by auto. }
  destruct (phases d) as [|p0 ps] eqn:Ep.
  { now rewrite calculateSchedule_null by auto. }
  destruct (findAnchorIndex d) as [a|] eqn:Ef.
  - now rewrite (calculateSchedule_found _ _ _ Et Ef).
  - now rewrite (calculateSchedule_repair _ _ _ _ Et Ef Ep).
Qed.

Lemma movePhase_TypeError hol d pidx p pid delta :
  phases d !! pidx = Some p → p_id p ≠ anchorPhaseId d →
  fst (movePhase hol d pidx p pid delta) = ExitTypeError ↔
  truthy (anchorDate d) = false.
Proof.
  intros Hp Hne. unfold movePhase.
  rewrite bool_decide_eq_false_2 by exact Hne.
  assert (phases d ≠ []) as Hnil by (intros E; now rewrite E in Hp).
  assert (∀ d', anchorDate d' = anchorDate d → phases d' = phases d →
            fst (calculateSchedule hol d') = None ↔
            truthy (anchorDate d) = false) as Hnone.
  { intros d' Ha Hph. rewrite calculateSchedule_None_iff, Ha, Hph. tauto. }
  assert (∀ d' ts te, anchorDate d' = anchorDate d → phases d' = phases d →
            fst (let '(sch, d2) := calculateSchedule hol d' in
                 match sch with
                 | None => (ExitTypeError, d2)
                 | Some rs =>
                     if existsb (collidesWith d2 pid (shiftDate ts delta)
                                   (shiftDate te delta)) rs
                     then (ExitCollision, d2)
                     else (ExitCommitted,
                           set_phase pidx
                             (commitMove p ts te (shiftDate ts delta)
                                (shiftDate te delta)) d2)
                 end) = ExitTypeError ↔ truthy (anchorDate d) = false) as Hk.
  { intros d' ts te Ha Hph. specialize (Hnone d' Ha Hph).
    destruct (calculateSchedule hol d') as [[rs|] d2]; simpl in *.
    - destruct (existsb _ rs); simpl; split; try discriminate;
        intros H; apply Hnone in H; discriminate.
    - split; [intros _; now apply Hnone | reflexivity]. }
  unfold currentSpan.
  destruct (isParallel p && truthy (manualStartDate p)).
  { apply Hk; reflexivity. }
  pose proof (calculateSchedule_keeps hol d) as [Ha Hph].
  pose proof (Hnone d eq_refl eq_refl) as Hn.
  destruct (calculateSchedule hol d) as [[rs|] d1]; simpl in *.
  - destruct (list_find _ rs) as [[? it]|]; apply Hk; assumption.
  - split; [intros _; now apply Hn | reflexivity].
Qed.

(** X15.  The move of a phase that is not the anchor, by a non-zero number
    of days, raises the [TypeError] (a method called on the [null] schedule)
    exactly when the timeline has no anchor date; nothing has been written
    by then. *)
Theorem move_without_anchor_date_raises (dom : Dom) (drag : GanttDragState)
    (deltaDays : Z) (s : AppState) (ti : nat) (t : Timeline) (pidx : nat)
    (p : Phase) :
  deltaDays ≠ 0 → dragType drag = DragMove →
  list_find (λ t, t_id t = timelineId drag) (timelines s) = Some (ti, t) →
  list_find (λ q, p_id q = phaseId drag) (phases (data t)) = Some (pidx, p) →
  p_id p ≠ anchorPhaseId (data t) →
  (fst (applyGanttChange dom drag deltaDays s) = ExitTypeError ↔
   truthy (anchorDate (data t)) = false) ∧
  (truthy (anchorDate (data t)) = false →
   snd (applyGanttChange dom drag deltaDays s) = s).
Proof.
  intros Hd Hm Ht Hp Hne.
  rewrite (applyGanttChange_move _ _ _ _ _ _ _ _ Hd Hm Ht Hp). cbv zeta.
  pose proof Hp as Hl. apply list_find_Some in Hl as (Hl & _ & _).
  pose proof Ht as Hlt. apply list_find_Some in Hlt as (Hlt & _ & _).
  pose proof (movePhase_TypeError (globalHolidays s) (data t) pidx p
                (phaseId drag) deltaDays Hl Hne) as Hiff.
  split.
  - rewrite <- Hiff.
    destruct (fst (movePhase _ _ _ _ _ _)); simpl; split; trivial.
  - intros Hno. pose proof (proj2 Hiff Hno) as Hex. rewrite Hex. simpl.
    assert (snd (movePhase (globalHolidays s) (data t) pidx p (phaseId drag)
                   deltaDays) = data t) as ->.
    { unfold movePhase. rewrite bool_decide_eq_false_2 by exact Hne.
      unfold currentSpan.
      destruct (isParallel p && truthy (manualStartDate p));
        rewrite (calculateSchedule_null (globalHolidays s) (data t)) by auto;
        reflexivity. }
    now apply insert_same_timeline.
Qed.

Lemma move_without_anchor_date_raises_witness :
  let d := mkData NoStr "1" AnchorEnd Asc
             [mkPhase "1" "A" 3 false NoStr NoStr;
              mkPhase "2" "B" 2 true (Ymd 19730) (Ymd 19731)] in
  let s := mkState "t" [] [mkTimeline "t" "T" d] in
  let drag := mkDrag DragMove "2" "t" 0 in
  (fst (applyGanttChange sampleDom drag 1 s) = ExitTypeError ↔
   truthy (anchorDate d) = false) ∧
  (truthy (anchorDate d) = false →
   snd (applyGanttChange sampleDom drag 1 s) = s).
Proof.
  intros d s drag.
  apply (move_without_anchor_date_raises sampleDom drag 1 s 0
           (mkTimeline "t" "T" d) 1
           (mkPhase "2" "B" 2 true (Ymd 19730) (Ymd 19731)));
    [lia | reflexivity | reflexivity | reflexivity | discriminate].
Defined.

(** X16.  Dragging the anchor phase moves the anchor date and nothing else:
    in a state left by a render, a move by a non-zero number of days of the
    phase the anchor points to is always committed, without collision
    check, and the state after the call is the state before it with the
    anchor date of that timeline moved by [deltaDays] calendar days, onto a
    weekend or a holiday too. *)
Theorem anchor_move_shifts_anchor_date (dom : Dom) (drag : GanttDragState)
    (deltaDays : Z) (s : AppState) (ti : nat) (t : Timeline) (pidx : nat)
    (p : Phase) (ad : Z) :
  deltaDays ≠ 0 → dragType drag = DragMove →
  list_find (λ t, t_id t = timelineId drag) (timelines s) = Some (ti, t) →
  list_find (λ q, p_id q = phaseId drag) (phases (data t)) = Some (pidx, p) →
  p_id p = anchorPhaseId (data t) →
  anchorDate (data t) = Ymd ad →
  settled s = true →
  applyGanttChange dom drag deltaDays s =
  (ExitCommitted,
   set_timelines
     (<[ti := set_data (set_anchorDate (Ymd (ad + deltaDays)) (data t)) t]>
        (timelines s)) s).
Proof.
  intros Hd Hm Ht Hp Ha Had Hs.
  rewrite (applyGanttChange_move _ _ _ _ _ _ _ _ Hd Hm Ht Hp). cbv zeta.
  unfold movePhase. rewrite bool_decide_eq_true_2 by exact Ha.
  rewrite Had. simpl. f_equal.
  apply rerender_settled.
  pose proof Ht as Hlt. apply list_find_Some in Hlt as (Hlt & _ & _).
  apply (settled_insert _ _ t); trivial. simpl.
  unfold anchorSettled. simpl.
  assert (is_Some (findAnchorIndex (data t))) as Hsome.
  { unfold findAnchorIndex.
    destruct (list_find (λ q, p_id q = anchorPhaseId (data t))
                (phases (data t))) as [[i q]|] eqn:Ef; [simpl; eauto|].
    apply list_find_None in Ef. apply list_find_Some in Hp as (Hl & _ & _).
    rewrite Forall_forall in Ef.
    destruct (Ef p); [eapply list_elem_of_lookup_2, Hl | exact Ha]. }
  assert (findAnchorIndex
            (set_anchorDate (Ymd (ad + deltaDays)) (data t))
          = findAnchorIndex (data t)) as -> by reflexivity.
  rewrite bool_decide_eq_true_2 by exact Hsome. apply orb_true_r.
Qed.

Lemma anchor_move_shifts_anchor_date_witness :
  let drag := mkDrag DragMove "3" "t1" 5 in
  settled sampleState = true ∧
  applyGanttChange sampleDom drag 2 sampleState =
  (ExitCommitted,
   set_timelines
     (<[0%nat := set_data (set_anchorDate (Ymd (19734 + 2)) sampleData)
                   (mkTimeline "t1" "Sprint 1" sampleData)]>
        (timelines sampleState)) sampleState).
Proof.
  intros drag. split; [reflexivity|].
  apply (anchor_move_shifts_anchor_date sampleDom drag 2 sampleState 0
           (mkTimeline "t1" "Sprint 1" sampleData) 2
           (mkPhase "3" "C" 5 false NoStr NoStr) 19734);
    [lia | reflexivity | reflexivity | reflexivity | reflexivity
    | reflexivity | reflexivity].
Defined.

Lemma applyGanttChange_resize dom drag deltaDays s ti t pidx p :
  deltaDays ≠ 0 → dragType drag = DragResize →
  list_find (λ t, t_id t = timelineId drag) (timelines s) = Some (ti, t) →
  list_find (λ q, p_id q = phaseId drag) (phases (data t)) = Some (pidx, p) →
  settled s = true →
  applyGanttChange dom drag deltaDays s =
  (ExitCommitted,
   set_timelines
     (<[ti := set_data
                (set_phase pidx
                   (mkPhase (p_id p) (p_name p)
                      (Z.max 1 (initialDays drag + deltaDays))
                      (isParallel p) (manualStartDate p)
                      (if isParallel p
                       then iso (shiftDate
                                   (newDate (orElse (manualStartDate p)
                                               (anchorDate (data t))))
                                   (initialDays drag + deltaDays))
                       else manualEndDate p))
                   (data t)) t]> (timelines s)) s).
Proof.
  intros Hd Hr Ht Hp Hs.
  rewrite (applyGanttChange_found _ _ _ _ _ _ Hd Ht). cbv zeta.
  unfold ganttChangeData. rewrite Hp, Hr. cbn [fst snd].
  assert (resizePhase (data t) p (initialDays drag) deltaDays
          = mkPhase (p_id p) (p_name p)
              (Z.max 1 (initialDays drag + deltaDays))
              (isParallel p) (manualStartDate p)
              (if isParallel p
               then iso (shiftDate
                           (newDate (orElse (manualStartDate p)
                                       (anchorDate (data t))))
                           (initialDays drag + deltaDays))
               else manualEndDate p)) as ->.
  { unfold resizePhase. destruct p as [i n dy par ms me]. simpl.
    destruct par; reflexivity. }
  f_equal. apply rerender_settled.
  pose proof Ht as Hlt. apply list_find_Some in Hlt as (Hlt & _ & _).
  pose proof Hp as Hl. apply list_find_Some in Hl as (Hl & _ & _).
  apply (settled_insert _ _ t); trivial. simpl.
  rewrite (anchorSettled_set_phase _ _ _ _ Hl) by reflexivity.
  exact (settled_lookup _ _ _ Hs Hlt).
Qed.

(** X17.  A resize is always committed and writes to the dragged phase
    only: in a state left by a render, the state after a resize by a
    non-zero number of days is the state before it with, in the dragged
    phase, [days] set to [max(1, initialDays + deltaDays)] and, when the
    phase is parallel, [manualEndDate] set to its start (the manual start
    date, else the anchor date) plus [initialDays + deltaDays] calendar
    days.  No other phase is looked at, so a resize is never rejected for
    an overlap. *)
Theorem resize_frame (dom : Dom) (drag : GanttDragState) (deltaDays : Z)
    (s : AppState) (ti : nat) (t : Timeline) (pidx : nat) (p : Phase) :
  deltaDays ≠ 0 → dragType drag = DragResize →
  list_find (λ t, t_id t = timelineId drag) (timelines s) = Some (ti, t) →
  list_find (λ q, p_id q = phaseId drag) (phases (data t)) = Some (pidx, p) →
  settled s = true →
  applyGanttChange dom drag deltaDays s =
  (ExitCommitted,
   set_timelines
     (<[ti := set_data
                (set_phase pidx
                   (mkPhase (p_id p) (p_name p)
                      (Z.max 1 (initialDays drag + deltaDays))
                      (isParallel p) (manualStartDate p)
                      (if isParallel p
                       then iso (shiftDate
                                   (newDate (orElse (manualStartDate p)
                                               (anchorDate (data t))))
                                   (initialDays drag + deltaDays))
                       else manualEndDate p))
                   (data t)) t]> (timelines s)) s).
Proof. apply applyGanttChange_resize. Qed.

Lemma resize_frame_witness :
  let drag := mkDrag DragResize "2" "t1" 3 in
  settled sampleState = true ∧
  applyGanttChange sampleDom drag (-7) sampleState =
  (ExitCommitted,
   set_timelines
     (<[0%nat := set_data
                   (set_phase 1 (mkPhase "2" "B" 1 false NoStr NoStr)
                      sampleData)
                   (mkTimeline "t1" "Sprint 1" sampleData)]>
        (timelines sampleState)) sampleState).
Proof.
  intros drag. split; [reflexivity|].
  apply (resize_frame sampleDom drag (-7) sampleState 0
           (mkTimeline "t1" "Sprint 1" sampleData) 1
           (mkPhase "2" "B" 3 false NoStr NoStr));
    [lia | reflexivity | reflexivity | reflexivity | reflexivity].
Defined.

Lemma list_find_insert_found {A} (P : A → Prop) `{∀ x, Decision (P x)}
    (l : list A) i x y :
  list_find P l = Some (i, x) → (P y ↔ P x) →
  list_find P (<[i:=y]> l) = Some (i, y).
Proof.
  intros Hf Hy. pose proof Hf as Hl. apply list_find_Some in Hl as (Hl & _).
  pose proof (list_find_insert_same P l i x y Hl Hy) as He.
  rewrite Hf in He. simpl in He.
  destruct (list_find P (<[i:=y]> l)) as [[j z]|] eqn:Ez; [|discriminate].
  simpl in He. injection He as ->.
  apply list_find_Some in Ez as (Ez & _).
  rewrite list_lookup_insert_eq in Ez by (eapply lookup_lt_Some, Hl).
  now injection Ez as ->.
Qed.

Lemma startDrag_found type pid tid g s ti t pidx p :
  list_find (λ t, t_id t = tid) (timelines s) = Some (ti, t) →
  list_find (λ q, p_id q = pid) (phases (data t)) = Some (pidx, p) →
  startDrag type pid tid g s = mkSession true (mkDrag type pid tid (days p)).
Proof. intros Ht Hp. unfold startDrag. now rewrite Ht, Hp. Qed.

(** X18.  The resize gesture.  Mouse-down on the resize handle of a
    sequential phase followed by mouse-up [deltaDays] days away adds
    [deltaDays] to the days of the phase, whatever an earlier drag left in
    the drag context, and ends the drag; the same gesture by [-deltaDays]
    then gives back the state from before the first one.  Both hold as long
    as the phase has at least one day before and after. *)
Theorem resize_gesture_round_trip (dom : Dom) (g0 : DragSession)
    (s : AppState) (tid pid : string) (ti : nat) (t : Timeline) (pidx : nat)
    (p : Phase) (deltaDays : Z) :
  deltaDays ≠ 0 →
  list_find (λ t, t_id t = tid) (timelines s) = Some (ti, t) →
  list_find (λ q, p_id q = pid) (phases (data t)) = Some (pidx, p) →
  isParallel p = false → 1 ≤ days p → 1 ≤ days p + deltaDays →
  settled s = true →
  ∃ g1 s1,
    onMouseUp dom deltaDays (startDrag DragResize pid tid g0 s) s = (g1, s1) ∧
    active g1 = false ∧
    s1 = set_timelines
           (<[ti := set_data
                      (set_phase pidx (set_days (days p + deltaDays) p)
                         (data t)) t]> (timelines s)) s ∧
    snd (onMouseUp dom (- deltaDays) (startDrag DragResize pid tid g1 s1) s1)
    = s.
Proof.
  intros Hd Ht Hp Hseq H1 H2 Hs.
  pose proof Ht as Hlt. apply list_find_Some in Hlt as (Hlt & _ & _).
  pose proof Hp as Hl. apply list_find_Some in Hl as (Hl & _ & _).
  set (p1 := set_days (days p + deltaDays) p).
  set (t1 := set_data (set_phase pidx p1 (data t)) t).
  set (s1 := set_timelines (<[ti := t1]> (timelines s)) s).
  assert (onMouseUp dom deltaDays (startDrag DragResize pid tid g0 s) s
          = (mkSession false (mkDrag DragResize pid tid (days p)), s1)) as E1.
  { rewrite (startDrag_found _ _ _ _ _ _ _ _ _ Ht Hp). unfold onMouseUp.
    cbn [active ctx negb].
    rewrite (applyGanttChange_resize dom _ deltaDays s ti t pidx p)
      by (trivial; reflexivity).
    cbn [initialDays]. unfold s1, t1, p1, set_days.
    rewrite Hseq, Z.max_r by lia. reflexivity. }
  exists (mkSession false (mkDrag DragResize pid tid (days p))), s1.
  split; [exact E1|]. split; [reflexivity|]. split; [reflexivity|].
  assert (list_find (λ t, t_id t = tid) (timelines s1) = Some (ti, t1)) as Ht1.
  { apply (list_find_insert_found _ _ _ t); [exact Ht | reflexivity]. }
  assert (list_find (λ q, p_id q = pid) (phases (data t1)) = Some (pidx, p1))
    as Hp1.
  { apply (list_find_insert_found _ _ _ p); [exact Hp | reflexivity]. }
  assert (settled s1 = true) as Hs1.
  { apply (settled_insert _ _ t); trivial. simpl.
    rewrite (anchorSettled_set_phase _ _ _ _ Hl) by reflexivity.
    exact (settled_lookup _ _ _ Hs Hlt). }
  rewrite (startDrag_found _ _ _ _ _ _ _ _ _ Ht1 Hp1). unfold onMouseUp.
  cbn [active ctx negb].
  rewrite (applyGanttChange_resize dom _ (- deltaDays) s1 ti t1 pidx p1)
    by first [lia | reflexivity | assumption].
  cbn [initialDays snd]. unfold s1, t1, p1. simpl.
  rewrite Hseq, Z.max_r by lia.
  replace (days p + deltaDays + - deltaDays) with (days p) by lia.
  unfold set_timelines, set_data, set_phase, set_phases. simpl.
  rewrite !list_insert_insert_eq.
  assert (mkPhase (p_id p) (p_name p) (days p) false (manualStartDate p)
            (manualEndDate p) = p) as ->.
  { destruct p; simpl in *. now subst. }
  rewrite (list_insert_id _ _ _ Hl).
  assert (mkTimeline (t_id t) (t_name t)
            (mkData (anchorDate (data t)) (anchorPhaseId (data t))
               (anchorType (data t)) (sortOrder (data t)) (phases (data t)))
          = t) as ->.
  { destruct t as [i n [a b c d e]]; reflexivity. }
  rewrite (list_insert_id _ _ _ Hlt). now destruct s.
Qed.

Lemma resize_gesture_round_trip_witness :
  let g0 := mkSession false (mkDrag DragMove "1" "t2" 40) in
  settled sampleState = true ∧
  ∃ g1 s1,
    onMouseUp sampleDom 4 (startDrag DragResize "2" "t1" g0 sampleState)
      sampleState = (g1, s1) ∧
    active g1 = false ∧
    s1 = set_timelines
           (<[0%nat := set_data
                         (set_phase 1
                            (set_days (3 + 4)
                               (mkPhase "2" "B" 3 false NoStr NoStr))
                            sampleData)
                         (mkTimeline "t1" "Sprint 1" sampleData)]>
              (timelines sampleState)) sampleState ∧
    snd (onMouseUp sampleDom (- 4) (startDrag DragResize "2" "t1" g1 s1) s1)
    = sampleState.
Proof.
  intros g0. split; [reflexivity|].
  apply (resize_gesture_round_trip sampleDom g0 sampleState "t1" "2" 0
           (mkTimeline "t1" "Sprint 1" sampleData) 1
           (mkPhase "2" "B" 3 false NoStr NoStr) 4);
    [lia | reflexivity | reflexivity | reflexivity | simpl; lia | simpl; lia
    | reflexivity].
Defined.

(** ** Edits of the phase list *)

Lemma findAnchorIndex_is_Some d :
  is_Some (findAnchorIndex d) ↔ ∃ q, q ∈ phases d ∧ p_id q = anchorPhaseId d.
Proof.
  unfold findAnchorIndex. split.
  - intros [a Ha].
    destruct (list_find _ _) as [[i q]|] eqn:Ef; [|discriminate].
    apply list_find_Some in Ef as (Hl & Hid & _).
    exists q. split; [eapply list_elem_of_lookup_2, Hl | exact Hid].
  - intros (q & Hq & Hid).
    destruct (list_find_elem_of (λ p, p_id p = anchorPhaseId d) _ q Hq Hid)
      as [[i x] ->].
    simpl. eauto.
Qed.

(** X19.  Deleting a phase never leaves a stale anchor.  When the anchor of
    a timeline points to one of its phases and a row is deleted, the list
    loses that one phase; the anchor id is kept if the phase was not the
    anchor and becomes the id of the first remaining phase if it was; and
    unless the list is now empty the anchor again points to a phase, so the
    engine has no repair to make. *)
Theorem delete_keeps_anchor_resolved (hol : list Z) (d : TimelineData)
    (idx : nat) (p : Phase) :
  phases d !! idx = Some p → is_Some (findAnchorIndex d) →
  phases (applyEdit hol (EditDelete idx) d) = delete idx (phases d) ∧
  anchorDate (applyEdit hol (EditDelete idx) d) = anchorDate d ∧
  anchorType (applyEdit hol (EditDelete idx) d) = anchorType d ∧
  (p_id p ≠ anchorPhaseId d →
   anchorPhaseId (applyEdit hol (EditDelete idx) d) = anchorPhaseId d) ∧
  (p_id p = anchorPhaseId d → ∀ p0 ps, delete idx (phases d) = p0 :: ps →
   anchorPhaseId (applyEdit hol (EditDelete idx) d) = p_id p0) ∧
  (delete idx (phases d) ≠ [] →
   is_Some (findAnchorIndex (applyEdit hol (EditDelete idx) d))) ∧
  anchorSettled (applyEdit hol (EditDelete idx) d) = true.
Proof.
  intros Hp Ha. unfold applyEdit. rewrite Hp.
  assert (p_id p ≠ anchorPhaseId d →
          is_Some (findAnchorIndex (set_phases (delete idx (phases d)) d)))
    as Hkeep.
  { intros Hne. apply findAnchorIndex_is_Some in Ha as (q & Hq & Hid).
    apply findAnchorIndex_is_Some. exists q. split; [|exact Hid]. simpl.
    apply list_elem_of_lookup in Hq as [a Hq].
    assert (a ≠ idx) as Hai by (intros ->; congruence).
    destruct (decide (a < idx)%nat) as [Hlt|Hge].
    - apply (list_elem_of_lookup_2 _ a).
      now rewrite list_lookup_delete_lt.
    - destruct a as [|a']; [lia|]. apply (list_elem_of_lookup_2 _ a').
      rewrite list_lookup_delete_ge by lia. exact Hq. }
  destruct (decide (p_id p = anchorPhaseId d)) as [He|Hne].
  - rewrite bool_decide_eq_true_2 by exact He. simpl.
    repeat split; trivial.
    + intros H; now destruct H.
    + intros _ p0 ps ->. reflexivity.
    + intros Hnil. destruct (delete idx (phases d)) as [|p0 ps] eqn:Er;
        [now destruct Hnil|].
      rewrite (findAnchorIndex_repointed _ p0 ps) by reflexivity. eauto.
    + unfold anchorSettled. simpl.
      destruct (delete idx (phases d)) as [|p0 ps] eqn:Er.
      { simpl. now rewrite orb_true_r. }
      rewrite bool_decide_eq_true_2; [apply orb_true_r|].
      change (is_Some (findAnchorIndex
                (set_anchorPhaseId (p_id p0)
                   (set_phases (p0 :: ps) d)))).
      rewrite (findAnchorIndex_repointed _ p0 ps) by reflexivity. eauto.
  - rewrite bool_decide_eq_false_2 by exact Hne. simpl.
    repeat split; trivial.
    + intros H; now destruct Hne.
    + intros _. now apply Hkeep.
    + unfold anchorSettled.
      rewrite (bool_decide_eq_true_2 _ (Hkeep Hne)). apply orb_true_r.
Qed.

Lemma delete_keeps_anchor_resolved_witness :
  let d' := applyEdit [] (EditDelete 2) sampleData in
  phases d' = delete 2%nat (phases sampleData) ∧
  anchorPhaseId d' = "1" ∧
  is_Some (findAnchorIndex d') ∧ anchorSettled d' = true.
Proof.
  intros d'.
  destruct (delete_keeps_anchor_resolved [] sampleData 2
              (mkPhase "3" "C" 5 false NoStr NoStr) eq_refl
              (ex_intro _ 2%nat eq_refl))
    as (H1 & _ & _ & _ & H5 & H6 & H7).
  split; [exact H1|]. split; [exact (H5 eq_refl _ _ eq_refl)|].
  split; [apply H6; discriminate | exact H7].
Defined.

(** X20.  Dropping row [fromIdx] on row [toIdx] moves that one phase to
    position [toIdx]: the phase is found there afterwards, the other phases
    keep their order, the list is a permutation of the old one, and the
    anchor settings are untouched, so an anchor that pointed to a phase
    still does. *)
Theorem reorder_moves_one_phase (hol : list Z) (d : TimelineData)
    (fromIdx toIdx : nat) (p : Phase) :
  phases d !! fromIdx = Some p → (toIdx < length (phases d))%nat →
  phases (applyEdit hol (EditReorder fromIdx toIdx) d) !! toIdx = Some p ∧
  delete toIdx (phases (applyEdit hol (EditReorder fromIdx toIdx) d))
  = delete fromIdx (phases d) ∧
  phases (applyEdit hol (EditReorder fromIdx toIdx) d) ≡ₚ phases d ∧
  anchorPhaseId (applyEdit hol (EditReorder fromIdx toIdx) d)
  = anchorPhaseId d ∧
  anchorDate (applyEdit hol (EditReorder fromIdx toIdx) d) = anchorDate d ∧
  (is_Some (findAnchorIndex d) →
   is_Some (findAnchorIndex (applyEdit hol (EditReorder fromIdx toIdx) d))).
Proof.
  intros Hp Hto. unfold applyEdit.
  destruct (decide (fromIdx = toIdx)) as [->|Hne].
  { rewrite bool_decide_eq_true_2 by reflexivity. repeat split; trivial. }
  rewrite bool_decide_eq_false_2 by exact Hne. rewrite Hp. simpl.
  set (rest := delete fromIdx (phases d)).
  assert (length rest = (length (phases d) - 1)%nat) as Hlen.
  { unfold rest. rewrite length_delete by eauto. reflexivity. }
  assert (length (take toIdx rest) = toIdx) as Htk
    by (rewrite length_take; lia).
  assert (take toIdx rest ++ p :: drop toIdx rest ≡ₚ phases d) as Hperm.
  { rewrite <- Permutation_middle, take_drop. unfold rest.
    symmetry. now apply delete_Permutation. }
  repeat split; trivial.
  - rewrite lookup_app_r by lia. rewrite Htk, Nat.sub_diag. reflexivity.
  - rewrite <- Htk at 1. rewrite delete_middle. apply take_drop.
  - intros Ha. apply findAnchorIndex_is_Some in Ha as (q & Hq & Hid).
    apply findAnchorIndex_is_Some. exists q. split; [|exact Hid]. simpl.
    now rewrite Hperm.
Qed.

Lemma reorder_moves_one_phase_witness :
  let d' := applyEdit [] (EditReorder 0 2) sampleData in
  phases d' = [mkPhase "2" "B" 3 false NoStr NoStr;
               mkPhase "3" "C" 5 false NoStr NoStr;
               mkPhase "1" "A" 3 false NoStr NoStr] ∧
  phases d' !! 2%nat = Some (mkPhase "1" "A" 3 false NoStr NoStr) ∧
  delete 2%nat (phases d') = delete 0%nat (phases sampleData) ∧
  phases d' ≡ₚ phases sampleData.
Proof.
  intros d'. split; [reflexivity|].
  destruct (reorder_moves_one_phase [] sampleData 0 2
              (mkPhase "1" "A" 3 false NoStr NoStr) eq_refl)
    as (H1 & H2 & H3 & _); [simpl; lia|].
  split; [exact H1|]. split; [exact H2 | exact H3].
Defined.

Lemma set_phase_same d idx p : phases d !! idx = Some p → set_phase idx p d = d.
Proof.
  intros H. unfold set_phase, set_phases. rewrite (list_insert_id _ _ _ H).
  now destruct d.
Qed.

(** X21.  The parallel checkbox.  On the anchor phase it is refused and
    nothing is written.  On any other phase of a timeline with an anchor
    date, ticking it leaves the phase parallel with both manual dates set:
    the ones it had, else the anchor date.  Unticking only clears the flag,
    so unticking and ticking again a parallel phase that has both manual
    dates gives back the timeline as it was. *)
Theorem parallel_checkbox (hol : list Z) (d : TimelineData) (idx : nat)
    (p : Phase) :
  phases d !! idx = Some p →
  (anchorPhaseId d = p_id p →
   ∀ c, applyEdit hol (EditParallel idx c) d = d) ∧
  (anchorPhaseId d ≠ p_id p →
   applyEdit hol (EditParallel idx true) d
   = set_phase idx
       (mkPhase (p_id p) (p_name p) (days p) true
          (orElse (manualStartDate p) (anchorDate d))
          (orElse (manualEndDate p) (anchorDate d))) d) ∧
  (isParallel p = true → truthy (manualStartDate p) = true →
   truthy (manualEndDate p) = true →
   applyEdit hol (EditParallel idx true)
     (applyEdit hol (EditParallel idx false) d) = d).
Proof.
  intros Hp.
  assert (anchorPhaseId d = p_id p →
          ∀ c, applyEdit hol (EditParallel idx c) d = d) as Hanchor.
  { intros He c. unfold applyEdit. rewrite Hp. unfold editPhase.
    rewrite bool_decide_eq_true_2 by exact He. now apply set_phase_same. }
  split; [exact Hanchor|split].
  - intros Hne. unfold applyEdit. rewrite Hp. unfold editPhase.
    rewrite bool_decide_eq_false_2 by exact Hne.
    destruct p as [i n dy par ms me]. unfold orElse. simpl.
    destruct ms, me; reflexivity.
  - intros Hpar Hs He.
    destruct (decide (anchorPhaseId d = p_id p)) as [Ea|Hne].
    { now rewrite !Hanchor. }
    unfold applyEdit at 2. rewrite Hp. unfold editPhase.
    rewrite bool_decide_eq_false_2 by exact Hne. cbn [isParallel set_isParallel].
    unfold applyEdit. cbn [phases set_phase set_phases].
    rewrite list_lookup_insert_eq by (eapply lookup_lt_Some, Hp).
    unfold editPhase. cbn [anchorPhaseId set_phase set_phases].
    clear Hanchor. destruct p as [i n dy par ms me]. simpl in *. subst par.
    rewrite bool_decide_eq_false_2 by exact Hne.
    rewrite Hs. simpl. rewrite He. simpl.
    unfold set_phase, set_phases. simpl. rewrite list_insert_insert_eq.
    unfold set_isParallel. simpl.
    rewrite (list_insert_id _ _ _ Hp). now destruct d.
Qed.

Lemma parallel_checkbox_witness :
  let p := mkPhase "2" "B" 3 true (Ymd 19730) (Ymd 19731) in
  let d := set_phase 1 p sampleData in
  applyEdit [] (EditParallel 1 true) (applyEdit [] (EditParallel 1 false) d)
  = d ∧
  applyEdit [] (EditParallel 2 true) d = d ∧
  applyEdit [] (EditParallel 0 true) sampleData
  = set_phase 0 (mkPhase "1" "A" 3 true (Ymd 19734) (Ymd 19734)) sampleData.
Proof.
  intros p d.
  destruct (parallel_checkbox [] d 1 p eq_refl) as (_ & _ & H3).
  destruct (parallel_checkbox [] d 2 (mkPhase "3" "C" 5 false NoStr NoStr)
              eq_refl) as (H1 & _ & _).
  destruct (parallel_checkbox [] sampleData 0
              (mkPhase "1" "A" 3 false NoStr NoStr) eq_refl) as (_ & H2 & _).
  split; [exact (H3 eq_refl eq_refl eq_refl)|].
  split; [exact (H1 eq_refl true)|].
  apply H2. discriminate.
Defined.

Lemma refreshDays_Day s e p :
  refreshDays (Day s) (Day e) p = set_days (e - s + 1) p.
Proof.
  unfold refreshDays, getDaysDiff. simpl.
  replace (e * msPerDay - s * msPerDay) with ((e - s) * msPerDay) by lia.
  rewrite Z.div_mul by (unfold msPerDay; lia). reflexivity.
Qed.

(** X22.  Editing a manual date keeps the stored days of a parallel phase
    equal to the days the engine reports.  After the start or the end input
    of a phase is set to a date while the other one holds a date, [days] is
    the number of calendar days from start to end, both included, with no
    lower bound (zero or negative when the end is before the start); and for
    a parallel phase off the anchor the entry of the schedule has the two
    dates as its span and that same number as its days. *)
Theorem manual_date_edit_syncs_days (hol : list Z) (d : TimelineData)
    (idx : nat) (p : Phase) (e : Edit) (s' e' : Z) :
  phases d !! idx = Some p →
  (e = EditManualStart idx (Ymd s') ∧ manualEndDate p = Ymd e') ∨
  (e = EditManualEnd idx (Ymd e') ∧ manualStartDate p = Ymd s') →
  applyEdit hol e d
  = set_phase idx
      (mkPhase (p_id p) (p_name p) (e' - s' + 1) (isParallel p) (Ymd s')
         (Ymd e')) d ∧
  (isParallel p = true →
   ∀ rs d2 r, calculateSchedule hol (applyEdit hol e d) = (Some rs, d2) →
              findAnchorIndex d2 ≠ Some idx → rs !! idx = Some r →
              startDate r = Day s' ∧ endDate r = Day e' ∧
              r_days r = Num (e' - s' + 1)).
Proof.
  intros Hp He.
  assert (applyEdit hol e d
          = set_phase idx
              (mkPhase (p_id p) (p_name p) (e' - s' + 1) (isParallel p)
                 (Ymd s') (Ymd e')) d) as Heq.
  { destruct He as [[-> Hm]|[-> Hm]]; unfold applyEdit; rewrite Hp;
      unfold editPhase; destruct p as [i n dy par ms me]; simpl in *;
      subst; unfold orElse; simpl; rewrite refreshDays_Day; reflexivity. }
  split; [exact Heq|].
  intros Hpar rs d2 r Hc Hna Hr. rewrite Heq in Hc.
  destruct (calculateSchedule_cases _ _ _ _ Hc)
    as (a & pa & Hf & Hpa & -> & Hph & Had).
  assert (a ≠ idx) as Hai by (intros ->; now destruct Hna).
  set (p' := mkPhase (p_id p) (p_name p) (e' - s' + 1) (isParallel p)
               (Ymd s') (Ymd e')).
  assert (phases d2 !! idx = Some p') as Hp'.
  { rewrite Hph. simpl.
    apply list_lookup_insert_eq. eapply lookup_lt_Some, Hp. }
  destruct (scheduleList_lookup_other hol d2 a pa idx p' Hpa (not_eq_sym Hai)
              Hp') as (r' & Hr' & _ & _ & Hent).
  rewrite Hr in Hr'. injection Hr' as <-.
  rewrite (Hent Hpar). unfold parallelItem, p'. simpl.
  unfold getDaysDiff. simpl.
  replace (e' * msPerDay - s' * msPerDay) with ((e' - s') * msPerDay) by lia.
  rewrite Z.div_mul by (unfold msPerDay; lia). auto.
Qed.

Lemma manual_date_edit_syncs_days_witness :
  let p := mkPhase "2" "B" 3 true (Ymd 19730) (Ymd 19731) in
  let d := set_phase 1 p sampleData in
  let d' := applyEdit [] (EditManualEnd 1 (Ymd 19725)) d in
  d' = set_phase 1 (mkPhase "2" "B" (19725 - 19730 + 1) true (Ymd 19730)
                      (Ymd 19725)) d ∧
  ∃ rs r, calculateSchedule [] d' = (Some rs, d') ∧ rs !! 1%nat = Some r ∧
          startDate r = Day 19730 ∧ endDate r = Day 19725 ∧
          r_days r = Num (19725 - 19730 + 1).
Proof.
  intros p d d'.
  destruct (manual_date_edit_syncs_days [] d 1 p
              (EditManualEnd 1 (Ymd 19725)) 19730 19725 eq_refl
              (or_intror (conj eq_refl eq_refl))) as [H1 H2].
  split; [exact H1|].
  destruct (calculateSchedule [] d') as [[rs|] d2] eqn:Ec;
    [|vm_compute in Ec; discriminate].
  assert (d2 = d') as -> by (vm_compute in Ec; now injection Ec).
  destruct (rs !! 1%nat) as [r|] eqn:Er;
    [|vm_compute in Ec; injection Ec as <-; discriminate].
  exists rs, r. split; [reflexivity|]. split; [exact Er|].
  apply (H2 eq_refl rs d' r Ec); [vm_compute; discriminate | exact Er].
Defined.

(** ** Timelines *)

Lemma filter_all {A} (P : A → Prop) `{∀ x, Decision (P x)} (l : list A) :
  Forall P l → filter P l = l.
Proof.
  induction 1 as [|x l Hx _ IH]; [reflexivity|].
  rewrite filter_cons_True by exact Hx. now rewrite IH.
Qed.

Lemma filter_other_ids (l : list Timeline) i t :
  NoDup (t_id <$> l) → l !! i = Some t →
  filter (λ u, t_id u ≠ t_id t) l = delete i l.
Proof.
  revert i. induction l as [|u l IH]; intros i Hnd Hl; [discriminate|].
  rewrite fmap_cons in Hnd. apply NoDup_cons in Hnd as [Hnin Hnd].
  destruct i as [|i]; simpl in Hl.
  - injection Hl as ->. rewrite filter_cons_False by (intros H; now apply H).
    simpl. apply filter_all. rewrite Forall_forall. intros v Hv He.
    apply Hnin. rewrite <- He. apply list_elem_of_fmap. eauto.
  - assert (t_id u ≠ t_id t) as Hne.
    { intros He. apply Hnin. rewrite He. apply list_elem_of_fmap.
      exists t. split; [reflexivity | eapply list_elem_of_lookup_2, Hl]. }
    rewrite filter_cons_True by exact Hne. simpl. f_equal. now apply IH.
Qed.

(** X23.  Deleting the active timeline.  With two or more timelines of
    distinct ids and the dialog confirmed, the handler never raises; it
    removes the timeline that carries the active id and no other, keeps the
    holidays, and makes the first remaining timeline the active one.  When
    the active id is that of no timeline (the page then shows the first
    timeline as the active one) nothing is removed. *)
Theorem delete_timeline_removes_active (s : AppState) :
  NoDup (t_id <$> timelines s) → (2 ≤ length (timelines s))%nat →
  ∃ s' t0 ts,
    deleteTimeline true s = (false, s') ∧
    timelines s' = t0 :: ts ∧ activeTimelineId s' = t_id t0 ∧
    getActiveIndex s' = Some 0%nat ∧
    globalHolidays s' = globalHolidays s ∧
    timelines s'
    = match list_find (λ t, t_id t = activeTimelineId s) (timelines s) with
      | Some (i, _) => delete i (timelines s)
      | None => timelines s
      end.
Proof.
  intros Hnd Hlen. unfold deleteTimeline.
  destruct (Nat.leb_spec (length (timelines s)) 1) as [|_]; [lia|].
  cbn [negb]. cbv zeta.
  assert (filter (λ t, t_id t ≠ activeTimelineId s) (timelines s)
          = match list_find (λ t, t_id t = activeTimelineId s) (timelines s)
            with
            | Some (i, _) => delete i (timelines s)
            | None => timelines s
            end) as Hfl.
  { destruct (list_find _ _) as [[i t]|] eqn:Ef.
    - apply list_find_Some in Ef as (Hl & <- & _).
      now apply filter_other_ids.
    - apply list_find_None in Ef. now apply filter_all. }
  assert (filter (λ t, t_id t ≠ activeTimelineId s) (timelines s) ≠ [])
    as Hnil.
  { rewrite Hfl. destruct (list_find _ _) as [[i t]|] eqn:Ef.
    - apply list_find_Some in Ef as (Hl & _ & _).
      intros E. apply (f_equal length) in E.
      rewrite length_delete in E by eauto. simpl in E. lia.
    - intros E. rewrite E in Hlen. simpl in Hlen. lia. }
  cbn [timelines set_timelines globalHolidays].
  destruct (filter _ (timelines s)) as [|t0 ts] eqn:Er; [now destruct Hnil|].
  exists (mkState (t_id t0) (globalHolidays s) (t0 :: ts)), t0, ts.
  repeat split; trivial.
  unfold getActiveIndex. simpl. rewrite decide_True; reflexivity.
Qed.

Lemma delete_timeline_removes_active_witness :
  NoDup (t_id <$> timelines sampleState) ∧
  (2 ≤ length (timelines sampleState))%nat ∧
  ∃ s' t0 ts,
    deleteTimeline true sampleState = (false, s') ∧
    timelines s' = t0 :: ts ∧ activeTimelineId s' = t_id t0 ∧
    getActiveIndex s' = Some 0%nat ∧
    globalHolidays s' = globalHolidays sampleState ∧
    timelines s' = delete 0%nat (timelines sampleState).
Proof.
  assert (NoDup (t_id <$> timelines sampleState)) as H1
    by (apply (bool_decide_unpack _); vm_compute; exact I).
  assert (2 ≤ length (timelines sampleState))%nat as H2 by (simpl; lia).
  split; [exact H1|]. split; [exact H2|].
  exact (delete_timeline_removes_active sampleState H1 H2).
Defined.

(** ** The holiday list *)

Section SameWorkingDays.
Variables hol hol' : list Z.
Hypothesis Hw : ∀ x, isWorkingDay hol (Day x) = isWorkingDay hol' (Day x).

Lemma isWorkingDay_ext date : isWorkingDay hol date = isWorkingDay hol' date.
Proof. destruct date as [x|]; [apply Hw | reflexivity]. Qed.

Lemma countWorking_ext a k : countWorking hol a k = countWorking hol' a k.
Proof.
  revert a. induction k as [|k IH]; intros a; [reflexivity|].
  simpl. now rewrite Hw, IH.
Qed.

Lemma addBusinessDays_ext date n :
  addBusinessDays hol date n = addBusinessDays hol' date n.
Proof.
  destruct date as [d|]; [|now rewrite !addBusinessDays_invalid].
  destruct (decide (n ≤ 0)) as [Hn|Hn].
  { now rewrite !addBusinessDays_nonpos. }
  destruct (addBusinessDays_pos hol d n) as (e & -> & Hlt & Hwe & Hc); [lia|].
  symmetry. apply addBusinessDays_intro; trivial.
  - now rewrite <- Hw.
  - now rewrite <- countWorking_ext.
Qed.

Lemma subBusinessDays_ext date n :
  subBusinessDays hol date n = subBusinessDays hol' date n.
Proof.
  destruct date as [d|]; [|now rewrite !subBusinessDays_invalid].
  destruct (decide (n ≤ 0)) as [Hn|Hn].
  { now rewrite !subBusinessDays_nonpos. }
  destruct (subBusinessDays_pos hol d n) as (e & -> & Hlt & Hwe & Hc); [lia|].
  symmetry. apply subBusinessDays_intro; trivial.
  - now rewrite <- Hw.
  - now rewrite <- countWorking_ext.
Qed.

Lemma ensureWorkingDayBackward_ext date :
  ensureWorkingDayBackward hol date = ensureWorkingDayBackward hol' date.
Proof.
  destruct date as [d|].
  2: { now rewrite !ensureBackward_fixed. }
  destruct (ensureWorkingDayBackward_Day hol d) as (e & -> & Hle & Hwe & Hz).
  destruct (ensureWorkingDayBackward_Day hol' d)
    as (e' & -> & Hle' & Hwe' & Hz').
  f_equal.
  rewrite countWorking_zero in Hz. rewrite countWorking_zero in Hz'.
  destruct (Z.lt_trichotomy e e') as [Hlt|[->|Hgt]]; [|reflexivity|].
  - rewrite <- Hw, Hz in Hwe' by lia. discriminate.
  - rewrite Hw, Hz' in Hwe by lia. discriminate.
Qed.

Lemma ensureWorkingDayForward_ext date :
  ensureWorkingDayForward hol date = ensureWorkingDayForward hol' date.
Proof.
  destruct date as [d|].
  2: { now rewrite !ensureForward_fixed. }
  destruct (ensureWorkingDayForward_Day hol d) as (e & -> & Hle & Hwe & Hz).
  destruct (ensureWorkingDayForward_Day hol' d)
    as (e' & -> & Hle' & Hwe' & Hz').
  f_equal.
  rewrite countWorking_zero in Hz. rewrite countWorking_zero in Hz'.
  destruct (Z.lt_trichotomy e e') as [Hlt|[->|Hgt]]; [|reflexivity|].
  - rewrite Hw, Hz' in Hwe by lia. discriminate.
  - rewrite <- Hw, Hz in Hwe' by lia. discriminate.
Qed.

Lemma parallelItem_ext d p : parallelItem hol d p = parallelItem hol' d p.
Proof. unfold parallelItem. now rewrite addBusinessDays_ext. Qed.

Lemma backChain_ext d ps :
  ∀ ref, backChain hol d ref ps = backChain hol' d ref ps.
Proof.
  induction ps as [|p ps IH]; intros ref; [reflexivity|].
  simpl. unfold precedingItem. rewrite !subBusinessDays_ext, parallelItem_ext.
  simpl. now rewrite !IH.
Qed.

Lemma forwardChain_ext d ps :
  ∀ ref, forwardChain hol d ref ps = forwardChain hol' d ref ps.
Proof.
  induction ps as [|p ps IH]; intros ref; [reflexivity|].
  simpl. unfold succeedingItem. rewrite !addBusinessDays_ext, parallelItem_ext.
  simpl. now rewrite !IH.
Qed.

Lemma scheduleList_ext d a p : scheduleList hol d a p = scheduleList hol' d a p.
Proof.
  assert (anchorSpan hol d p = anchorSpan hol' d p) as Hsp.
  { unfold anchorSpan.
    now rewrite ensureWorkingDayBackward_ext, ensureWorkingDayForward_ext,
      subBusinessDays_ext, addBusinessDays_ext. }
  unfold scheduleList, anchorItem. rewrite Hsp.
  now rewrite backChain_ext, forwardChain_ext.
Qed.

Lemma calculateSchedule_ext d :
  calculateSchedule hol d = calculateSchedule hol' d.
Proof.
  destruct (truthy (anchorDate d)) eqn:Et.
  2: { now rewrite !calculateSchedule_null by auto. }
  destruct (phases d) as [|p0 ps] eqn:Ep.
  { now rewrite !calculateSchedule_null by auto. }
  destruct (findAnchorIndex d) as [a|] eqn:Ef.
  - destruct (findAnchorIndex_lookup _ _ Ef) as (p & Hp & _).
    rewrite !(calculateSchedule_found_list _ d a p) by trivial.
    now rewrite scheduleList_ext.
  - rewrite !(calculateSchedule_repair _ d p0 ps) by trivial.
    assert (phases (set_anchorPhaseId (p_id p0) d) !! 0%nat = Some p0) as Hp
      by (simpl; now rewrite Ep).
    rewrite !(scheduleFrom_list _ _ _ _ Hp). now rewrite scheduleList_ext.
Qed.
End SameWorkingDays.

Lemma coveredBy_working hol hol' x :
  coveredBy hol hol' = true → isWorkingDay hol' (Day x) = true →
  isWorkingDay hol (Day x) = true.
Proof.
  unfold coveredBy. rewrite forallb_forall. intros Hc Hx.
  unfold isWorkingDay in *. apply andb_true_iff in Hx as [Hwk Hh].
  rewrite Hwk. simpl. apply negb_true_iff.
  destruct (isHoliday hol (Day x)) eqn:Eh; [|reflexivity].
  unfold isHoliday, normalizeDateStr in Eh. simpl in Eh.
  apply existsb_exists in Eh as (h & Hin & He). apply Z.eqb_eq in He as <-.
  specialize (Hc x Hin). apply orb_true_iff in Hc as [Hc|Hc].
  - unfold isHoliday, normalizeDateStr in Hh. simpl in Hh. simpl in Hc.
    rewrite Hc in Hh. discriminate.
  - rewrite Hc in Hwk. discriminate.
Qed.

Lemma sameCalendar_working hol hol' :
  sameCalendar hol hol' = true →
  ∀ x, isWorkingDay hol (Day x) = isWorkingDay hol' (Day x).
Proof.
  unfold sameCalendar. intros [H1 H2]%andb_true_iff x.
  destruct (isWorkingDay hol (Day x)) eqn:E1,
    (isWorkingDay hol' (Day x)) eqn:E2; trivial.
  - now rewrite (coveredBy_working _ _ _ H2 E1) in E2.
  - now rewrite (coveredBy_working _ _ _ H1 E2) in E1.
Qed.

(** X24.  The holiday list counts as a set of working-day exclusions: two
    lists that differ only in the order of their entries, in repeated
    entries, and in entries that fall on a Saturday or a Sunday give the
    same schedule, the same business-day steps and the same anchor
    clamping, for every timeline and every date. *)
Theorem holidays_count_as_a_set (hol hol' : list Z) :
  sameCalendar hol hol' = true →
  (∀ d, calculateSchedule hol d = calculateSchedule hol' d) ∧
  (∀ date n, addBusinessDays hol date n = addBusinessDays hol' date n) ∧
  (∀ date n, subBusinessDays hol date n = subBusinessDays hol' date n) ∧
  (∀ date,
     ensureWorkingDayBackward hol date = ensureWorkingDayBackward hol' date ∧
     ensureWorkingDayForward hol date = ensureWorkingDayForward hol' date).
Proof.
  intros Hs. pose proof (sameCalendar_working _ _ Hs) as Hw.
  split; [|split; [|split]].
  - intros d. now apply calculateSchedule_ext.
  - intros date n. now apply addBusinessDays_ext.
  - intros date n. now apply subBusinessDays_ext.
  - intros date. split;
      [now apply ensureWorkingDayBackward_ext
      | now apply ensureWorkingDayForward_ext].
Qed.

Lemma holidays_count_as_a_set_witness :
  let hol : list Z := [19733; 19728; 19725; 19733] in
  let hol' : list Z := [19725; 19733] in
  sameCalendar hol hol' = true ∧
  calculateSchedule hol sampleData = calculateSchedule hol' sampleData.
Proof.
  intros hol hol'.
  assert (sameCalendar hol hol' = true) as H by reflexivity.
  split; [exact H|].
  exact (proj1 (holidays_count_as_a_set hol hol' H) sampleData).
Defined.

(** ** The Gantt chart *)

Lemma dateLt_Day a b : dateLt (Day a) (Day b) = (a <? b).
Proof.
  unfold dateLt. simpl. unfold msPerDay.
  destruct (Z.ltb_spec a b), (Z.ltb_spec (a * (1000 * 60 * 60 * 24))
                                (b * (1000 * 60 * 60 * 24))); trivial; lia.
Qed.

Lemma wholeDays_Day a b : wholeDays (Day a) (Day b) = Num (b - a).
Proof.
  unfold wholeDays. simpl.
  replace (b * msPerDay - a * msPerDay) with ((b - a) * msPerDay) by lia.
  now rewrite Z.div_mul by (unfold msPerDay; lia).
Qed.

Lemma getDaysDiff_Day a b : getDaysDiff (Day a) (Day b) = Num (b - a + 1).
Proof.
  unfold getDaysDiff. simpl.
  replace (b * msPerDay - a * msPerDay) with ((b - a) * msPerDay) by lia.
  now rewrite Z.div_mul by (unfold msPerDay; lia).
Qed.

Lemma widen_fold items : ∀ m0 x0,
  ∃ m x, foldl widen (Day m0, Day x0) items = (Day m, Day x) ∧
         m ≤ m0 ∧ x0 ≤ x ∧
         (∀ r a, r ∈ items → startDate r = Day a → m ≤ a) ∧
         (∀ r b, r ∈ items → endDate r = Day b → b ≤ x) ∧
         (m = m0 ∨ ∃ r, r ∈ items ∧ startDate r = Day m) ∧
         (x = x0 ∨ ∃ r, r ∈ items ∧ endDate r = Day x).
Proof.
  induction items as [|r items IH]; intros m0 x0.
  { exists m0, x0. repeat split; auto; try lia;
      intros r a Hr; now apply elem_of_nil in Hr. }
  cbn [foldl].
  assert (∃ m1 x1,
            widen (Day m0, Day x0) r = (Day m1, Day x1) ∧
            m1 ≤ m0 ∧ x0 ≤ x1 ∧
            (∀ a, startDate r = Day a → m1 ≤ a) ∧
            (∀ b, endDate r = Day b → b ≤ x1) ∧
            (m1 = m0 ∨ startDate r = Day m1) ∧
            (x1 = x0 ∨ endDate r = Day x1)) as (m1 & x1 & -> & H1 & H2 & H3 & H4 & H5 & H6).
  { unfold widen.
    destruct (startDate r) as [a|], (endDate r) as [b|];
      rewrite ?dateLt_Day; try change (dateLt InvalidDate _) with false;
      try change (dateLt _ InvalidDate) with false; cbv iota.
    all: repeat match goal with
           | |- context [Z.ltb ?u ?v] => destruct (Z.ltb_spec u v)
           end.
    all: eexists _, _; (split; [reflexivity|]).
    all: repeat split; auto; try lia.
    all: try (intros ? [= <-]; lia).
    all: intros ? [=]. }
  destruct (IH m1 x1) as (m & x & -> & G1 & G2 & G3 & G4 & G5 & G6).
  exists m, x. split; [reflexivity|].
  split; [lia|]. split; [lia|].
  split; [|split; [|split]].
  - intros q a Hq Ha. apply elem_of_cons in Hq as [->|Hq].
    + specialize (H3 a Ha). lia.
    + now apply (G3 q).
  - intros q b Hq Hb. apply elem_of_cons in Hq as [->|Hq].
    + specialize (H4 b Hb). lia.
    + now apply (G4 q).
  - destruct G5 as [->|(q & Hq & Hs)].
    + destruct H5 as [->|Hs]; [now left|].
      right. exists r. split; [apply elem_of_cons; now left | exact Hs].
    + right. exists q. split; [apply elem_of_cons; now right | exact Hs].
  - destruct G6 as [->|(q & Hq & Hs)].
    + destruct H6 as [->|Hs]; [now left|].
      right. exists r. split; [apply elem_of_cons; now left | exact Hs].
    + right. exists q. split; [apply elem_of_cons; now right | exact Hs].
Qed.

Lemma widen_groups (all : list (Timeline * list ResultItem)) : ∀ acc,
  foldl (λ acc group, foldl widen acc (snd group)) acc all
  = foldl widen acc (mjoin (snd <$> all)).
Proof.
  induction all as [|g all IH]; intros acc; [reflexivity|].
  simpl. now rewrite foldl_app, IH.
Qed.

Lemma widen_invalid_min l : ∀ x,
  fst (foldl widen (InvalidDate, x) l) = InvalidDate.
Proof.
  induction l as [|r l IH]; intros x; [reflexivity|]. cbn [foldl].
  assert (∃ y, widen (InvalidDate, x) r = (InvalidDate, y)) as [y ->].
  { unfold widen, dateLt. destruct (getTime (startDate r)); simpl; eauto. }
  apply IH.
Qed.

Lemma widen_invalid_max l : ∀ x,
  snd (foldl widen (x, InvalidDate) l) = InvalidDate.
Proof.
  induction l as [|r l IH]; intros x; [reflexivity|]. cbn [foldl].
  assert (∃ y, widen (x, InvalidDate) r = (y, InvalidDate)) as [y ->].
  { unfold widen. unfold dateLt at 2. simpl. eauto. }
  apply IH.
Qed.

(** X25.  No bar of the Gantt chart is clipped.  Whenever the date range
    of the chart is valid, every bar whose span is a pair of valid dates
    starts at the header cell of its start day, at least three days (90 px)
    from the left edge of the canvas, and, when its start is not after its
    end, ends at least three days before the right edge.  The margins are
    exact: some bar starts three days after the first day of the canvas
    and some bar ends three days before its last. *)
Theorem gantt_bars_inside_canvas (all : list (Timeline * list ResultItem))
    (mn mx : Z) :
  ganttRange all = Some (Day mn, Day mx) →
  (∀ g r a b, g ∈ all → r ∈ snd g →
     startDate r = Day a → endDate r = Day b →
     barLeft (Day mn) r = Num ((a - mn) * 30) ∧
     barWidth r = Num ((b - a + 1) * 30) ∧
     totalWidth (Day mn, Day mx) = Num ((mx - mn + 1) * 30) ∧
     90 ≤ (a - mn) * 30 ∧
     (a - mn) * 30 + (b - a + 1) * 30 + 90 ≤ (mx - mn + 1) * 30) ∧
  (∃ g r, g ∈ all ∧ r ∈ snd g ∧ startDate r = Day (mn + 3)) ∧
  (∃ g r, g ∈ all ∧ r ∈ snd g ∧ endDate r = Day (mx - 3)).
Proof.
  unfold ganttRange.
  destruct all as [|[t0 [|first items0]] all'] eqn:Eall; try discriminate.
  rewrite <- Eall. rewrite widen_groups.
  assert (first ∈ mjoin (snd <$> all)) as Hfirst.
  { rewrite Eall. simpl. apply elem_of_cons. now left. }
  assert (∀ r, r ∈ mjoin (snd <$> all) ↔ ∃ g, g ∈ all ∧ r ∈ snd g) as Hcat.
  { intros r. rewrite list_elem_of_join. split.
    - intros (l & Hr & Hl). apply list_elem_of_fmap in Hl as (g & -> & Hg).
      eauto.
    - intros (g & Hg & Hr). exists (snd g). split; [exact Hr|].
      apply list_elem_of_fmap. eauto. }
  destruct (startDate first) as [m0|] eqn:Es0.
  2: { pose proof (widen_invalid_min (mjoin (snd <$> all)) (endDate first))
         as Hinv.
       destruct (foldl widen _ _) as [mn' mx']. simpl in Hinv. subst mn'.
       discriminate. }
  destruct (endDate first) as [x0|] eqn:Ee0.
  2: { pose proof (widen_invalid_max (mjoin (snd <$> all)) (Day m0))
         as Hinv.
       destruct (foldl widen _ _) as [mn' mx']. simpl in Hinv. subst mx'.
       destruct mn'; discriminate. }
  destruct (widen_fold (mjoin (snd <$> all)) m0 x0)
    as (m & x & -> & G1 & G2 & G3 & G4 & G5 & G6).
  simpl. intros [= <- <-].
  split; [|split].
  - intros g r a b Hg Hr Ha Hb.
    assert (r ∈ mjoin (snd <$> all)) as Hin by (apply Hcat; eauto).
    specialize (G3 r a Hin Ha). specialize (G4 r b Hin Hb).
    unfold barLeft, barWidth, totalWidth. cbn [fst snd].
    rewrite Ha, Hb, !wholeDays_Day, getDaysDiff_Day. unfold PX_PER_DAY.
    simpl numMul.
    split; [f_equal; lia|]. split; [reflexivity|].
    split; [f_equal; lia|]. lia.
  - assert (∃ r, r ∈ mjoin (snd <$> all) ∧ startDate r = Day m)
      as (r & Hr & Hs).
    { destruct G5 as [->|H]; [eauto | exact H]. }
    apply Hcat in Hr as (g & Hg & Hr). exists g, r.
    repeat split; trivial. rewrite Hs. f_equal. lia.
  - assert (∃ r, r ∈ mjoin (snd <$> all) ∧ endDate r = Day x)
      as (r & Hr & Hs).
    { destruct G6 as [->|H]; [eauto | exact H]. }
    apply Hcat in Hr as (g & Hg & Hr). exists g, r.
    repeat split; trivial. rewrite Hs. f_equal. lia.
Qed.

Lemma gantt_bars_inside_canvas_witness :
  ganttRange (allSchedules sampleState) = Some (Day 19717, Day 19755) ∧
  (∃ g r, g ∈ allSchedules sampleState ∧ r ∈ snd g ∧
          startDate r = Day (19717 + 3)) ∧
  (∃ g r, g ∈ allSchedules sampleState ∧ r ∈ snd g ∧
          endDate r = Day (19755 - 3)).
Proof.
  assert (ganttRange (allSchedules sampleState)
          = Some (Day 19717, Day 19755)) as H by (vm_compute; reflexivity).
  split; [exact H|].
  exact (proj2 (gantt_bars_inside_canvas (allSchedules sampleState)
                  19717 19755 H)).
Defined.

(** ** The phase ids *)

Lemma editPhase_id e d q : p_id (editPhase e d q) = p_id q.
Proof.
  destruct e; simpl; trivial.
  - destruct (bool_decide _); [reflexivity|].
    destruct checked; simpl; [|reflexivity].
    destruct (truthy (manualStartDate q)); simpl;
      destruct (truthy (manualEndDate q)); reflexivity.
  - unfold refreshDays. now destruct (getDaysDiff _ _).
  - unfold refreshDays. now destruct (getDaysDiff _ _).
  - now destruct (isParallel q).
Qed.

Lemma set_phase_ids d idx p p' :
  phases d !! idx = Some p → p_id p' = p_id p →
  p_id <$> phases (set_phase idx p' d) = p_id <$> phases d.
Proof.
  intros Hp Hid. simpl. rewrite list_fmap_insert, Hid.
  apply list_insert_id. now rewrite list_lookup_fmap, Hp.
Qed.

Lemma reorder_Permutation (l : list Phase) fromIdx toIdx p :
  l !! fromIdx = Some p →
  take toIdx (delete fromIdx l) ++ p :: drop toIdx (delete fromIdx l) ≡ₚ l.
Proof.
  intros Hp. rewrite <- Permutation_middle, take_drop.
  symmetry. now apply delete_Permutation.
Qed.

Lemma movePhase_ids hol d pidx q pid delta :
  phases d !! pidx = Some q →
  p_id <$> phases (snd (movePhase hol d pidx q pid delta))
  = p_id <$> phases d.
Proof.
  intros Hq. unfold movePhase.
  destruct (bool_decide (p_id q = anchorPhaseId d)); [reflexivity|].
  pose proof (currentSpan_phases hol d q pid) as H1.
  destruct (currentSpan hol d q pid) as [[[ts te]|] d1]; simpl in H1.
  2: { simpl. now rewrite H1. }
  pose proof (calculateSchedule_phases hol d1) as H2.
  destruct (calculateSchedule hol d1) as [[rs|] d2]; simpl in H2.
  2: { simpl. congruence. }
  destruct (existsb _ rs); cbn [snd]; [congruence|].
  rewrite (set_phase_ids d2 pidx q) by
    (first [congruence | now rewrite commitMove_eq]).
  congruence.
Qed.

Lemma ganttChangeData_ids hol drag delta d :
  p_id <$> phases (snd (ganttChangeData hol drag delta d))
  = p_id <$> phases d.
Proof.
  unfold ganttChangeData.
  destruct (list_find _ _) as [[pidx q]|] eqn:Ef; [|reflexivity].
  apply list_find_Some in Ef as (Hq & _ & _).
  destruct (dragType drag).
  - now apply movePhase_ids.
  - cbn [snd]. apply (set_phase_ids d pidx q); trivial.
    apply resizePhase_keeps.
Qed.

Lemma delete_out_of_range {A} (l : list A) i :
  (length l ≤ i)%nat → delete i l = l.
Proof.
  revert i. induction l as [|x l IH]; intros i Hi; [reflexivity|].
  destruct i as [|i]; simpl in *; [lia|]. f_equal. apply IH. lia.
Qed.

Lemma applyEdit_ids_exact hol e d :
  match e with
  | EditAddPhase now =>
      p_id <$> phases (applyEdit hol e d) = (p_id <$> phases d) ++ [now]
  | EditDelete idx =>
      p_id <$> phases (applyEdit hol e d) = delete idx (p_id <$> phases d)
  | EditReorder _ _ =>
      p_id <$> phases (applyEdit hol e d) ≡ₚ p_id <$> phases d
  | _ => p_id <$> phases (applyEdit hol e d) = p_id <$> phases d
  end.
Proof.
  assert (∀ idx e',
            applyEdit hol e' d
            = match phases d !! idx with
              | Some p => set_phase idx (editPhase e' d p) d
              | None => d
              end →
            p_id <$> phases (applyEdit hol e' d) = p_id <$> phases d)
    as Hfield.
  { intros idx e' ->. destruct (phases d !! idx) as [p|] eqn:Hp; [|reflexivity].
    apply (set_phase_ids d idx p); [exact Hp | apply editPhase_id]. }
  destruct e; try (apply (Hfield idx); reflexivity); try reflexivity.
  - unfold applyEdit. destruct (phases d !! idx) as [p|] eqn:Hp.
    + destruct (bool_decide (p_id p = anchorPhaseId d));
        cbn [phases set_anchorPhaseId set_phases];
        apply list_fmap_delete.
    + symmetry. apply delete_out_of_range. rewrite length_fmap.
      now apply lookup_ge_None.
  - unfold applyEdit. destruct (bool_decide (fromIdx = toIdx)); [reflexivity|].
    destruct (phases d !! fromIdx) as [p|] eqn:Hp; [|reflexivity].
    cbn [phases set_phases]. apply fmap_Permutation.
    now apply reorder_Permutation.
  - simpl. now rewrite fmap_app.
  - unfold applyEdit. now rewrite calculateSchedule_phases.
  - unfold applyEdit. destruct (deltaDays =? 0); [reflexivity|].
    now rewrite ganttChangeData_ids.
Qed.

(** X26.  No edit invents, renames or loses a phase id.  After a field
    edit, the parallel checkbox, an anchor setting, the sort toggle, a
    render or a drag the list of ids is the list it was; after a delete it
    is that list without the entry of the deleted row; after a reorder it
    is a permutation of it; after adding a phase it is that list followed
    by the new id, the clock reading.  So no id appears that was not there
    or added, and phase ids that are distinct stay distinct as long as no
    phase is added under an id already in use. *)
Theorem edits_keep_ids_distinct (hol : list Z) (e : Edit)
    (d : TimelineData) :
  NoDup (p_id <$> phases d) →
  (∀ now, e = EditAddPhase now → now ∉ p_id <$> phases d) →
  NoDup (p_id <$> phases (applyEdit hol e d)) ∧
  (∀ x, x ∈ p_id <$> phases (applyEdit hol e d) →
        x ∈ p_id <$> phases d ∨ e = EditAddPhase x) ∧
  match e with
  | EditAddPhase now =>
      p_id <$> phases (applyEdit hol e d) = (p_id <$> phases d) ++ [now]
  | EditDelete idx =>
      p_id <$> phases (applyEdit hol e d) = delete idx (p_id <$> phases d)
  | EditReorder _ _ =>
      p_id <$> phases (applyEdit hol e d) ≡ₚ p_id <$> phases d
  | _ => p_id <$> phases (applyEdit hol e d) = p_id <$> phases d
  end.
Proof.
  intros Hnd Hfresh.
  split; [|split; [|apply applyEdit_ids_exact]].
  - pose proof (applyEdit_ids_exact hol e d) as Hex.
    destruct e; try (rewrite Hex; exact Hnd).
    + rewrite Hex. apply (sublist_NoDup _ _ Hnd), sublist_delete.
    + rewrite Hex. apply NoDup_app. split; [exact Hnd|].
      split; [|apply NoDup_singleton].
      intros x Hx Hx'. apply list_elem_of_singleton in Hx' as ->.
      now apply (Hfresh now).
  - pose proof (applyEdit_ids_exact hol e d) as Hex.
    intros x. destruct e; try (rewrite Hex; now left).
    + rewrite Hex. intros Hx. left.
      apply (elem_of_sublist _ _ _ Hx), sublist_delete.
    + rewrite Hex. intros Hx. apply elem_of_app in Hx as [Hx|Hx]; [now left|].
      apply list_elem_of_singleton in Hx as ->. now right.
Qed.

Lemma edits_keep_ids_distinct_witness :
  NoDup (p_id <$> phases sampleData) ∧
  NoDup (p_id <$> phases (applyEdit [] (EditDelete 1) sampleData)) ∧
  p_id <$> phases (applyEdit [] (EditDelete 1) sampleData)
  = delete 1%nat (p_id <$> phases sampleData).
Proof.
  assert (NoDup (p_id <$> phases sampleData)) as H
    by (apply (bool_decide_unpack _); vm_compute; exact I).
  split; [exact H|].
  destruct (edits_keep_ids_distinct [] (EditDelete 1) sampleData H)
    as (H1 & _ & H3); [intros now [=]|].
  split; [exact H1 | exact H3].
Defined.

(** ** More holidays *)

Section MoreHolidays.
Variables hol hol' : list Z.
Hypothesis Hcov : coveredBy hol hol' = true.

Lemma countWorking_more a k : countWorking hol' a k ≤ countWorking hol a k.
Proof.
  revert a. induction k as [|k IH]; intros a; [reflexivity|]. simpl.
  specialize (IH (a + 1)).
  destruct (isWorkingDay hol' (Day a)) eqn:E.
  - rewrite (coveredBy_working _ _ _ Hcov E). lia.
  - destruct (isWorkingDay hol (Day a)); lia.
Qed.

Lemma subBusinessDays_more d d' n :
  d' ≤ d → 0 ≤ n →
  ∃ e e', subBusinessDays hol (Day d) n = Day e ∧
          subBusinessDays hol' (Day d') n = Day e' ∧ e' ≤ e.
Proof.
  intros Hd Hn. destruct (decide (n = 0)) as [->|Hne].
  { exists d, d'. now rewrite !subBusinessDays_nonpos by lia. }
  destruct (subBusinessDays_pos hol d n) as (e & -> & Hlt & Hwe & Hc); [lia|].
  destruct (subBusinessDays_pos hol' d' n) as (e' & -> & Hlt' & Hwe' & Hc');
    [lia|].
  exists e, e'. repeat split; trivial.
  destruct (decide (e' ≤ e)) as [|Hgt]; [trivial|]. exfalso.
  pose proof (countWorking_split hol e e' d) as H1.
  pose proof (countWorking_split hol e' d' d) as H2.
  pose proof (countWorking_pos hol e (Z.to_nat (e' - e)) Hwe) as H3.
  pose proof (countWorking_more e' (Z.to_nat (d' - e'))) as H4.
  pose proof (countWorking_bounds hol d' (Z.to_nat (d - d'))) as H5.
  lia.
Qed.

Lemma addBusinessDays_more d d' n :
  d ≤ d' → 0 ≤ n →
  ∃ e e', addBusinessDays hol (Day d) n = Day e ∧
          addBusinessDays hol' (Day d') n = Day e' ∧ e ≤ e'.
Proof.
  intros Hd Hn. destruct (decide (n = 0)) as [->|Hne].
  { exists d, d'. now rewrite !addBusinessDays_nonpos by lia. }
  destruct (addBusinessDays_pos hol d n) as (e & -> & Hlt & Hwe & Hc); [lia|].
  destruct (addBusinessDays_pos hol' d' n) as (e' & -> & Hlt' & Hwe' & Hc');
    [lia|].
  exists e, e'. repeat split; trivial.
  destruct (decide (e ≤ e')) as [|Hgt]; [trivial|]. exfalso.
  pose proof (countWorking_split hol (d + 1) (d' + 1) (e + 1)) as H1.
  pose proof (countWorking_split hol (d' + 1) (e' + 1) (e + 1)) as H2.
  assert (e' + 1 ≤ e) as Hle by lia.
  pose proof (countWorking_upto_working hol (e' + 1) e Hle Hwe) as H6.
  pose proof (countWorking_more (d' + 1) (Z.to_nat (e' - d'))) as H4.
  pose proof (countWorking_bounds hol (d + 1) (Z.to_nat (d' + 1 - (d + 1))))
    as H5.
  pose proof (countWorking_bounds hol (e' + 1) (Z.to_nat (e - (e' + 1))))
    as H7.
  replace (e' + 1 - (d' + 1)) with (e' - d') in H2 by lia.
  replace (e + 1 - (d + 1)) with (e - d) in H1 by lia.
  lia.
Qed.

Lemma ensureWorkingDayBackward_more d :
  ∃ e e', ensureWorkingDayBackward hol (Day d) = Day e ∧
          ensureWorkingDayBackward hol' (Day d) = Day e' ∧ e' ≤ e.
Proof.
  destruct (ensureWorkingDayBackward_Day hol d) as (e & -> & Hle & Hwe & Hz).
  destruct (ensureWorkingDayBackward_Day hol' d)
    as (e' & -> & Hle' & Hwe' & Hz').
  exists e, e'. repeat split; trivial.
  destruct (decide (e' ≤ e)) as [|Hgt]; [trivial|]. exfalso.
  rewrite countWorking_zero in Hz.
  pose proof (coveredBy_working _ _ _ Hcov Hwe') as Hw.
  rewrite (Hz e') in Hw by lia. discriminate.
Qed.

Lemma ensureWorkingDayForward_more d :
  ∃ e e', ensureWorkingDayForward hol (Day d) = Day e ∧
          ensureWorkingDayForward hol' (Day d) = Day e' ∧ e ≤ e'.
Proof.
  destruct (ensureWorkingDayForward_Day hol d) as (e & -> & Hle & Hwe & Hz).
  destruct (ensureWorkingDayForward_Day hol' d)
    as (e' & -> & Hle' & Hwe' & Hz').
  exists e, e'. repeat split; trivial.
  destruct (decide (e ≤ e')) as [|Hgt]; [trivial|]. exfalso.
  rewrite countWorking_zero in Hz.
  pose proof (coveredBy_working _ _ _ Hcov Hwe') as Hw.
  rewrite (Hz e') in Hw by lia. discriminate.
Qed.

Lemma backChain_more d ps : ∀ x x', x' ≤ x →
  Forall2 (λ r' r, r_isParallel r = false → noLater r' r)
    (backChain hol' d (Day x') ps) (backChain hol d (Day x) ps).
Proof.
  induction ps as [|p ps IH]; intros x x' Hx; [constructor|].
  simpl. destruct (isParallel p) eqn:E.
  - constructor; [|now apply IH]. simpl. rewrite E. discriminate.
  - destruct (subBusinessDays_more x x' 1 Hx) as (e & e' & He & He' & Hle);
      [lia|].
    destruct (subBusinessDays_more e e' (Z.max 0 (days p - 1)) Hle)
      as (s & s' & Hs & Hs' & Hsle); [lia|].
    unfold precedingItem. rewrite He, He', Hs, Hs'. simpl.
    constructor; [|now apply IH].
    intros _. exists s, e, s', e'. simpl. repeat split; trivial.
Qed.

Lemma forwardChain_more d ps : ∀ x x', x ≤ x' →
  Forall2 (λ r r', r_isParallel r = false → noLater r r')
    (forwardChain hol d (Day x) ps) (forwardChain hol' d (Day x') ps).
Proof.
  induction ps as [|p ps IH]; intros x x' Hx; [constructor|].
  simpl. destruct (isParallel p) eqn:E.
  - constructor; [|now apply IH]. simpl. rewrite E. discriminate.
  - destruct (addBusinessDays_more x x' 1 Hx) as (s & s' & Hs & Hs' & Hsle);
      [lia|].
    destruct (addBusinessDays_more s s' (Z.max 0 (days p - 1)) Hsle)
      as (e & e' & He & He' & Hle); [lia|].
    unfold succeedingItem. rewrite Hs, Hs', He, He'. simpl.
    constructor; [|now apply IH].
    intros _. exists s', e', s, e. simpl. repeat split; trivial.
Qed.
End MoreHolidays.

(** X27.  More holidays push the chain away from the anchor date, never
    towards it.  Let the second holiday list hold every weekday holiday of
    the first.  For a timeline anchored on an end date, the anchor phase
    and every sequential phase before it start and end no later under the
    second list than under the first; anchored on a start date, the anchor
    phase and every sequential phase after it start and end no earlier. *)
Theorem more_holidays_push_outward (hol hol' : list Z) (d : TimelineData)
    (a : nat) (ad : Z) :
  coveredBy hol hol' = true → anchorDate d = Ymd ad →
  findAnchorIndex d = Some a →
  ∃ rs rs',
    calculateSchedule hol d = (Some rs, d) ∧
    calculateSchedule hol' d = (Some rs', d) ∧
    ∀ i r r', rs !! i = Some r → rs' !! i = Some r' →
              r_isParallel r = false ∨ i = a →
              (anchorType d = AnchorEnd → (i ≤ a)%nat → noLater r' r) ∧
              (anchorType d = AnchorStart → (a ≤ i)%nat → noLater r r').
Proof.
  intros Hcov Had Hf.
  assert (truthy (anchorDate d) = true) as Ht by now rewrite Had.
  destruct (findAnchorIndex_lookup _ _ Hf) as (pa & Hpa & _).
  exists (scheduleList hol d a pa), (scheduleList hol' d a pa).
  split; [now apply calculateSchedule_found_list|].
  split; [now apply calculateSchedule_found_list|].
  pose proof (lookup_lt_Some _ _ _ Hpa) as Hlt.
  set (B := reverse (backChain hol d (fst (anchorSpan hol d pa))
                       (reverse (take a (phases d))))).
  set (B' := reverse (backChain hol' d (fst (anchorSpan hol' d pa))
                        (reverse (take a (phases d))))).
  set (F := forwardChain hol d (snd (anchorSpan hol d pa))
              (drop (S a) (phases d))).
  set (F' := forwardChain hol' d (snd (anchorSpan hol' d pa))
               (drop (S a) (phases d))).
  assert (scheduleList hol d a pa = B ++ anchorItem hol d pa :: F) as ->
    by reflexivity.
  assert (scheduleList hol' d a pa = B' ++ anchorItem hol' d pa :: F') as ->
    by reflexivity.
  assert (length B = a ∧ length B' = a) as [HlB HlB'].
  { unfold B, B'. rewrite !length_reverse.
    pose proof (backChain_entries hol d (fst (anchorSpan hol d pa))
                  (reverse (take a (phases d)))) as H1.
    pose proof (backChain_entries hol' d (fst (anchorSpan hol' d pa))
                  (reverse (take a (phases d)))) as H2.
    apply Forall2_length in H1, H2.
    rewrite <- H1, <- H2, length_reverse, length_take. lia. }
  intros i r r' Hr Hr' Hsel. split.
  - intros Hty Hi.
    assert (∃ s e s' e', anchorSpan hol d pa = (Day s, Day e) ∧
                         anchorSpan hol' d pa = (Day s', Day e') ∧
                         s' ≤ s ∧ e' ≤ e) as (s & e & s' & e' & Hsp & Hsp' & Hs & He).
    { unfold anchorSpan. rewrite Had, Hty. simpl.
      destruct (ensureWorkingDayBackward_more hol hol' Hcov ad)
        as (e & e' & -> & -> & He).
      destruct (subBusinessDays_more hol hol' Hcov e e'
                  (Z.max 0 (days pa - 1)) He) as (s & s' & -> & -> & Hs);
        [lia|].
      exists s, e, s', e'. auto. }
    destruct (decide (i = a)) as [->|Hia].
    + rewrite list_lookup_middle in Hr by (symmetry; exact HlB).
      rewrite list_lookup_middle in Hr' by (symmetry; exact HlB').
      injection Hr as <-. injection Hr' as <-.
      exists s, e, s', e'. unfold anchorItem. rewrite Hsp, Hsp'. simpl.
      repeat split; trivial.
    + destruct Hsel as [Hseq|]; [|contradiction].
      rewrite lookup_app_l in Hr by lia.
      rewrite lookup_app_l in Hr' by lia.
      assert (Forall2 (λ r' r, r_isParallel r = false → noLater r' r) B' B)
        as Hall.
      { unfold B, B'. apply Forall2_reverse. rewrite Hsp, Hsp'. simpl.
        now apply backChain_more. }
      exact (Forall2_lookup_lr _ _ _ _ _ _ Hall Hr' Hr Hseq).
  - intros Hty Hi.
    assert (∃ s e s' e', anchorSpan hol d pa = (Day s, Day e) ∧
                         anchorSpan hol' d pa = (Day s', Day e') ∧
                         s ≤ s' ∧ e ≤ e') as (s & e & s' & e' & Hsp & Hsp' & Hs & He).
    { unfold anchorSpan. rewrite Had, Hty. simpl.
      destruct (ensureWorkingDayForward_more hol hol' Hcov ad)
        as (s & s' & -> & -> & Hs).
      destruct (addBusinessDays_more hol hol' Hcov s s'
                  (Z.max 0 (days pa - 1)) Hs) as (e & e' & -> & -> & He);
        [lia|].
      exists s, e, s', e'. auto. }
    destruct (decide (i = a)) as [->|Hia].
    + rewrite list_lookup_middle in Hr by (symmetry; exact HlB).
      rewrite list_lookup_middle in Hr' by (symmetry; exact HlB').
      injection Hr as <-. injection Hr' as <-.
      exists s', e', s, e. unfold anchorItem. rewrite Hsp, Hsp'. simpl.
      repeat split; trivial.
    + destruct Hsel as [Hseq|]; [|contradiction].
      rewrite lookup_app_r in Hr by lia.
      rewrite lookup_app_r in Hr' by lia.
      rewrite HlB in Hr. rewrite HlB' in Hr'.
      destruct (i - a)%nat as [|k] eqn:Ek; [lia|]. simpl in Hr, Hr'.
      assert (Forall2 (λ r r', r_isParallel r = false → noLater r r') F F')
        as Hall.
      { unfold F, F'. rewrite Hsp, Hsp'. simpl. now apply forwardChain_more. }
      exact (Forall2_lookup_lr _ _ _ _ _ _ Hall Hr Hr' Hseq).
Qed.

Lemma more_holidays_push_outward_witness :
  let hol : list Z := [19733] in
  let hol' : list Z := [19726; 19733; 19732] in
  coveredBy hol hol' = true ∧
  ∃ rs rs',
    calculateSchedule hol sampleData = (Some rs, sampleData) ∧
    calculateSchedule hol' sampleData = (Some rs', sampleData) ∧
    ∀ i r r', rs !! i = Some r → rs' !! i = Some r' →
              r_isParallel r = false ∨ i = 2%nat →
              (anchorType sampleData = AnchorEnd → (i ≤ 2)%nat →
               noLater r' r) ∧
              (anchorType sampleData = AnchorStart → (2 ≤ i)%nat →
               noLater r r').
Proof.
  intros hol hol'. split; [reflexivity|].
  exact (more_holidays_push_outward hol hol' sampleData 2 19734
           eq_refl eq_refl eq_refl).
Defined.

(** ** The rows of the phase list *)

Lemma dateMapOf_eq ps rs :
  dateMapOf ps rs
  = reverse ((λ pr : Phase * ResultItem,
                (p_id pr.1, (startDate pr.2, endDate pr.2))) <$> zip ps rs).
Proof.
  unfold dateMapOf.
  assert (∀ l acc,
            foldl (λ dateMap (pr : Phase * ResultItem),
                     (p_id pr.1, (startDate pr.2, endDate pr.2)) :: dateMap)
              acc l
            = reverse ((λ pr : Phase * ResultItem,
                          (p_id pr.1, (startDate pr.2, endDate pr.2))) <$> l)
              ++ acc) as H.
  { induction l as [|x l IH]; intros acc; [reflexivity|].
    cbn [foldl]. rewrite IH, fmap_cons, reverse_cons, <- app_assoc.
    reflexivity. }
  rewrite H. apply app_nil_r.
Qed.

Lemma assoc_find_unique {V} (l : list (string * V)) k v :
  NoDup (fst <$> l) → (k, v) ∈ l →
  ∃ i, list_find (λ kv, fst kv = k) l = Some (i, (k, v)).
Proof.
  induction l as [|[k0 v0] l IH]; intros Hnd Hin;
    [now apply elem_of_nil in Hin|].
  rewrite fmap_cons in Hnd. apply NoDup_cons in Hnd as [Hnin Hnd].
  apply elem_of_cons in Hin as [[= <- <-]|Hin].
  - exists 0%nat. simpl. now rewrite decide_True.
  - destruct (IH Hnd Hin) as [i Hi].
    exists (S i). simpl. rewrite decide_False.
    + now rewrite Hi.
    + simpl. intros ->. apply Hnin. apply list_elem_of_fmap.
      exists (k, v). split; [reflexivity | exact Hin].
Qed.

(** X28.  The phase list shows the dates of the schedule.  For a timeline
    with distinct phase ids whose schedule exists, the row of every
    sequential phase shows the start and the end of that phase's entry of the
    schedule, whatever manual dates the phase still carries, and the row of
    a parallel phase shows its manual dates. *)
Theorem rows_show_schedule (hol : list Z) (data data' : TimelineData)
    (rs : list ResultItem) (i : nat) (p : Phase) (r : ResultItem) :
  NoDup (p_id <$> phases data) →
  calculateSchedule hol data = (Some rs, data') →
  phases data !! i = Some p → rs !! i = Some r →
  phaseRows hol data !! i
  = Some (if isParallel p
          then (orElse (manualStartDate p) NoStr,
                orElse (manualEndDate p) NoStr)
          else (iso (startDate r), iso (endDate r))).
Proof.
  intros Hnd Hc Hp Hr. unfold phaseRows. rewrite Hc.
  destruct (calculateSchedule_cases _ _ _ _ Hc)
    as (a & pa & _ & _ & _ & Hph & _).
  rewrite Hph, list_lookup_fmap, Hp. simpl. f_equal.
  unfold rowDates. destruct (isParallel p); [reflexivity|]. simpl.
  set (f := λ pr : Phase * ResultItem,
              (p_id pr.1, (startDate pr.2, endDate pr.2))).
  assert ((p_id p, (startDate r, endDate r)) ∈ dateMapOf (phases data) rs)
    as Hin.
  { rewrite dateMapOf_eq. apply elem_of_reverse.
    apply (list_elem_of_fmap_2 f _ (p, r)).
    apply (list_elem_of_lookup_2 _ i). apply lookup_zip_with_Some.
    exists p, r. auto. }
  assert (NoDup (fst <$> dateMapOf (phases data) rs)) as Hnd'.
  { rewrite dateMapOf_eq, fmap_reverse, reverse_Permutation.
    rewrite <- list_fmap_compose.
    assert (length rs = length (phases data)) as Hlen.
    { pose proof (calculateSchedule_ids hol data rs) as Hids.
      rewrite Hc in Hids. specialize (Hids eq_refl).
      apply (f_equal length) in Hids. now rewrite !length_fmap in Hids. }
    change (NoDup ((fst ∘ f) <$> zip (phases data) rs)).
    assert ((fst ∘ f) <$> zip (phases data) rs = p_id <$> phases data) as ->;
      [|exact Hnd].
    rewrite <- (fst_zip (phases data) rs) at 2 by lia.
    rewrite <- list_fmap_compose. reflexivity. }
  destruct (assoc_find_unique _ _ _ Hnd' Hin) as [j Hj].
  unfold dateMapGet. rewrite Hj. reflexivity.
Qed.

Lemma rows_show_schedule_witness :
  let p := mkPhase "2" "B" 3 false (Ymd 19001) NoStr in
  let d := set_phase 1 p sampleData in
  NoDup (p_id <$> phases d) ∧
  phaseRows [] d !! 1%nat = Some (Ymd 19725, Ymd 19727).
Proof.
  intros p d.
  assert (NoDup (p_id <$> phases d)) as H
    by (apply (bool_decide_unpack _); vm_compute; exact I).
  split; [exact H|].
  exact (rows_show_schedule [] d d
           [mkItem "1" "A" (Num 3) false NoStr NoStr (Day 19720) (Day 19724);
            mkItem "2" "B" (Num 3) false (Ymd 19001) NoStr (Day 19725)
              (Day 19727);
            mkItem "3" "C" (Num 5) false NoStr NoStr (Day 19730) (Day 19734)]
           1 p
           (mkItem "2" "B" (Num 3) false (Ymd 19001) NoStr (Day 19725)
              (Day 19727))
           H eq_refl eq_refl eq_refl).
Defined.

(** ** Whole weeks *)

Section WeekShift.
Variable hol : list Z.
Variable k : Z.

Lemma isWorkingDay_shiftDate date :
  isWorkingDay (shiftHolidays (7 * k) hol) (shiftDate date (7 * k))
  = isWorkingDay hol date.
Proof. destruct date as [d|]; [apply isWorkingDay_shift | reflexivity]. Qed.

Lemma addBusinessDays_shift date n :
  addBusinessDays (shiftHolidays (7 * k) hol) (shiftDate date (7 * k)) n
  = shiftDate (addBusinessDays hol date n) (7 * k).
Proof.
  destruct date as [d|]; [|now rewrite !addBusinessDays_invalid].
  destruct (decide (n ≤ 0)) as [Hn|Hn].
  { now rewrite !addBusinessDays_nonpos. }
  destruct (addBusinessDays_pos hol d n) as (e & -> & Hlt & Hwe & Hc); [lia|].
  simpl. apply addBusinessDays_intro; [lia | now rewrite isWorkingDay_shift |].
  replace (d + 7 * k + 1) with (d + 1 + 7 * k) by lia.
  replace (e + 7 * k - (d + 7 * k)) with (e - d) by lia.
  now rewrite countWorking_shift.
Qed.

Lemma subBusinessDays_shift date n :
  subBusinessDays (shiftHolidays (7 * k) hol) (shiftDate date (7 * k)) n
  = shiftDate (subBusinessDays hol date n) (7 * k).
Proof.
  destruct date as [d|]; [|now rewrite !subBusinessDays_invalid].
  destruct (decide (n ≤ 0)) as [Hn|Hn].
  { now rewrite !subBusinessDays_nonpos. }
  destruct (subBusinessDays_pos hol d n) as (e & -> & Hlt & Hwe & Hc); [lia|].
  simpl. apply subBusinessDays_intro; [lia | now rewrite isWorkingDay_shift |].
  replace (d + 7 * k - (e + 7 * k)) with (d - e) by lia.
  now rewrite countWorking_shift.
Qed.

Lemma ensureWorkingDayBackward_shift date :
  ensureWorkingDayBackward (shiftHolidays (7 * k) hol)
    (shiftDate date (7 * k))
  = shiftDate (ensureWorkingDayBackward hol date) (7 * k).
Proof.
  destruct date as [d|].
  2: { now rewrite !ensureBackward_fixed. }
  destruct (ensureWorkingDayBackward_Day hol d) as (e & -> & Hle & Hwe & Hz).
  simpl.
  destruct (ensureWorkingDayBackward_Day (shiftHolidays (7 * k) hol)
              (d + 7 * k)) as (e' & -> & Hle' & Hwe' & Hz').
  f_equal.
  rewrite countWorking_zero in Hz. rewrite countWorking_zero in Hz'.
  destruct (Z.lt_trichotomy e' (e + 7 * k)) as [Hlt|[->|Hgt]];
    [|reflexivity|].
  - rewrite <- (isWorkingDay_shift hol e k) in Hwe. rewrite Hz' in Hwe by lia.
    discriminate.
  - replace e' with (e' - 7 * k + 7 * k) in Hwe' by lia.
    rewrite isWorkingDay_shift, Hz in Hwe' by lia. discriminate.
Qed.

Lemma ensureWorkingDayForward_shift date :
  ensureWorkingDayForward (shiftHolidays (7 * k) hol)
    (shiftDate date (7 * k))
  = shiftDate (ensureWorkingDayForward hol date) (7 * k).
Proof.
  destruct date as [d|].
  2: { now rewrite !ensureForward_fixed. }
  destruct (ensureWorkingDayForward_Day hol d) as (e & -> & Hle & Hwe & Hz).
  simpl.
  destruct (ensureWorkingDayForward_Day (shiftHolidays (7 * k) hol)
              (d + 7 * k)) as (e' & -> & Hle' & Hwe' & Hz').
  f_equal.
  rewrite countWorking_zero in Hz. rewrite countWorking_zero in Hz'.
  destruct (Z.lt_trichotomy e' (e + 7 * k)) as [Hlt|[->|Hgt]];
    [|reflexivity|].
  - replace e' with (e' - 7 * k + 7 * k) in Hwe' by lia.
    rewrite isWorkingDay_shift, Hz in Hwe' by lia. discriminate.
  - rewrite <- (isWorkingDay_shift hol e k) in Hwe. rewrite Hz' in Hwe by lia.
    discriminate.
Qed.

Lemma newDate_shiftStr c s : newDate (shiftStr c s) = shiftDate (newDate s) c.
Proof. now destruct s. Qed.

Lemma truthy_shiftStr c s : truthy (shiftStr c s) = truthy s.
Proof. now destruct s. Qed.

Lemma getDaysDiff_shiftDate c a b :
  getDaysDiff (shiftDate a c) (shiftDate b c) = getDaysDiff a b.
Proof.
  destruct a as [x|], b as [y|]; trivial.
  simpl. rewrite !getDaysDiff_Day. f_equal. lia.
Qed.

Lemma parallelItem_shift d p :
  parallelItem (shiftHolidays (7 * k) hol) (shiftData (7 * k) d)
    (shiftPhase (7 * k) p)
  = shiftItem (7 * k) (parallelItem hol d p).
Proof.
  unfold parallelItem, shiftItem, spread. simpl.
  rewrite !truthy_shiftStr, !newDate_shiftStr.
  set (s := if truthy (manualStartDate p) then newDate (manualStartDate p)
            else newDate (anchorDate d)).
  assert ((if truthy (manualStartDate p)
           then shiftDate (newDate (manualStartDate p)) (7 * k)
           else shiftDate (newDate (anchorDate d)) (7 * k))
          = shiftDate s (7 * k)) as ->
    by (unfold s; now destruct (truthy (manualStartDate p))).
  rewrite addBusinessDays_shift.
  set (e := if truthy (manualEndDate p) then newDate (manualEndDate p)
            else addBusinessDays hol s (days p - 1)).
  assert ((if truthy (manualEndDate p)
           then shiftDate (newDate (manualEndDate p)) (7 * k)
           else shiftDate (addBusinessDays hol s (days p - 1)) (7 * k))
          = shiftDate e (7 * k)) as ->
    by (unfold e; now destruct (truthy (manualEndDate p))).
  now rewrite getDaysDiff_shiftDate.
Qed.

Lemma backChain_shift d ps : ∀ ref,
  backChain (shiftHolidays (7 * k) hol) (shiftData (7 * k) d)
    (shiftDate ref (7 * k)) (shiftPhase (7 * k) <$> ps)
  = shiftItem (7 * k) <$> backChain hol d ref ps.
Proof.
  induction ps as [|p ps IH]; intros ref; [reflexivity|].
  rewrite fmap_cons. cbn [backChain]. cbn [isParallel shiftPhase].
  destruct (isParallel p).
  - now rewrite fmap_cons, parallelItem_shift, IH.
  - rewrite fmap_cons. unfold precedingItem. cbn [startDate spread days].
    rewrite !subBusinessDays_shift, IH. reflexivity.
Qed.

Lemma forwardChain_shift d ps : ∀ ref,
  forwardChain (shiftHolidays (7 * k) hol) (shiftData (7 * k) d)
    (shiftDate ref (7 * k)) (shiftPhase (7 * k) <$> ps)
  = shiftItem (7 * k) <$> forwardChain hol d ref ps.
Proof.
  induction ps as [|p ps IH]; intros ref; [reflexivity|].
  rewrite fmap_cons. cbn [forwardChain]. cbn [isParallel shiftPhase].
  destruct (isParallel p).
  - now rewrite fmap_cons, parallelItem_shift, IH.
  - rewrite fmap_cons. unfold succeedingItem. cbn [endDate spread days].
    rewrite !addBusinessDays_shift, IH. reflexivity.
Qed.

Lemma anchorSpan_shift d p :
  anchorSpan (shiftHolidays (7 * k) hol) (shiftData (7 * k) d)
    (shiftPhase (7 * k) p)
  = (shiftDate (fst (anchorSpan hol d p)) (7 * k),
     shiftDate (snd (anchorSpan hol d p)) (7 * k)).
Proof.
  unfold anchorSpan. cbn [anchorDate anchorType shiftData days shiftPhase].
  rewrite newDate_shiftStr.
  destruct (anchorType d); cbn [fst snd].
  - now rewrite ensureWorkingDayBackward_shift, subBusinessDays_shift.
  - now rewrite ensureWorkingDayForward_shift, addBusinessDays_shift.
Qed.

Lemma scheduleList_shift d a p :
  scheduleList (shiftHolidays (7 * k) hol) (shiftData (7 * k) d) a
    (shiftPhase (7 * k) p)
  = shiftItem (7 * k) <$> scheduleList hol d a p.
Proof.
  unfold scheduleList, anchorItem. rewrite anchorSpan_shift. cbn [fst snd].
  cbn [phases shiftData].
  rewrite <- fmap_take, <- fmap_drop, <- fmap_reverse.
  rewrite backChain_shift, forwardChain_shift.
  now rewrite fmap_app, fmap_reverse, fmap_cons.
Qed.

Lemma findAnchorIndex_shift c d :
  findAnchorIndex (shiftData c d) = findAnchorIndex d.
Proof.
  unfold findAnchorIndex. cbn [phases anchorPhaseId shiftData].
  rewrite list_find_fmap.
  change ((λ p, p_id p = anchorPhaseId d) ∘ shiftPhase c)
    with (λ p, p_id p = anchorPhaseId d).
  now destruct (list_find _ (phases d)) as [[i q]|].
Qed.

(** X29.  The schedule depends on the calendar only through the day of the
    week and the holidays.  Moving the anchor date, every manual date and
    every holiday by the same whole number of weeks, forward or backward,
    moves every start and end date of the schedule by that many weeks and
    changes nothing else: days, ids, modes, and the anchor repair are the
    same. *)
Theorem schedule_moves_by_whole_weeks (d : TimelineData) :
  calculateSchedule (shiftHolidays (7 * k) hol) (shiftData (7 * k) d)
  = ((λ rs : list ResultItem, shiftItem (7 * k) <$> rs)
     <$> fst (calculateSchedule hol d),
     shiftData (7 * k) (snd (calculateSchedule hol d))).
Proof.
  destruct (truthy (anchorDate d)) eqn:Et.
  2: { rewrite (calculateSchedule_null hol d) by auto.
       rewrite calculateSchedule_null; [reflexivity|].
       left. simpl. now rewrite truthy_shiftStr. }
  destruct (phases d) as [|p0 ps] eqn:Ep.
  { rewrite (calculateSchedule_null hol d) by auto.
    rewrite calculateSchedule_null; [reflexivity|].
    right. simpl. now rewrite Ep. }
  assert (truthy (anchorDate (shiftData (7 * k) d)) = true) as Et'
    by (simpl; now rewrite truthy_shiftStr).
  destruct (findAnchorIndex d) as [a|] eqn:Ef.
  - destruct (findAnchorIndex_lookup _ _ Ef) as (p & Hp & _).
    rewrite (calculateSchedule_found_list hol d a p) by trivial.
    rewrite (calculateSchedule_found_list _ _ a (shiftPhase (7 * k) p));
      trivial.
    + now rewrite scheduleList_shift.
    + now rewrite findAnchorIndex_shift.
    + simpl. now rewrite list_lookup_fmap, Hp.
  - rewrite (calculateSchedule_repair hol d p0 ps) by trivial.
    rewrite (calculateSchedule_repair _ _ (shiftPhase (7 * k) p0)
               (shiftPhase (7 * k) <$> ps)); trivial.
    2: { now rewrite findAnchorIndex_shift. }
    2: { simpl. now rewrite Ep. }
    cbn [fst snd fmap option_fmap option_map].
    change (set_anchorPhaseId (p_id (shiftPhase (7 * k) p0))
              (shiftData (7 * k) d))
      with (shiftData (7 * k) (set_anchorPhaseId (p_id p0) d)).
    assert (phases (set_anchorPhaseId (p_id p0) d) !! 0%nat = Some p0) as Hp
      by (simpl; now rewrite Ep).
    rewrite (scheduleFrom_list _ _ _ _ Hp).
    rewrite (scheduleFrom_list _ _ _ (shiftPhase (7 * k) p0)).
    2: { simpl. now rewrite list_lookup_fmap, Ep. }
    now rewrite scheduleList_shift.
Qed.
End WeekShift.

(** * The chain and the move, against the schedule *)

(** ** C1: the chain of the sequential phases, entry by entry *)

(** C1.  Take a timeline whose anchor date is a date, whose phases all have
    positive days and whose anchor phase is sequential.  The engine returns
    a schedule with one entry per phase, in the order of the phase list and
    under the id, name, mode and manual dates of its phase.  The entry of
    every sequential phase is a span of valid dates that holds exactly as
    many working days as the phase has days.  Read in list order, the
    entries of the sequential phases (those before the anchor, the anchor,
    those after it) each start and end on a working day with start ≤ end,
    and each one ends before the next one starts with no working day
    between the two: the spans strictly decrease going back from the anchor,
    strictly increase going forward, do not overlap and are adjacent working
    day to working day.  Taking the parallel phases out of the list leaves
    exactly these entries. *)
Theorem chain_monotonicity (hol : list Z) (data : TimelineData) (a : nat)
    (p : Phase) (ad : Z) :
  anchorDate data = Ymd ad →
  Forall (λ q, 0 < days q) (phases data) →
  findAnchorIndex data = Some a → phases data !! a = Some p →
  isParallel p = false →
  ∃ rs,
    calculateSchedule hol data = (Some rs, data) ∧
    Forall2 keepsFields (phases data) rs ∧
    (∀ i q r, phases data !! i = Some q → rs !! i = Some r →
              isParallel q = false →
              ∃ s e, startDate r = Day s ∧ endDate r = Day e ∧ s ≤ e ∧
                     workingDaysIn hol s e = days q) ∧
    contiguousChain hol (filter seqItem rs) ∧
    calculateSchedule hol (set_phases (filter seqPhase (phases data)) data)
    = (Some (filter seqItem rs),
       set_phases (filter seqPhase (phases data)) data).
Proof.
  intros Had Hpos Hf Hp Hseq.
  assert (truthy (anchorDate data) = true) as Ht by now rewrite Had.
  exists (scheduleList hol data a p).
  split; [now apply calculateSchedule_found_list|].
  destruct (anchorItem_sized hol data p ad Had) as (Hsz & Hqs & Hqe).
  assert (Forall2 (λ q r, keepsFields q r ∧
                          (isParallel q = false → sized hol q r))
            (phases data) (scheduleList hol data a p)) as Hall.
  { apply (scheduleList_rel hol data _ (λ ref, ∃ x, ref = Day x)); trivial.
    - intros q E. split; [apply parallelItem_keeps | congruence].
    - intros q ref E [x ->].
      destruct (precedingItem_sized hol q x) as [H1 H2].
      split; [|exact H2]. split; [repeat split | intros _; exact H1].
    - intros q ref E [x ->].
      destruct (succeedingItem_sized hol q x) as [H1 H2].
      split; [|exact H2]. split; [repeat split | intros _; exact H1].
    - split; [repeat split | intros _; exact Hsz]. }
  split.
  { eapply Forall2_impl; [exact Hall | now intros q r [H _]]. }
  split.
  { intros i q r Hq Hr E.
    destruct (Forall2_lookup_lr _ _ _ _ _ _ Hall Hq Hr) as [_ Hs].
    destruct (Hs E) as (s & e & H1 & H2 & H3 & H4).
    exists s, e. repeat split; trivial.
    pose proof (Forall_lookup_1 _ _ _ _ Hpos Hq) as Hd. simpl in Hd. lia. }
  split; [|now apply schedule_without_parallel].
  rewrite (scheduleList_filter _ _ _ _ Hseq).
  pose proof (anchorItem_ok hol data p ad Had) as Hok.
  destruct Hok as (s & e & Hs & He & Hrest).
  unfold anchorItem in Hs, He. simpl in Hs, He. rewrite Hs, He.
  apply backChain_chain.
  - apply Forall_reverse, Forall_forall. intros q Hq.
    now apply list_elem_of_filter in Hq as [Hq _].
  - apply forwardChain_chain.
    + apply Forall_forall. intros q Hq.
      now apply list_elem_of_filter in Hq as [Hq _].
    + exists s, e. unfold anchorItem. simpl. rewrite Hs, He. tauto.
    + unfold anchorItem. simpl. exact He.
  - unfold anchorItem. simpl. exact Hs.
Qed.

Lemma chain_monotonicity_witness :
  let data := mkData (Ymd 19734) "3" AnchorEnd Asc
                [mkPhase "1" "A" 3 false NoStr NoStr;
                 mkPhase "2" "P" 4 true (Ymd 19730) (Ymd 19731);
                 mkPhase "3" "B" 5 false NoStr NoStr;
                 mkPhase "4" "C" 2 false NoStr NoStr] in
  let p := mkPhase "3" "B" 5 false NoStr NoStr in
  anchorDate data = Ymd 19734 ∧
  Forall (λ q, 0 < days q) (phases data) ∧
  findAnchorIndex data = Some 2%nat ∧ phases data !! 2%nat = Some p ∧
  isParallel p = false ∧
  ∃ rs,
    calculateSchedule [19725] data = (Some rs, data) ∧
    Forall2 keepsFields (phases data) rs ∧
    (∀ i q r, phases data !! i = Some q → rs !! i = Some r →
              isParallel q = false →
              ∃ s e, startDate r = Day s ∧ endDate r = Day e ∧ s ≤ e ∧
                     workingDaysIn [19725] s e = days q) ∧
    contiguousChain [19725] (filter seqItem rs) ∧
    calculateSchedule [19725]
      (set_phases (filter seqPhase (phases data)) data)
    = (Some (filter seqItem rs),
       set_phases (filter seqPhase (phases data)) data).
Proof.
  intros data p.
  assert (anchorDate data = Ymd 19734) as H1 by reflexivity.
  assert (Forall (λ q, 0 < days q) (phases data)) as H2
    by (repeat (apply Forall_cons_2; [simpl; lia|]); apply Forall_nil_2).
  assert (findAnchorIndex data = Some 2%nat) as H3 by reflexivity.
  assert (phases data !! 2%nat = Some p) as H4 by reflexivity.
  assert (isParallel p = false) as H5 by reflexivity.
  repeat (split; [assumption|]).
  exact (chain_monotonicity [19725] data 2 p 19734 H1 H2 H3 H4 H5).
Defined.

(** ** C2: the collision rule *)

(** The overlap test, in day numbers: both dates of both spans are valid and
    the closed ranges of days meet. *)
Lemma overlaps_days ps pe r :
  overlaps ps pe r = true ↔
  ∃ s1 e1 s2 e2, ps = Day s1 ∧ pe = Day e1 ∧
                 startDate r = Day s2 ∧ endDate r = Day e2 ∧
                 s1 ≤ e2 ∧ s2 ≤ e1.
Proof.
  unfold overlaps, numLe, getTime, msPerDay.
  destruct ps as [s1|], pe as [e1|], (startDate r) as [s2|],
    (endDate r) as [e2|]; simpl; rewrite ?andb_false_r.
  1: { rewrite andb_true_iff, !Z.leb_le. split.
       - intros [H1 H2]. exists s1, e1, s2, e2. repeat split; lia.
       - intros (? & ? & ? & ? & [= <-] & [= <-] & [= <-] & [= <-] & H1 & H2).
         split; lia. }
  all: split; [discriminate|].
  all: intros (? & ? & ? & ? & H1 & H2 & H3 & H4 & _); congruence.
Qed.

(** A proposed span without a valid end date collides with nothing. *)
Lemma no_collision_without_end d pid ps rs :
  existsb (collidesWith d pid ps InvalidDate) rs = false.
Proof.
  induction rs as [|r rs IH]; [reflexivity|]. simpl. rewrite IH, orb_false_r.
  unfold collidesWith. destruct (bool_decide _); [reflexivity|].
  destruct (list_find _ _) as [[i q]|]; [|reflexivity].
  destruct (isParallel q); [reflexivity|].
  destruct (bool_decide _); [reflexivity|].
  destruct (overlaps ps InvalidDate r) eqn:E; [|reflexivity].
  apply overlaps_days in E as (? & ? & ? & ? & _ & [=] & _).
Qed.

(** C2.  Take a move by a non-zero number of days of a phase that is not
    the anchor, in a state left by a render and with unique phase ids.
    - When the current span of the phase is resolved as the schedule has it
      (the phase is sequential, or parallel without a start date, or
      parallel with both manual dates), the call ends in the collision
      abort exactly when the schedule exists and, in day numbers, the span
      [s1, e1] of the phase in the schedule, moved by [deltaDays], meets the
      span [s2, e2] of another phase that is sequential and not the anchor:
      [s1 + deltaDays ≤ e2] and [s2 ≤ e1 + deltaDays].
    - A collision abort leaves the state as it was.
    - When the phase is parallel with a start date and its end date is not
      a date, the call never ends in the collision abort, whatever the
      schedule: the proposed end is [Invalid Date] and every comparison with
      it is false. *)
Theorem move_rejected_iff_overlap (dom : Dom) (drag : GanttDragState)
    (deltaDays : Z) (s : AppState) (ti : nat) (t : Timeline) (pidx : nat)
    (p : Phase) :
  deltaDays ≠ 0 → dragType drag = DragMove →
  list_find (λ t, t_id t = timelineId drag) (timelines s) = Some (ti, t) →
  list_find (λ q, p_id q = phaseId drag) (phases (data t)) = Some (pidx, p) →
  p_id p ≠ anchorPhaseId (data t) →
  NoDup (p_id <$> phases (data t)) →
  settled s = true →
  ((isParallel p = true → truthy (manualStartDate p) = true →
    truthy (manualEndDate p) = true) →
   (fst (applyGanttChange dom drag deltaDays s) = ExitCollision ↔
    ∃ rs r0 j q r s1 e1 s2 e2,
      calculateSchedule (globalHolidays s) (data t) = (Some rs, data t) ∧
      rs !! pidx = Some r0 ∧ startDate r0 = Day s1 ∧ endDate r0 = Day e1 ∧
      phases (data t) !! j = Some q ∧ rs !! j = Some r ∧ j ≠ pidx ∧
      isParallel q = false ∧ p_id q ≠ anchorPhaseId (data t) ∧
      startDate r = Day s2 ∧ endDate r = Day e2 ∧
      s1 + deltaDays ≤ e2 ∧ s2 ≤ e1 + deltaDays))
  ∧ (fst (applyGanttChange dom drag deltaDays s) = ExitCollision →
     snd (applyGanttChange dom drag deltaDays s) = s)
  ∧ (isParallel p = true → truthy (manualStartDate p) = true →
     newDate (manualEndDate p) = InvalidDate →
     fst (applyGanttChange dom drag deltaDays s) ≠ ExitCollision).
Proof.
  intros Hd Hty Ht Hp Hne Hnd Hs.
  rewrite (applyGanttChange_move_settled _ _ _ _ _ _ _ _ Hd Hty Ht Hp Hne Hs).
  pose proof Ht as Ht'. apply list_find_Some in Ht' as (Hti & _ & _).
  pose proof Hp as Hp'. apply list_find_Some in Hp' as (Hpi & Hpid & _).
  pose proof (settled_lookup _ _ _ Hs Hti) as Hst.
  pose proof (anchorSettled_fixed (globalHolidays s) _ Hst) as Hfix.
  split; [|split].
  - intros Hman.
    destruct (fst (calculateSchedule (globalHolidays s) (data t)))
      as [rs|] eqn:Ers.
    2: { assert (∀ (x : option (JsDate * JsDate)),
                   fst (match x with
                        | Some (ts, te) => (ExitTypeError, s)
                        | None => (ExitTypeError, s)
                        end) ≠ ExitCollision) as Hx
           by (intros [[? ?]|]; discriminate).
         split; [intros H; now apply Hx in H|].
         intros (rs & r0 & j & q & r & s1 & e1 & s2 & e2 & H & _).
         rewrite H in Ers. discriminate Ers. }
    destruct (calculateSchedule_cases _ _ _ _ Hfix)
      as (a & pa & Hf & Hpa & _ & _ & _).
    assert (pidx ≠ a) as Hia.
    { intros ->. destruct (findAnchorIndex_lookup _ _ Hf) as (pa' & Hpa' & Hid).
      rewrite Hpi in Hpa'. injection Hpa' as <-. now apply Hne. }
    destruct (currentSpan_resolved _ _ _ _ _ _ Hfix Hf Hnd Hpi Hia Hman)
      as (r0 & Hr0 & Hcs).
    rewrite <- Hpid, Hcs.
    pose proof (collision_iff (globalHolidays s) (data t) rs pidx p
                  (shiftDate (startDate r0) deltaDays)
                  (shiftDate (endDate r0) deltaDays) Ers Hnd Hpi) as Hiff.
    destruct (existsb _ rs) eqn:Eex; cbn [fst].
    + split; [intros _|reflexivity].
      destruct (proj1 Hiff eq_refl) as (j & q & r & Hq & Hr & Hj & Hsq & Hna
                                        & Hov).
      apply overlaps_days in Hov
        as (s1 & e1 & s2 & e2 & Hs1 & He1 & Hs2 & He2 & Hle1 & Hle2).
      destruct (startDate r0) as [x|] eqn:Ex; [|discriminate].
      destruct (endDate r0) as [y|] eqn:Ey; [|discriminate].
      simpl in Hs1, He1. injection Hs1 as <-. injection He1 as <-.
      exists rs, r0, j, q, r, x, y, s2, e2. repeat split; trivial.
    + split; [discriminate|].
      intros (rs' & r0' & j & q & r & s1 & e1 & s2 & e2 & Hc & Hr0' & Hs1
              & He1 & Hq & Hr & Hj & Hsq & Hna & Hs2 & He2 & Hle1 & Hle2).
      rewrite Hc in Hfix. injection Hfix as <-.
      rewrite Hr0 in Hr0'. injection Hr0' as <-.
      assert (false = true); [|discriminate]. apply Hiff.
      exists j, q, r. repeat split; trivial.
      apply overlaps_days. exists (s1 + deltaDays), (e1 + deltaDays), s2, e2.
      rewrite Hs1, He1. repeat split; trivial.
  - destruct (fst (currentSpan _ _ _ _)) as [[ts te]|]; [|discriminate].
    destruct (fst (calculateSchedule _ _)) as [rs|]; [|discriminate].
    destruct (existsb _ rs); [reflexivity | discriminate].
  - intros Hpar Hms Hme.
    assert (fst (currentSpan (globalHolidays s) (data t) p (phaseId drag))
            = Some (newDate (manualStartDate p), InvalidDate)) as ->.
    { unfold currentSpan. rewrite Hpar, Hms, Hme. reflexivity. }
    destruct (fst (calculateSchedule _ _)) as [rs|]; [|discriminate].
    cbn [shiftDate]. rewrite no_collision_without_end. discriminate.
Qed.

(** The collision abort on the sample state (A moved one day into B), and
    the move of B in [openEndState] onto the days of A: B's span in the
    schedule, moved by 9 days, is exactly A's, and the call commits. *)
Lemma move_rejected_iff_overlap_witness :
  let drag := mkDrag DragMove "2" "t1" 3 in
  let t := mkTimeline "t1" "Sprint 1" openEndData in
  let p := mkPhase "2" "B" 3 true (Ymd 19716) NoStr in
  9 ≠ 0 ∧ dragType drag = DragMove ∧
  list_find (λ t, t_id t = timelineId drag) (timelines openEndState)
  = Some (0%nat, t) ∧
  list_find (λ q, p_id q = phaseId drag) (phases (data t)) = Some (1%nat, p) ∧
  p_id p ≠ anchorPhaseId (data t) ∧
  NoDup (p_id <$> phases (data t)) ∧
  settled openEndState = true ∧
  fst (calculateSchedule [] openEndData)
  = Some [mkItem "1" "A" (Num 3) false NoStr NoStr (Day 19725) (Day 19727);
          mkItem "2" "B" (Num 3) true (Ymd 19716) NoStr (Day 19716)
            (Day 19718);
          mkItem "3" "C" (Num 5) false NoStr NoStr (Day 19730) (Day 19734)] ∧
  fst (applyGanttChange sampleDom drag 9 openEndState) ≠ ExitCollision ∧
  fst (applyGanttChange sampleDom drag 9 openEndState) = ExitCommitted.
Proof.
  intros drag t p.
  assert (9 ≠ 0) as H1 by lia.
  assert (dragType drag = DragMove) as H2 by reflexivity.
  assert (list_find (λ t, t_id t = timelineId drag) (timelines openEndState)
          = Some (0%nat, t)) as H3 by reflexivity.
  assert (list_find (λ q, p_id q = phaseId drag) (phases (data t))
          = Some (1%nat, p)) as H4 by reflexivity.
  assert (p_id p ≠ anchorPhaseId (data t)) as H5 by discriminate.
  assert (NoDup (p_id <$> phases (data t))) as H6
    by (apply (bool_decide_unpack _); vm_compute; exact I).
  assert (settled openEndState = true) as H7 by reflexivity.
  repeat (split; [assumption|]).
  split; [vm_compute; reflexivity|].
  split; [|vm_compute; reflexivity].
  exact (proj2 (proj2 (move_rejected_iff_overlap sampleDom drag 9 openEndState
                         0 t 1 p H1 H2 H3 H4 H5 H6 H7))
           eq_refl eq_refl eq_refl).
Defined.

(** The rule on the sample state: A moved one day forward runs into B. *)
Example move_into_neighbour_rejected :
  fst (applyGanttChange sampleDom (mkDrag DragMove "1" "t1" 3) 1 sampleState)
  = ExitCollision.
Proof. vm_compute. reflexivity. Qed.

(** ** C3: promotion and its persistence *)

(** C3.  When the move of a non-anchor phase by a non-zero number of days is
    accepted, in a state left by a render and with unique phase ids, the
    phase is in parallel mode afterwards.
    - When its current span is resolved as the schedule has it (the phase
      is sequential, or parallel without a start date, or parallel with
      both manual dates), [manualStartDate] and [manualEndDate] are the
      start and the end of its entry in the schedule, moved by [deltaDays]
      days.
    - When it is parallel with a start date and its end date is not a
      date, [manualEndDate] becomes the text [NaN-NaN-NaN].
    - From then on it stays parallel through every sequence of edits of the
      timeline (field edits, reordering, deletion and addition of phases,
      anchor settings, renders, further drags) in which no edit is the
      parallel checkbox of that phase; and in every schedule computed after
      such edits its entry is read off its manual dates, not off the chain,
      unless the phase has become the anchor. *)
Theorem accepted_move_promotes (dom : Dom) (drag : GanttDragState)
    (deltaDays : Z) (s : AppState) (ti : nat) (t : Timeline) (pidx : nat)
    (p : Phase) :
  deltaDays ≠ 0 → dragType drag = DragMove →
  list_find (λ t, t_id t = timelineId drag) (timelines s) = Some (ti, t) →
  list_find (λ q, p_id q = phaseId drag) (phases (data t)) = Some (pidx, p) →
  p_id p ≠ anchorPhaseId (data t) →
  NoDup (p_id <$> phases (data t)) →
  settled s = true →
  fst (applyGanttChange dom drag deltaDays s) = ExitCommitted →
  ∃ t' p',
    timelines (snd (applyGanttChange dom drag deltaDays s)) !! ti = Some t' ∧
    phases (data t') !! pidx = Some p' ∧
    p_id p' = p_id p ∧ isParallel p' = true ∧
    ((isParallel p = true → truthy (manualStartDate p) = true →
      truthy (manualEndDate p) = true) →
     ∃ rs r0,
       calculateSchedule (globalHolidays s) (data t) = (Some rs, data t) ∧
       rs !! pidx = Some r0 ∧
       manualStartDate p' = iso (shiftDate (startDate r0) deltaDays) ∧
       manualEndDate p' = iso (shiftDate (endDate r0) deltaDays)) ∧
    (isParallel p = true → truthy (manualStartDate p) = true →
     newDate (manualEndDate p) = InvalidDate →
     manualEndDate p' = NaNStr) ∧
    ∀ hol es, quiet hol (p_id p) es (data t') →
      parallelById (p_id p) (applyEdits hol es (data t')) ∧
      ∀ rs2 d2 j q r,
        calculateSchedule hol (applyEdits hol es (data t')) = (Some rs2, d2) →
        phases d2 !! j = Some q → p_id q = p_id p →
        findAnchorIndex d2 ≠ Some j → rs2 !! j = Some r →
        r = parallelItem hol d2 q.
Proof.
  intros Hd Hty Ht Hp Hne Hnd Hs.
  rewrite (applyGanttChange_move_settled _ _ _ _ _ _ _ _ Hd Hty Ht Hp Hne Hs).
  pose proof Ht as Ht'. apply list_find_Some in Ht' as (Hti & _ & _).
  pose proof Hp as Hp'. apply list_find_Some in Hp' as (Hpi & Hpid & _).
  pose proof (settled_lookup _ _ _ Hs Hti) as Hst.
  pose proof (anchorSettled_fixed (globalHolidays s) _ Hst) as Hfix.
  destruct (fst (currentSpan _ _ _ _)) as [[ts te]|] eqn:Ecs; [|discriminate].
  destruct (fst (calculateSchedule _ _)) as [rs|] eqn:Ers; [|discriminate].
  destruct (existsb _ rs); [discriminate|]. intros _. cbn [snd].
  eexists _, _.
  split.
  { simpl. apply list_lookup_insert_eq. now apply lookup_lt_Some in Hti. }
  split.
  { simpl. apply list_lookup_insert_eq. now apply lookup_lt_Some in Hpi. }
  split; [reflexivity|]. split; [reflexivity|].
  split; [|split].
  - intros Hman.
    destruct (calculateSchedule_cases _ _ _ _ Hfix)
      as (a & pa & Hf & Hpa & _ & _ & _).
    assert (pidx ≠ a) as Hia.
    { intros ->. destruct (findAnchorIndex_lookup _ _ Hf) as (pa' & Hpa' & Hid).
      rewrite Hpi in Hpa'. injection Hpa' as <-. now apply Hne. }
    destruct (currentSpan_resolved _ _ _ _ _ _ Hfix Hf Hnd Hpi Hia Hman)
      as (r0 & Hr0 & Hcs).
    rewrite Hpid, Ecs in Hcs. injection Hcs as -> ->.
    exists rs, r0. repeat split; trivial.
  - intros Hpar Hms Hme. simpl.
    unfold currentSpan in Ecs. rewrite Hpar, Hms, Hme in Ecs. simpl in Ecs.
    now injection Ecs as <- <-.
  - intros hol es Hq.
    assert (parallelById (p_id p) (applyEdits hol es
              (set_phase pidx
                 (mkPhase (p_id p) (p_name p) (days p) true
                    (iso (shiftDate ts deltaDays))
                    (iso (shiftDate te deltaDays))) (data t)))) as Hpb.
    { apply (applyEdits_parallelById hol _ _ _ Hq).
      unfold parallelById. simpl. apply Forall_forall. intros q Hin Hid.
      apply list_elem_of_lookup in Hin as [j Hj].
      destruct (decide (j = pidx)) as [->|Hjne].
      - rewrite list_lookup_insert_eq in Hj
          by now apply lookup_lt_Some in Hpi.
        now injection Hj as <-.
      - rewrite list_lookup_insert_ne in Hj by congruence.
        exfalso. apply Hjne.
        now apply (NoDup_id_index _ _ _ _ _ Hnd Hj Hpi). }
    split; [exact Hpb|].
    intros rs2 d2 j q r Hc Hq2 Hid Hna Hr.
    destruct (calculateSchedule_cases _ _ _ _ Hc)
      as (a & pa & Hf & Hpa & -> & Hph & _).
    assert (j ≠ a) as Hja by (intros ->; now apply Hna).
    destruct (scheduleList_lookup_other hol d2 a pa j q Hpa Hja Hq2)
      as (r' & Hr' & _ & _ & Hent).
    rewrite Hr in Hr'. injection Hr' as <-. apply Hent.
    cbn [data set_data] in Hph.
    unfold parallelById in Hpb. rewrite <- Hph in Hpb.
    exact (Forall_lookup_1 _ _ _ _ Hpb Hq2 Hid).
Qed.

(** The move of B in [openEndState] by one day, onto free days: it is
    committed, and B is left with the end date [NaN-NaN-NaN]. *)
Lemma accepted_move_promotes_witness :
  let drag := mkDrag DragMove "2" "t1" 3 in
  let t := mkTimeline "t1" "Sprint 1" openEndData in
  let p := mkPhase "2" "B" 3 true (Ymd 19716) NoStr in
  1 ≠ 0 ∧ dragType drag = DragMove ∧
  list_find (λ t, t_id t = timelineId drag) (timelines openEndState)
  = Some (0%nat, t) ∧
  list_find (λ q, p_id q = phaseId drag) (phases (data t)) = Some (1%nat, p) ∧
  p_id p ≠ anchorPhaseId (data t) ∧
  NoDup (p_id <$> phases (data t)) ∧
  settled openEndState = true ∧
  fst (applyGanttChange sampleDom drag 1 openEndState) = ExitCommitted ∧
  ∃ t' p',
    timelines (snd (applyGanttChange sampleDom drag 1 openEndState)) !! 0%nat
    = Some t' ∧
    phases (data t') !! 1%nat = Some p' ∧
    isParallel p' = true ∧ manualStartDate p' = Ymd 19717 ∧
    manualEndDate p' = NaNStr.
Proof.
  intros drag t p.
  assert (1 ≠ 0) as H1 by lia.
  assert (dragType drag = DragMove) as H2 by reflexivity.
  assert (list_find (λ t, t_id t = timelineId drag) (timelines openEndState)
          = Some (0%nat, t)) as H3 by reflexivity.
  assert (list_find (λ q, p_id q = phaseId drag) (phases (data t))
          = Some (1%nat, p)) as H4 by reflexivity.
  assert (p_id p ≠ anchorPhaseId (data t)) as H5 by discriminate.
  assert (NoDup (p_id <$> phases (data t))) as H6
    by (apply (bool_decide_unpack _); vm_compute; exact I).
  assert (settled openEndState = true) as H7 by reflexivity.
  assert (fst (applyGanttChange sampleDom drag 1 openEndState)
          = ExitCommitted) as H8 by (vm_compute; reflexivity).
  repeat (split; [assumption|]).
  destruct (accepted_move_promotes sampleDom drag 1 openEndState 0 t 1 p
              H1 H2 H3 H4 H5 H6 H7 H8)
    as (t' & p' & G1 & G2 & _ & G4 & _ & G6 & _).
  exists t', p'. split; [exact G1|]. split; [exact G2|]. split; [exact G4|].
  split; [|exact (G6 eq_refl eq_refl eq_refl)].
  vm_compute in G1. injection G1 as <-.
  vm_compute in G2. now injection G2 as <-.
Defined.
